(** * convert.py: the slide archive converter

    A shallow embedding of [convert.py] (discovery of slide PNGs, WebP
    conversion, archival of the originals, rebuild of [list.json]) and the
    properties of its specification.

    Python values are modelled as follows.
    - [str] is a list of Unicode code points ([N]); comparison of strings is
      lexicographic on code points, as in Python.
    - The file system is a finite map from path strings to file contents;
      directories are implicit (a directory holds the files whose path is
      the directory, a slash and a slash-free name).
    - Functions that can raise return a [result]; functions that touch the
      file system or print are state transformers whose state survives an
      exception. *)

From Stdlib Require Import String Ascii.
From stdpp Require Import gmap list sorting.

Local Open Scope N_scope.

(** ** Strings *)

Module Str.

Definition str := list N.

(** A Rocq literal read as code points (used for ASCII constants). *)
Definition lit (s : string) : str :=
  (fun a => N_of_ascii a) <$> list_ascii_of_string s.

Definition underscore : N := 95.
Definition dot : N := 46.
Definition slash : N := 47.

(** [s.split(sep)] for a one-character separator. *)
Fixpoint split (sep : N) (s : str) : list str :=
  match s with
  | [] => [[]]
  | c :: r =>
      if N.eqb c sep then [] :: split sep r
      else match split sep r with
           | w :: ws => (c :: w) :: ws
           | [] => [[c]]
           end
  end.

(** [sep.join(parts)]. *)
Fixpoint join (sep : str) (parts : list str) : str :=
  match parts with
  | [] => []
  | p :: ps =>
      match ps with
      | [] => p
      | _ :: _ => p ++ sep ++ join sep ps
      end
  end.

(** [s.rfind(c)]: index of the last occurrence, [None] for Python's -1. *)
Fixpoint rfind (c : N) (s : str) : option nat :=
  match s with
  | [] => None
  | x :: r =>
      match rfind c r with
      | Some i => Some (S i)
      | None => if N.eqb x c then Some 0%nat else None
      end
  end.

(** [s.endswith(suffix)]. *)
Definition endswith (s suffix : str) : bool :=
  bool_decide (drop (length s - length suffix)%nat s = suffix).

(** [s.startswith(prefix)]. *)
Definition startswith (s prefix : str) : bool :=
  bool_decide (take (length prefix) s = prefix).

(** Python's [<] and [<=] on [str]: lexicographic on code points. *)
Fixpoint ltb (a b : str) : bool :=
  match a, b with
  | [], [] => false
  | [], _ :: _ => true
  | _ :: _, [] => false
  | x :: a', y :: b' => N.ltb x y || (N.eqb x y && ltb a' b')
  end.

Definition leb (a b : str) : bool := negb (ltb b a).

(** *** Unicode digit classes (Unicode 14.0, as in CPython 3.11)

    [decimal_zeros] lists the code point of the digit zero of every run of
    ten decimal digits (general category Nd); [digit_only] lists the ranges
    of the characters that have a digit value without being decimal digits
    (superscripts, circled digits and the like). *)
Definition decimal_zeros : list N :=
  [48; 1632; 1776; 1984; 2406; 2534; 2662; 2790; 2918; 3046; 3174; 3302;
   3430; 3558; 3664; 3792; 3872; 4160; 4240; 6112; 6160; 6470; 6608; 6784;
   6800; 6992; 7088; 7232; 7248; 42528; 43216; 43264; 43472; 43504; 43600;
   44016; 65296; 66720; 68912; 69734; 69872; 69942; 70096; 70384; 70736;
   70864; 71248; 71360; 71472; 71904; 72016; 72784; 73040; 73120; 92768;
   92864; 93008; 120782; 120792; 120802; 120812; 120822; 123200; 123632;
   125264; 130032].

Definition digit_only : list (N * N) :=
  [(178, 179); (185, 185); (4969, 4977); (6618, 6618); (8304, 8304);
   (8308, 8313); (8320, 8329); (9312, 9320); (9332, 9340); (9352, 9360);
   (9450, 9450); (9461, 9469); (9471, 9471); (10102, 10110);
   (10112, 10120); (10122, 10130); (68160, 68163); (69216, 69224);
   (69714, 69722); (127232, 127242)].

(** The decimal value of a character, when it is a decimal digit. *)
Definition decimal_value (c : N) : option N :=
  (fun z => c - z) <$> List.find (fun z => N.leb z c && N.ltb c (z + 10)) decimal_zeros.

Definition is_decimal_char (c : N) : bool :=
  match decimal_value c with Some _ => true | None => false end.

Definition is_digit_char (c : N) : bool :=
  is_decimal_char c
  || existsb (fun r => N.leb (fst r) c && N.leb c (snd r)) digit_only.

(** [s.isdigit()]: non-empty and every character is a digit. *)
Definition isdigit (s : str) : bool :=
  match s with
  | [] => false
  | _ :: _ => forallb is_digit_char s
  end.

(** [s.isdecimal()]. *)
Definition isdecimal (s : str) : bool :=
  match s with
  | [] => false
  | _ :: _ => forallb is_decimal_char s
  end.

(** The value of a string of decimal digits, most significant first;
    [None] when a character is not a decimal digit. *)
Definition decimal_number (s : str) : option Z :=
  foldl (fun acc c =>
           n ← acc; d ← decimal_value c; Some (10 * n + Z.of_N d)%Z)
        (Some 0%Z) s.

End Str.

Import Str.

(** ** Exceptions

    [OSError] stands for the errors of the file system and of the image
    codec ([FileNotFoundError], [PIL.UnidentifiedImageError] and the like,
    which are subclasses of it). *)

Inductive exn :=
  | IndexError
  | ValueError
  | OSError.

Inductive result (A : Type) :=
  | Ok (a : A)
  | Raise (e : exn).
Arguments Ok {A} a.
Arguments Raise {A} e.

Definition rbind {A B} (r : result A) (k : A -> result B) : result B :=
  match r with
  | Ok a => k a
  | Raise e => Raise e
  end.

Notation "x <-? r ; k" := (rbind r (fun x => k))
  (at level 100, r at next level, right associativity, only parsing).

(** ** Built-ins and [os.path] *)

(** [int(s)] for a string [s] on which [s.isdigit()] holds, the only way
    the program calls it: such a string has no sign, blank or underscore,
    so the conversion succeeds exactly when every character is a decimal
    digit. (CPython also refuses literals longer than
    [sys.get_int_max_str_digits()], 4300 digits unless configured; no file
    name is that long, and the limit is left out.) *)
Definition int (s : str) : result Z :=
  match s, decimal_number s with
  | _ :: _, Some n => Ok n
  | _, _ => Raise ValueError
  end.

(** [parts[0]] and [parts[-1]]: [IndexError] on the empty list. *)
Definition first_item {A} (l : list A) : result A :=
  match l with
  | x :: _ => Ok x
  | [] => Raise IndexError
  end.

Definition last_item {A} (l : list A) : result A :=
  match last l with
  | Some x => Ok x
  | None => Raise IndexError
  end.

(** [parts[1:-1]]. *)
Definition slice_1_m1 {A} (l : list A) : list A :=
  drop 1 (take (length l - 1)%nat l).

(** [os.path.splitext] (posixpath): the extension starts at the last dot
    of the last path component, leading dots of that component aside. *)
Definition splitext (p : str) : str * str :=
  let filenameIndex := match rfind slash p with Some i => S i | None => 0%nat end in
  match rfind dot p with
  | Some dotIndex =>
      if bool_decide (filenameIndex ≤ dotIndex)%nat
         && existsb (fun c => negb (N.eqb c dot))
                    (take (dotIndex - filenameIndex)%nat (drop filenameIndex p))
      then (take dotIndex p, drop dotIndex p)
      else (p, [])
  | None => (p, [])
  end.

(** [os.path.basename] (posixpath). *)
Definition basename (p : str) : str :=
  match rfind slash p with
  | Some i => drop (S i) p
  | None => p
  end.

(** [os.path.join(a, b)] (posixpath, two arguments). *)
Definition path_join (a b : str) : str :=
  if startswith b [slash] then b
  else if bool_decide (a = []) || endswith a [slash] then a ++ b
  else a ++ [slash] ++ b.

(** ** [parse_filename] *)

Definition parse_filename (webp_name : str) : result (str * str * Z) :=
  let name := fst (splitext webp_name) in
  let parts := split underscore name in
  date <-? first_item parts;
  page <-? last_item parts;
  let label := join [underscore] (slice_1_m1 parts) in
  page_num <-? (if isdigit page then int page else Ok 0%Z);
  Ok (date, label, page_num).

(** ** Sorting

    [sorted] is a stable sort; a stable sort is determined by its order, and
    it is given here as an insertion sort. An element is put before the
    first later element that it does not exceed, so elements with equal keys
    keep their order. *)

Fixpoint insert_sorted {A} (le : A -> A -> bool) (x : A) (l : list A) : list A :=
  match l with
  | [] => [x]
  | y :: l' => if le x y then x :: l else y :: insert_sorted le x l'
  end.

Definition sorted_with {A} (le : A -> A -> bool) (l : list A) : list A :=
  foldr (insert_sorted le) [] l.

(** [sorted(l)] on strings. *)
Definition sorted (l : list str) : list str := sorted_with Str.leb l.

(** [sorted(l, reverse=True)] on strings. *)
Definition sorted_reverse (l : list str) : list str :=
  sorted_with (fun a b => Str.leb b a) l.

(** [sorted(l, key=lambda x: x[0])] on (page, name) pairs. *)
Definition sorted_by_page (l : list (Z * str)) : list (Z * str) :=
  sorted_with (fun a b => Z.leb (fst a) (fst b)) l.

(** ** The index

    [data] is the dictionary filled by the first loop of [build_list_json];
    [index] is the final dictionary, whose insertion order is what
    [json.dump] writes, hence an association list. *)

Definition index := list (str * list (str * list str)).

(** The filter of the listing: [f.endswith('.webp') and
    len(f.split('_')) >= 3]. *)
Definition is_slide_webp (f : str) : bool :=
  endswith f (lit ".webp") && bool_decide (3 ≤ length (split underscore f))%nat.

(** One iteration of the first loop: an entry whose name does not parse is
    left out ([except Exception: continue]). *)
Definition add_entry (data : gmap str (gmap str (list (Z * str)))) (webp_name : str)
  : gmap str (gmap str (list (Z * str))) :=
  match parse_filename webp_name with
  | Raise _ => data
  | Ok (date, label, page_num) =>
      let data1 := match data !! date with
                   | None => <[date := ∅]> data
                   | Some _ => data
                   end in
      let labels := default ∅ (data1 !! date) in
      let labels1 := match labels !! label with
                     | None => <[label := []]> labels
                     | Some _ => labels
                     end in
      let pages := default [] (labels1 !! label) in
      <[date := <[label := pages ++ [(page_num, webp_name)]]> labels1]> data1
  end.

(** [d.keys()], in some order: the program sorts the keys of its
    dictionaries before it uses them, and the keys of a dictionary are
    distinct, so their order in the dictionary does not matter. *)
Definition keys {V} (m : gmap str V) : list str := elements (dom m).

Definition build_index (listing : list str) : index :=
  let all_webps := List.filter is_slide_webp listing in
  let data := foldl add_entry ∅ all_webps in
  (fun date =>
     let labels := default ∅ (data !! date) in
     (date,
      (fun label =>
         let pages := sorted_by_page (default [] (labels !! label)) in
         (label, snd <$> pages)) <$> sorted (keys labels)))
    <$> sorted_reverse (keys data).

(** ** The program state

    [content] is what a file holds. The image codec, the JSON serializer,
    the wall clock and the enumeration order of a directory are outside the
    program and are parameters:
    - [png_to_webp q c] is [Image.open], [convert('RGB')] and
      [save(..., 'WEBP', quality=q)] on a file holding [c]: the bytes of the
      WebP file, or [None] when decoding or encoding raises (Pillow removes
      the file it created when saving fails, so a failure writes nothing);
    - [json_dump] is [json.dump(result, f, ensure_ascii=False, indent=2)];
    - [now k] is the time of day, in seconds, at the [k]-th reading of the
      clock;
    - [enum] is the order in which the operating system lists the names of
      a directory.
    The file system holds regular files only: [images/] is a flat
    directory, as the specification has it, and [images/archive/] exists
    as soon as a file is put under it, so [ensure_dirs] has nothing to do.
    What the operating system can refuse besides is outside this model: a
    regular file at the path [images/archive] itself, on which
    [os.makedirs] raises, and errors on listing a directory, writing
    [list.json] or printing. The model lets these calls succeed, so what
    is proved of a run that returns is proved of the runs in which they
    succeed; that a run returns is proved under that assumption only. *)

Inductive message :=
  | MsgBanner
  | MsgFound (n : nat)
  | MsgNoNew
  | MsgSkipped (webp_name : str)
  | MsgConverted (basename webp_name : str)
  | MsgMoved (basename : str)
  | MsgListJson (dates : nat)
  | MsgDone.

(** What a run does to the outside, in order. *)
Inductive event :=
  | Saved (path : str)
  | Moved (src dst : str)
  | Dumped (path : str)
  | Printed (m : message).

Definition SOURCE_DIR : str := lit "images".
Definition ARCHIVE_DIR : str := lit "images/archive".
Definition LIST_JSON : str := lit "images/list.json".
Definition WEBP_QUALITY : N := 80.

Section Program.

Context {content : Type}.
Variable png_to_webp : N -> content -> option content.
Variable json_dump : index -> content.
Variable now : nat -> nat.
Variable enum : gset str -> list str.

Record state := State {
  fs : gmap str content;
  out : list event;
  clock_reads : nat
}.

Definition M (A : Type) : Type := state -> result A * state.

Definition ret {A} (a : A) : M A := fun st => (Ok a, st).

Definition bind {A B} (m : M A) (k : A -> M B) : M B :=
  fun st =>
    match m st with
    | (Ok a, st') => k a st'
    | (Raise e, st') => (Raise e, st')
    end.

Notation "x <- m ;; k" := (bind m (fun x => k))
  (at level 100, m at next level, right associativity, only parsing).
Notation "m ;;; k" := (bind m (fun _ => k))
  (at level 100, k at level 200, right associativity, only parsing).

Definition emit (e : event) : M unit :=
  fun st => (Ok tt, State (fs st) (out st ++ [e]) (clock_reads st)).

Definition print (m : message) : M unit := emit (Printed m).

(** [for x in l: body(x)]. *)
Fixpoint for_each {A} (l : list A) (body : A -> M unit) : M unit :=
  match l with
  | [] => ret tt
  | x :: l' => body x ;;; for_each l' body
  end.

(** *** File system primitives *)

(** The name of [p] inside directory [d], when [p] is a file of [d]. *)
Definition child_name (d p : str) : option str :=
  if startswith p (d ++ [slash]) then
    let n := drop (length (d ++ [slash])) p in
    if bool_decide (n ≠ [] ∧ slash ∉ n) then Some n else None
  else None.

Definition dir_names (files : gmap str content) (d : str) : gset str :=
  set_omap (child_name d) (dom files).

(** [os.listdir(d)]. *)
Definition listdir (d : str) : M (list str) :=
  fun st => (Ok (enum (dir_names (fs st) d)), st).

(** [os.path.exists(p)]. *)
Definition path_exists (p : str) : M bool :=
  fun st => (Ok (bool_decide (is_Some (fs st !! p))), st).

(** [glob._ishidden]. *)
Definition ishidden (name : str) : bool :=
  match name with
  | c :: _ => N.eqb c dot
  | [] => false
  end.

(** [glob.glob(d + '/*.png')]: the names of [d] that are not hidden and
    end in [.png], each joined to [d]. *)
Definition glob_png (d : str) : M (list str) :=
  names <- listdir d ;;
  ret (path_join d <$>
         List.filter (fun x => negb (ishidden x) && endswith x (lit ".png")) names).

(** [with Image.open(src) as img: img.convert('RGB').save(dst, 'WEBP',
    quality=WEBP_QUALITY)]. *)
Definition image_convert (src dst : str) : M unit :=
  fun st =>
    match fs st !! src with
    | Some c =>
        match png_to_webp WEBP_QUALITY c with
        | Some w =>
            (Ok tt, State (<[dst := w]> (fs st)) (out st ++ [Saved dst]) (clock_reads st))
        | None => (Raise OSError, st)
        end
    | None => (Raise OSError, st)
    end.

(** [shutil.move(src, dst)] onto a file name: a rename, which replaces a
    file already at [dst]. *)
Definition shutil_move (src dst : str) : M unit :=
  fun st =>
    match fs st !! src with
    | Some c =>
        (Ok tt, State (<[dst := c]> (delete src (fs st)))
                      (out st ++ [Moved src dst]) (clock_reads st))
    | None => (Raise OSError, st)
    end.

Definition two_digits (n : nat) : str :=
  [48 + N.of_nat ((n `div` 10) `mod` 10); 48 + N.of_nat (n `mod` 10)].

(** [datetime.now().strftime('%H%M%S')]. *)
Definition strftime_HMS (seconds : nat) : str :=
  two_digits ((seconds `div` 3600) `mod` 24)
  ++ two_digits ((seconds `div` 60) `mod` 60)
  ++ two_digits (seconds `mod` 60).

Definition datetime_now_HMS : M str :=
  fun st =>
    (Ok (strftime_HMS (now (clock_reads st))),
     State (fs st) (out st) (S (clock_reads st))).

(** [with open(path, 'w') as f: json.dump(result, f, ...)]. *)
Definition write_json (path : str) (result : index) : M unit :=
  fun st =>
    (Ok tt, State (<[path := json_dump result]> (fs st))
                  (out st ++ [Dumped path]) (clock_reads st)).

(** *** The functions of [convert.py] *)

(** [os.makedirs(ARCHIVE_DIR, exist_ok=True)], where directories are
    implicit. *)
Definition ensure_dirs : M unit := ret tt.

Definition find_slide_pngs : M (list str) :=
  all_pngs <- glob_png SOURCE_DIR ;;
  ret (List.filter
         (fun path =>
            let name := fst (splitext (basename path)) in
            let parts := split underscore name in
            bool_decide (3 ≤ length parts)%nat)
         all_pngs).

Definition convert_to_webp (png_path : str) : M str :=
  let basename := basename png_path in
  let name_no_ext := fst (splitext basename) in
  let webp_name := name_no_ext ++ lit ".webp" in
  let webp_path := path_join ARCHIVE_DIR webp_name in
  existing <- path_exists webp_path ;;
  if (existing : bool) then
    print (MsgSkipped webp_name) ;;;
    ret webp_name
  else
    image_convert png_path webp_path ;;;
    print (MsgConverted basename webp_name) ;;;
    ret webp_name.

Definition archive_original (png_path : str) : M unit :=
  let basename := basename png_path in
  let dest := path_join ARCHIVE_DIR basename in
  existing <- path_exists dest ;;
  dest <- (if (existing : bool) then
             let '(name, ext) := splitext basename in
             ts <- datetime_now_HMS ;;
             ret (path_join ARCHIVE_DIR (name ++ [underscore] ++ ts ++ ext))
           else ret dest) ;;
  shutil_move png_path dest ;;;
  print (MsgMoved basename).

Definition build_list_json : M index :=
  listing <- listdir ARCHIVE_DIR ;;
  let result := build_index listing in
  write_json LIST_JSON result ;;;
  print (MsgListJson (length result)) ;;;
  ret result.

Definition process : M unit :=
  print MsgBanner ;;;
  ensure_dirs ;;;
  slide_pngs <- find_slide_pngs ;;
  (match slide_pngs with
   | _ :: _ =>
       print (MsgFound (length slide_pngs)) ;;;
       for_each (sorted slide_pngs)
         (fun png_path =>
            convert_to_webp png_path ;;;
            archive_original png_path)
   | [] => print MsgNoNew
   end) ;;;
  build_list_json ;;;
  print MsgDone.

(** The state after the last two steps of [process], the rebuild of the
    index and the closing message. *)
Definition after_index (st : state) : state :=
  let result := build_index (enum (dir_names (fs st) ARCHIVE_DIR)) in
  State (<[LIST_JSON := json_dump result]> (fs st))
        (out st ++ [Dumped LIST_JSON; Printed (MsgListJson (length result));
                    Printed MsgDone])
        (clock_reads st).

(** A run of the script on a file system, with a fresh output. *)
Definition run (files : gmap str content) (reads : nat) : result unit * state :=
  process (State files [] reads).

End Program.

(** ** Predicates used in the statements

    The order that the specification asks of an index: dates strictly
    descending; under a date, labels strictly ascending; under a label,
    file names that parse to that date and label, by ascending page. *)

Definition pages_ascending (date label : str) (files : list str) : Prop :=
  StronglySorted
    (fun f g => ∃ n m, parse_filename f = Ok (date, label, n)
                       ∧ parse_filename g = Ok (date, label, m) ∧ (n ≤ m)%Z)
    files
  ∧ Forall (fun f => ∃ n, parse_filename f = Ok (date, label, n)) files.

Definition index_ordered (idx : index) : Prop :=
  StronglySorted (fun d1 d2 => Str.ltb d2 d1 = true) (fst <$> idx)
  ∧ Forall
      (fun entry =>
         StronglySorted (fun l1 l2 => Str.ltb l1 l2 = true) (fst <$> snd entry)
         ∧ Forall (fun group => pages_ascending (fst entry) (fst group) (snd group))
                  (snd entry))
      idx.

(** Names for the paths that [convert_to_webp] and [archive_original]
    compute from their argument. *)
Definition webp_name_of (png_path : str) : str :=
  fst (splitext (basename png_path)) ++ lit ".webp".

Definition webp_path_of (png_path : str) : str :=
  path_join ARCHIVE_DIR (webp_name_of png_path).

Definition plain_dest (png_path : str) : str :=
  path_join ARCHIVE_DIR (basename png_path).

Definition suffixed_dest (png_path ts : str) : str :=
  path_join ARCHIVE_DIR
    (fst (splitext (basename png_path)) ++ [underscore] ++ ts
     ++ snd (splitext (basename png_path))).

(** The shape of the paths that discovery returns: a visible name ending
    in [.png] under [images/], with three or more segments in its stem. *)
Definition slide_shape (q : str) : Prop :=
  ∃ n, q = SOURCE_DIR ++ slash :: n ∧ n ≠ [] ∧ (slash ∉ n)
       ∧ ishidden n = false ∧ endswith n (lit ".png") = true
       ∧ (3 ≤ length (split underscore (fst (splitext n))))%nat.

(** A path directly under [images/archive/]. *)
Definition in_archive (k : str) : Prop :=
  ∃ n, (slash ∉ n) ∧ k = ARCHIVE_DIR ++ slash :: n.

(** The events before a move of [src] end with the report of its
    conversion: the file saved and reported, or the skip reported. *)
Definition preceded (pre : list event) (src : str) : Prop :=
  (∃ pre', pre = pre' ++ [Saved (webp_path_of src);
                          Printed (MsgConverted (basename src) (webp_name_of src))])
  ∨ (∃ pre', pre = pre' ++ [Printed (MsgSkipped (webp_name_of src))]).

(** Invariant of a run: every move in the output is preceded by the report
    of the conversion of the same file, and the converted file exists. *)
Definition log_inv {content} (st : @state content) : Prop :=
  ∀ pre src dst post,
    out st = pre ++ Moved src dst :: post →
    preceded pre src ∧ is_Some (fs st !! webp_path_of src).

(** An event that changes the archive: a conversion or a move. *)
Definition is_change (e : event) : bool :=
  match e with
  | Saved _ | Moved _ _ => true
  | Dumped _ | Printed _ => false
  end.

(** Invariant of the first loop of [build_list_json]: an entry filed under
    a date and a label parses to that date, that label and its page. *)
Definition data_ok (data : gmap str (gmap str (list (Z * str)))) : Prop :=
  ∀ date labels label pages,
    data !! date = Some labels → labels !! label = Some pages →
    Forall (fun e => parse_filename (snd e) = Ok (date, label, fst e)) pages.

(** ** Predicates used in the further properties *)

#[global] Instance exn_eq_dec : EqDecision exn.
Proof. solve_decision. Defined.

#[global] Instance result_eq_dec {A} `{EqDecision A} : EqDecision (result A).
Proof. solve_decision. Defined.

(** The entry that the first loop of [build_list_json] files under [date]
    and [label] for a name of the listing, if it files one there. *)
Definition entry_of (date label f : str) : option (Z * str) :=
  match parse_filename f with
  | Ok (d, l, n) => if bool_decide (d = date ∧ l = label) then Some (n, f) else None
  | Raise _ => None
  end.

(** [data[date][label]], or the empty list when there is no such group. *)
Definition group_pages (data : gmap str (gmap str (list (Z * str))))
    (date label : str) : list (Z * str) :=
  default [] (data !! date ≫= (fun labels => labels !! label)).

(** Invariant of the first loop of [build_list_json]: a date has a label,
    and a label has an entry. *)
Definition data_full (data : gmap str (gmap str (list (Z * str)))) : Prop :=
  ∀ date labels,
    data !! date = Some labels →
    (∃ label, is_Some (labels !! label))
    ∧ ∀ label pages, labels !! label = Some pages → pages ≠ [].

(** [files] is the list of names that an index holds under [date] and
    [label]. *)
Definition listed_under (idx : index) (date label : str) (files : list str) : Prop :=
  ∃ groups, (date, groups) ∈ idx ∧ (label, files) ∈ groups.

(** The test on a name: it parses to this date, label and page. *)
Definition parses_to (date label : str) (n : Z) (f : str) : bool :=
  bool_decide (parse_filename f = Ok (date, label, n)).

(** The sources of the moves of an output, in order. *)
Definition moved_sources (evs : list event) : list str :=
  omap (fun e => match e with Moved src _ => Some src | _ => None end) evs.

(** Two indexes with the same dates and labels, in the same order, and
    under each label the same names up to their order. *)
Definition same_up_to_ties (idx1 idx2 : index) : Prop :=
  Forall2
    (fun e1 e2 =>
       fst e1 = fst e2
       ∧ Forall2 (fun g1 g2 => fst g1 = fst g2 ∧ snd g1 ≡ₚ snd g2) (snd e1) (snd e2))
    idx1 idx2.

(** ** Tactics for the examples *)

(** Proves [slide_shape] of a literal path [images/<n>]. *)
Ltac slide_shape_of n :=
  exists n; split; [reflexivity|]; split; [done|]; split; [compute_done|];
  split; [reflexivity|]; split; [vm_compute; reflexivity|vm_compute; lia].

(** Refutes [slide_shape] of a literal path [images/<n>] with fewer than
    three segments. *)
Ltac not_slide_shape_of n :=
  let m := fresh "m" in
  let Heq := fresh "Heq" in
  let Hlen := fresh "Hlen" in
  intros (m & Heq & _ & _ & _ & _ & Hlen);
  change (SOURCE_DIR ++ slash :: n = SOURCE_DIR ++ slash :: m) in Heq;
  apply app_inv_head in Heq; injection Heq as <-;
  vm_compute in Hlen; lia.

(** ** A concrete setting for the examples

    File contents are numbers. A file holding 0 does not decode; any other
    file converts to its number plus 100. The serialized index is 1000
    plus its number of dates. The clock always reads noon. *)

Definition demo_codec (quality : N) (c : nat) : option nat :=
  if Nat.eqb c 0 then None else Some (c + 100)%nat.

Definition demo_json (idx : index) : nat := (1000 + length idx)%nat.

Definition noon (k : nat) : nat := (12 * 3600)%nat.

(** * Properties *)

(** ** Strings *)

Section StrFacts.

Implicit Types (s r p : str) (c : N).

Lemma split_nonempty sep s : split sep s ≠ [].
Proof.
  destruct s as [|c r]; simpl; [done|].
  destruct (N.eqb c sep); [done|]. by destruct (split sep r).
Qed.

Lemma split_free sep s : sep ∉ s → split sep s = [s].
Proof.
  induction s as [|c r IH]; intros Hs; simpl; [done|].
  apply not_elem_of_cons in Hs as [Hc Hr].
  destruct (N.eqb_spec c sep) as [->|_]; [done|].
  by rewrite IH.
Qed.

Lemma split_app sep p r :
  sep ∉ p → split sep (p ++ sep :: r) = p :: split sep r.
Proof.
  induction p as [|c p IH]; intros Hp; simpl.
  - by rewrite N.eqb_refl.
  - apply not_elem_of_cons in Hp as [Hc Hp].
    destruct (N.eqb_spec c sep) as [->|_]; [done|].
    by rewrite IH.
Qed.

Lemma split_join sep (parts : list str) :
  parts ≠ [] → Forall (fun p => sep ∉ p) parts →
  split sep (join [sep] parts) = parts.
Proof.
  induction parts as [|p ps IH]; intros Hne Hall; [done|].
  apply Forall_cons in Hall as [Hp Hps].
  destruct ps as [|q ps]; simpl.
  - by apply split_free.
  - rewrite split_app by done. f_equal. by apply IH.
Qed.

Lemma join_cons (sep p : str) (ps : list str) :
  ps ≠ [] → join sep (p :: ps) = p ++ sep ++ join sep ps.
Proof. by destruct ps. Qed.

Lemma join_snoc (sep p : str) (ps : list str) :
  ps ≠ [] → join sep (ps ++ [p]) = join sep ps ++ sep ++ p.
Proof.
  induction ps as [|q ps IH]; intros Hne; [done|].
  destruct ps as [|q' ps]; [done|].
  change ((q :: q' :: ps) ++ [p]) with (q :: (q' :: ps) ++ [p]).
  rewrite !join_cons by done. rewrite IH by done.
  by rewrite <- !app_assoc.
Qed.

Lemma rfind_None c s : rfind c s = None ↔ c ∉ s.
Proof.
  induction s as [|x r IH]; simpl.
  - split; [intros _; apply not_elem_of_nil | done].
  - rewrite not_elem_of_cons, <- IH.
    destruct (rfind c r); [by split; [|intros [_ ?]]|].
    destruct (N.eqb_spec x c) as [->|Hxc]; [by split; [|intros [? _]]|].
    split; [by split|done].
Qed.

Lemma rfind_app c s r : c ∉ r → rfind c (s ++ c :: r) = Some (length s).
Proof.
  intros Hr. induction s as [|x s IH]; simpl.
  - apply rfind_None in Hr as ->. by rewrite N.eqb_refl.
  - by rewrite IH.
Qed.

Lemma rfind_Some c s i :
  rfind c s = Some i → s = take i s ++ c :: drop (S i) s ∧ c ∉ drop (S i) s.
Proof.
  revert i. induction s as [|x r IH]; intros i; simpl; [done|].
  destruct (rfind c r) as [j|] eqn:Hj.
  - intros [= <-]. destruct (IH j eq_refl) as [H1 H2]. simpl.
    split; [by rewrite <- H1 | done].
  - destruct (N.eqb_spec x c) as [->|_]; [|done].
    intros [= <-]. simpl. rewrite drop_0. split; [done|by apply rfind_None].
Qed.

Lemma basename_no_slash p : slash ∉ basename p.
Proof.
  unfold basename. destruct (rfind slash p) as [i|] eqn:Hi.
  - by apply rfind_Some in Hi as [_ ?].
  - by apply rfind_None.
Qed.

Lemma basename_app d n : slash ∉ n → basename (d ++ slash :: n) = n.
Proof.
  intros Hn. unfold basename. rewrite rfind_app by done.
  rewrite (cons_middle slash d n), app_assoc.
  apply drop_app_length'. rewrite length_app. simpl. lia.
Qed.

(** The extension of a file name is what follows its last dot, provided
    something other than dots precedes it. *)
Lemma splitext_app stem ext :
  slash ∉ stem → slash ∉ ext → dot ∉ ext → (∃ c, c ∈ stem ∧ c ≠ dot) →
  splitext (stem ++ dot :: ext) = (stem, dot :: ext).
Proof.
  intros Hs He Hd (c & Hc & Hcd). unfold splitext.
  assert (rfind slash (stem ++ dot :: ext) = None) as ->.
  { apply rfind_None. rewrite elem_of_app, elem_of_cons.
    intros [?|[?|?]]; done. }
  rewrite rfind_app by done.
  rewrite bool_decide_true by lia. simpl.
  rewrite Nat.sub_0_r, drop_0, take_app_length.
  rewrite drop_app_length.
  assert (existsb (fun c => negb (N.eqb c dot)) stem = true) as ->; [|done].
  apply existsb_exists. exists c. split; [by apply list_elem_of_In|].
  by destruct (N.eqb_spec c dot).
Qed.

Lemma first_item_split sep s : ∃ d, first_item (split sep s) = Ok d.
Proof.
  pose proof (split_nonempty sep s). destruct (split sep s); [done|].
  by eexists.
Qed.

Lemma last_item_split sep s :
  last_item (split sep s) = Ok (default [] (last (split sep s))).
Proof.
  pose proof (split_nonempty sep s) as Hne. unfold last_item.
  destruct (last (split sep s)) eqn:Hl; [done|].
  by apply last_None in Hl.
Qed.

Lemma slice_1_m1_middle {A} (x y : A) (l : list A) :
  slice_1_m1 (x :: l ++ [y]) = l.
Proof.
  unfold slice_1_m1. simpl. rewrite length_app. simpl.
  replace (length l + 1 - 0)%nat with (S (length l)) by lia.
  simpl. by rewrite take_app_length.
Qed.

Lemma is_decimal_is_digit c : is_decimal_char c = true → is_digit_char c = true.
Proof. unfold is_digit_char. by intros ->. Qed.

Lemma isdecimal_isdigit s : isdecimal s = true → isdigit s = true.
Proof.
  destruct s as [|c r]; [done|]. unfold isdecimal, isdigit.
  rewrite !forallb_forall. intros H x Hx. by apply is_decimal_is_digit, H.
Qed.

Lemma decimal_number_Some s :
  forallb is_decimal_char s = true → ∃ n, decimal_number s = Some n.
Proof.
  unfold decimal_number. generalize 0%Z.
  induction s as [|c r IH]; intros acc Hs; simpl; [by eexists|].
  apply andb_prop in Hs as [Hc Hr]. unfold is_decimal_char in Hc.
  destruct (decimal_value c) as [d|]; [|done]. simpl. by apply IH.
Qed.

Lemma decimal_number_None s :
  forallb is_decimal_char s = false → decimal_number s = None.
Proof.
  unfold decimal_number. generalize (Some 0%Z).
  induction s as [|c r IH]; intros acc Hs; simpl in *; [done|].
  apply andb_false_iff in Hs as [Hc|Hr]; [|by apply IH].
  unfold is_decimal_char in Hc. destruct (decimal_value c); [done|].
  assert ((n ← acc; d ← @None N; Some (10 * n + Z.of_N d)%Z) = None) as ->
    by by destruct acc.
  clear. induction r as [|c r IH]; simpl; [done|]. apply IH.
Qed.

(** [int] succeeds exactly on the non-empty strings of decimal digits. *)
Lemma int_Ok s : (∃ n, int s = Ok n) ↔ isdecimal s = true.
Proof.
  unfold int, isdecimal. destruct s as [|c r]; [by split; [intros [? ?]|]|].
  destruct (forallb is_decimal_char (c :: r)) eqn:Hd.
  - apply decimal_number_Some in Hd as [n ->]. split; [done|by eauto].
  - apply decimal_number_None in Hd as ->. by split; [intros [? ?]|].
Qed.

Lemma int_raises s : int s = Raise ValueError ∨ ∃ n, int s = Ok n.
Proof.
  unfold int. destruct s; [by left|]. destruct (decimal_number _); by eauto.
Qed.

End StrFacts.

(** ** [parse_filename] *)

(** What [parse_filename] computes, in terms of the segments of the stem:
    indexing the segments never raises, only [int] can. *)
Lemma parse_filename_unfold (webp_name : str) :
  let parts := split underscore (fst (splitext webp_name)) in
  let page := default [] (last parts) in
  ∃ date, first_item parts = Ok date ∧
    parse_filename webp_name =
      rbind (if isdigit page then int page else Ok 0%Z)
            (fun n => Ok (date, join [underscore] (slice_1_m1 parts), n)).
Proof.
  intros parts page. unfold parse_filename. fold parts.
  destruct (first_item_split underscore (fst (splitext webp_name))) as [d Hd].
  fold parts in Hd. exists d. split; [done|].
  rewrite Hd. simpl. unfold parts at 1. rewrite last_item_split. done.
Qed.

Lemma parse_filename_segments (D P ext : str) (Ls : list str) :
  Ls ≠ [] →
  underscore ∉ D → Forall (fun L => underscore ∉ L) Ls → underscore ∉ P →
  slash ∉ join [underscore] (D :: Ls ++ [P]) → dot ∉ ext → slash ∉ ext →
  parse_filename (join [underscore] (D :: Ls ++ [P]) ++ [dot] ++ ext) =
    rbind (if isdigit P then int P else Ok 0%Z)
          (fun n => Ok (D, join [underscore] Ls, n)).
Proof.
  intros HLs HD HL HP Hslash Hdot Hext.
  set (stem := join [underscore] (D :: Ls ++ [P])) in *.
  assert (split underscore stem = D :: Ls ++ [P]) as Hsplit.
  { apply split_join; [done|].
    apply Forall_cons. split; [done|].
    apply Forall_app. split; [done|]. by apply Forall_singleton. }
  assert (splitext (stem ++ [dot] ++ ext) = (stem, dot :: ext)) as Hext'.
  { apply splitext_app; try done.
    exists underscore. split; [|done].
    unfold stem. destruct Ls as [|L Ls]; [done|].
    change (join [underscore] (D :: (L :: Ls) ++ [P]))
      with (D ++ underscore :: join [underscore] ((L :: Ls) ++ [P])).
    rewrite elem_of_app, elem_of_cons. right. by left. }
  unfold parse_filename. rewrite Hext'. simpl fst. rewrite Hsplit. simpl.
  unfold last_item. rewrite last_cons, last_snoc. simpl.
  by rewrite slice_1_m1_middle.
Qed.

(** The round trip on the conforming names whose page segment [int] can
    read or [isdigit] refuses. For a file name whose stem is
    [D_L1_..._Lk_P] (k ≥ 1, no segment holds the delimiter),
    [parse_filename] returns the date [D], the label [L1_..._Lk] and the
    page: [int(P)] when [P] is made of decimal digits, 0 when [P] fails
    [isdigit]; joining date, label and [P] with the delimiter gives the
    stem back. *)
Lemma parse_filename_round_trip (D P ext : str) (Ls : list str) :
  Ls ≠ [] →
  underscore ∉ D → Forall (fun L => underscore ∉ L) Ls → underscore ∉ P →
  slash ∉ join [underscore] (D :: Ls ++ [P]) → dot ∉ ext → slash ∉ ext →
  isdigit P = false ∨ isdecimal P = true →
  ∃ n, (if isdigit P then int P = Ok n else n = 0%Z) ∧
    parse_filename (join [underscore] (D :: Ls ++ [P]) ++ [dot] ++ ext)
      = Ok (D, join [underscore] Ls, n) ∧
    join [underscore] [D; join [underscore] Ls; P]
      = join [underscore] (D :: Ls ++ [P]).
Proof.
  intros HLs HD HL HP Hslash Hdot Hext Hpage.
  assert (join [underscore] [D; join [underscore] Ls; P]
          = join [underscore] (D :: Ls ++ [P])) as Hjoin.
  { rewrite (join_cons _ D (Ls ++ [P])) by by destruct Ls.
    by rewrite join_snoc. }
  rewrite parse_filename_segments by done.
  destruct Hpage as [Hnot|Hdec].
  - exists 0%Z. by rewrite Hnot.
  - destruct (proj2 (int_Ok P) Hdec) as [n Hn].
    exists n. by rewrite (isdecimal_isdigit P Hdec), Hn.
Qed.

Lemma parse_filename_round_trip_witness :
  ∃ n, (if isdigit (lit "02") then int (lit "02") = Ok n else n = 0%Z) ∧
    parse_filename
      (join [underscore] (lit "260207" :: [lit "WTI"; lit "x"] ++ [lit "02"])
       ++ [dot] ++ lit "webp")
      = Ok (lit "260207", join [underscore] [lit "WTI"; lit "x"], n) ∧
    join [underscore] [lit "260207"; join [underscore] [lit "WTI"; lit "x"]; lit "02"]
      = join [underscore] (lit "260207" :: [lit "WTI"; lit "x"] ++ [lit "02"]).
Proof.
  apply (parse_filename_round_trip (lit "260207") (lit "02") (lit "webp")
           [lit "WTI"; lit "x"]).
  - done.
  - compute_done.
  - compute_done.
  - compute_done.
  - compute_done.
  - compute_done.
  - compute_done.
  - right. vm_compute. reflexivity.
Defined.

(** C1. The conforming name [260207_WTI_x_①.webp] (date [260207], label
    [WTI_x], page segment the circled digit one, U+2460): the page segment
    is all digits for [isdigit], so the conditional hands it to [int],
    which does not read it. [parse_filename] raises [ValueError] and
    returns neither the date nor the label, although the guard
    [page.isdigit()] is there to keep [int] from raising. *)
Lemma parse_filename_raises_on_circled_digit :
  let D := lit "260207" in
  let Ls := [lit "WTI"; lit "x"] in
  let P : str := [9312] in
  let webp_name := join [underscore] (D :: Ls ++ [P]) ++ [dot] ++ lit "webp" in
  ((underscore ∉ D) ∧ Forall (fun L => underscore ∉ L) Ls ∧ (underscore ∉ P))
  ∧ split underscore (fst (splitext webp_name)) = D :: Ls ++ [P]
  ∧ isdigit P = true
  ∧ int P = Raise ValueError
  ∧ parse_filename webp_name = Raise ValueError
  ∧ ¬ (∃ n, parse_filename webp_name = Ok (D, join [underscore] Ls, n)).
Proof.
  intros D Ls P webp_name.
  assert (parse_filename webp_name = Raise ValueError) as Hraise
    by (vm_compute; reflexivity).
  split; [split; [compute_done|split; [|compute_done]]|].
  { repeat constructor; compute_done. }
  split; [vm_compute; reflexivity|].
  split; [vm_compute; reflexivity|].
  split; [vm_compute; reflexivity|].
  split; [exact Hraise|].
  intros [n Hn]. congruence.
Qed.

(** C10. A page segment can pass [isdigit] without being a decimal
    literal: for [260206_SM_²] (superscript two, U+00B2) the guard
    [page.isdigit()] lets the segment through and [int] raises
    [ValueError], so [parse_filename] raises instead of returning page 0,
    on a name that [build_list_json] lets through its filter; the
    exception branch of its loop is reached and the entry is left out of
    the index. *)
Lemma parse_filename_raises_on_superscript_digit :
  let webp_name := lit "260206_SM_" ++ [178] ++ lit ".webp" in
  is_slide_webp webp_name = true ∧
  isdigit (default [] (last (split underscore (fst (splitext webp_name))))) = true ∧
  parse_filename webp_name = Raise ValueError ∧
  (∀ data, add_entry data webp_name = data) ∧
  build_index [webp_name] = [] ∧
  ¬ (∀ f : str, ∃ t, parse_filename f = Ok t).
Proof.
  intros webp_name.
  assert (parse_filename webp_name = Raise ValueError) as Hraise
    by (vm_compute; reflexivity).
  split; [vm_compute; reflexivity|].
  split; [vm_compute; reflexivity|].
  split; [exact Hraise|].
  split; [intros data; unfold add_entry; by rewrite Hraise|].
  split; [vm_compute; reflexivity|].
  intros Htotal. destruct (Htotal webp_name) as [t Ht]. congruence.
Qed.

(** Outside that case [parse_filename] does what it is meant to. Indexing
    the segments never raises: the first and the last segment always
    exist. [parse_filename] returns a triple exactly when the page segment
    fails [isdigit], and the page is then 0, or is made of decimal digits,
    and the page is then its value; otherwise it raises [ValueError], and
    the first loop of [build_list_json] leaves the entry out. *)
Lemma parse_filename_returns_iff (webp_name : str) :
  let page := default [] (last (split underscore (fst (splitext webp_name)))) in
  ((∃ t, parse_filename webp_name = Ok t) ↔
     isdigit page = false ∨ isdecimal page = true) ∧
  (∀ date label n, parse_filename webp_name = Ok (date, label, n) →
     if isdigit page then int page = Ok n else n = 0%Z) ∧
  ((∃ t, parse_filename webp_name = Ok t)
   ∨ (parse_filename webp_name = Raise ValueError
      ∧ ∀ data, add_entry data webp_name = data)).
Proof.
  intros page.
  destruct (parse_filename_unfold webp_name) as (date & _ & Hparse).
  fold page in Hparse. unfold add_entry. rewrite Hparse. clear Hparse.
  destruct (isdigit page) eqn:Hdigit; simpl.
  - destruct (int_raises page) as [Hr|[n Hn]].
    + rewrite Hr. simpl. split; [|split; [done|by right]].
      split; [by intros [? ?]|].
      intros [?|Hok]; [done|]. apply int_Ok in Hok as [n Hn]. congruence.
    + rewrite Hn. simpl. split; [|split; [|by eauto]].
      * split; [|by eauto]. intros _. right. apply int_Ok. by eauto.
      * by intros d l m [= _ _ <-].
  - split; [|split; [|by eauto]].
    + split; by eauto.
    + by intros d l m [= _ _ <-].
Qed.

Lemma parse_filename_returns_iff_witness :
  ∃ t, parse_filename (lit "260206_SM_cover.webp") = Ok t.
Proof.
  apply (proj1 (parse_filename_returns_iff (lit "260206_SM_cover.webp"))).
  left. vm_compute. reflexivity.
Defined.

(** ** The order on strings and [sorted] *)

Lemma ltb_irrefl (a : str) : Str.ltb a a = false.
Proof.
  induction a as [|x a IH]; simpl; [done|].
  rewrite N.ltb_irrefl, N.eqb_refl. done.
Qed.

Lemma ltb_trans (a b c : str) :
  Str.ltb a b = true → Str.ltb b c = true → Str.ltb a c = true.
Proof.
  revert b c. induction a as [|x a IH]; intros [|y b] [|z c]; simpl; try done.
  rewrite !orb_true_iff, !andb_true_iff, !N.ltb_lt, !N.eqb_eq.
  intros [Hxy|[-> Hab]] [Hyz|[-> Hbc]].
  - left. lia.
  - by left.
  - by left.
  - right. split; [done|]. by apply (IH b c).
Qed.

Lemma ltb_trichotomy (a b : str) :
  Str.ltb a b = false → Str.ltb b a = false → a = b.
Proof.
  revert b. induction a as [|x a IH]; intros [|y b]; simpl; try done.
  rewrite !orb_false_iff, !andb_false_iff, !N.ltb_ge, !N.eqb_neq.
  intros [Hxy Hab] [Hyx Hba].
  assert (x = y) as -> by lia.
  f_equal. apply IH; [by destruct Hab | by destruct Hba].
Qed.

Lemma ltb_asym (a b : str) : Str.ltb a b = true → Str.ltb b a = false.
Proof.
  intros Hab. destruct (Str.ltb b a) eqn:Hba; [|done].
  by rewrite <- (ltb_irrefl a), (ltb_trans a b a).
Qed.

Lemma leb_total (a b : str) : Str.leb a b = true ∨ Str.leb b a = true.
Proof.
  unfold Str.leb. destruct (Str.ltb b a) eqn:Hba; [|by left].
  right. by rewrite (ltb_asym b a).
Qed.

Lemma leb_trans (a b c : str) :
  Str.leb a b = true → Str.leb b c = true → Str.leb a c = true.
Proof.
  unfold Str.leb. rewrite !negb_true_iff. intros Hba Hcb.
  destruct (Str.ltb c a) eqn:Hca; [|done].
  destruct (Str.ltb a b) eqn:Hab.
  - by rewrite (ltb_trans c a b) in Hcb.
  - rewrite (ltb_trichotomy a b Hab Hba) in Hca. congruence.
Qed.

Lemma leb_neq_ltb (a b : str) : Str.leb a b = true → a ≠ b → Str.ltb a b = true.
Proof.
  unfold Str.leb. rewrite negb_true_iff. intros Hba Hne.
  destruct (Str.ltb a b) eqn:Hab; [done|].
  by destruct Hne; apply ltb_trichotomy.
Qed.

Section Sorting.

Context {A : Type} (le : A -> A -> bool).

Lemma insert_sorted_perm x l : insert_sorted le x l ≡ₚ x :: l.
Proof.
  induction l as [|y l IH]; simpl; [done|].
  destruct (le x y); [done|]. rewrite IH. apply Permutation_swap.
Qed.

Lemma sorted_with_perm l : sorted_with le l ≡ₚ l.
Proof.
  induction l as [|x l IH]; simpl; [done|].
  fold (sorted_with le l). by rewrite insert_sorted_perm, IH.
Qed.

Hypothesis le_total : ∀ a b, le a b = true ∨ le b a = true.
Hypothesis le_trans : ∀ a b c, le a b = true → le b c = true → le a c = true.

Lemma insert_sorted_sorted x l :
  StronglySorted (fun a b => le a b = true) l →
  StronglySorted (fun a b => le a b = true) (insert_sorted le x l).
Proof.
  induction l as [|y l IH]; intros Hl; simpl.
  - by repeat constructor.
  - apply StronglySorted_cons in Hl as [Hy Hl].
    destruct (le x y) eqn:Hxy.
    + apply StronglySorted_cons. split; [|by apply StronglySorted_cons].
      apply Forall_cons. split; [done|].
      eapply Forall_impl; [exact Hy|]. intros z Hz. by eapply le_trans.
    + apply StronglySorted_cons. split; [|by apply IH].
      rewrite insert_sorted_perm. apply Forall_cons. split; [|done].
      destruct (le_total x y); congruence.
Qed.

Lemma sorted_with_sorted l :
  StronglySorted (fun a b => le a b = true) (sorted_with le l).
Proof.
  induction l as [|x l IH]; simpl; [constructor|].
  by apply insert_sorted_sorted.
Qed.

End Sorting.

Lemma StronglySorted_weaken {A} (R S : relation A) (l : list A) :
  (∀ a b, R a b → S a b) → StronglySorted R l → StronglySorted S l.
Proof.
  intros HRS. induction 1 as [|x l Hl IH Hx]; constructor; [done|].
  eapply Forall_impl; [exact Hx|]. intros y. apply HRS.
Qed.

Lemma StronglySorted_strict {A} (R S : relation A) (l : list A) :
  (∀ a b, R a b → a ≠ b → S a b) →
  NoDup l → StronglySorted R l → StronglySorted S l.
Proof.
  intros HRS. induction l as [|x l IH]; intros Hnd Hl; [constructor|].
  apply NoDup_cons in Hnd as [Hx Hnd].
  apply StronglySorted_cons in Hl as [Hxl Hl].
  apply StronglySorted_cons. split; [|by apply IH].
  apply Forall_forall. intros y Hy. apply HRS.
  - by eapply Forall_forall in Hxl.
  - by intros ->.
Qed.

Lemma StronglySorted_NoDup {A} (R : relation A) (l : list A) :
  (∀ a, ¬ R a a) → StronglySorted R l → NoDup l.
Proof.
  intros Hirr. induction 1 as [|x l Hl IH Hx]; constructor; [|done].
  intros Hin. eapply Forall_forall in Hx; [|exact Hin]. by apply (Hirr x).
Qed.

(** [sorted] of distinct strings is strictly ascending, and
    [sorted(reverse=True)] strictly descending. *)
Lemma sorted_strict (l : list str) :
  NoDup l → StronglySorted (fun a b => Str.ltb a b = true) (sorted l).
Proof.
  intros Hnd.
  apply (StronglySorted_strict (fun a b => Str.leb a b = true)).
  - apply leb_neq_ltb.
  - unfold sorted. by rewrite sorted_with_perm.
  - apply sorted_with_sorted; [apply leb_total | apply leb_trans].
Qed.

Lemma sorted_reverse_strict (l : list str) :
  NoDup l → StronglySorted (fun a b => Str.ltb b a = true) (sorted_reverse l).
Proof.
  intros Hnd.
  apply (StronglySorted_strict (fun a b => Str.leb b a = true)).
  - intros a b Hba Hne. by apply leb_neq_ltb.
  - unfold sorted_reverse. by rewrite sorted_with_perm.
  - apply (sorted_with_sorted (fun a b => Str.leb b a)).
    + intros a b. destruct (leb_total a b); by eauto.
    + intros a b c Hba Hcb. by apply (leb_trans c b a).
Qed.

Lemma sorted_by_page_sorted (l : list (Z * str)) :
  StronglySorted (fun a b => (fst a ≤ fst b)%Z) (sorted_by_page l).
Proof.
  eapply StronglySorted_weaken; last first.
  - apply (sorted_with_sorted (fun a b => Z.leb (fst a) (fst b))).
    + intros a b. rewrite !Z.leb_le. lia.
    + intros a b c. rewrite !Z.leb_le. lia.
  - intros a b. by rewrite Z.leb_le.
Qed.

(** ** The index *)

Lemma add_entry_ok data webp_name : data_ok data → data_ok (add_entry data webp_name).
Proof.
  intros Hok. unfold add_entry.
  destruct (parse_filename webp_name) as [[[date label] n]|e] eqn:Hparse; [|done].
  set (data1 := match data !! date with
                | None => <[date := ∅]> data | Some _ => data end).
  assert (data_ok data1) as Hok1.
  { unfold data1. destruct (data !! date) eqn:Hd; [done|].
    intros d ls l ps Hd' Hl.
    destruct (decide (d = date)) as [->|Hne].
    - rewrite lookup_insert_eq in Hd'. by simplify_eq.
    - rewrite lookup_insert_ne in Hd' by done. by eapply Hok. }
  clearbody data1. clear Hok.
  set (labels := default ∅ (data1 !! date)).
  assert (∀ l ps, labels !! l = Some ps →
            Forall (fun e => parse_filename (snd e) = Ok (date, l, fst e)) ps) as Hlabels.
  { intros l ps Hl. unfold labels in Hl.
    destruct (data1 !! date) eqn:Hd; simpl in Hl; [by eapply Hok1|done]. }
  clearbody labels.
  set (labels1 := match labels !! label with
                  | None => <[label := []]> labels | Some _ => labels end).
  assert (∀ l ps, labels1 !! l = Some ps →
            Forall (fun e => parse_filename (snd e) = Ok (date, l, fst e)) ps) as Hlabels1.
  { intros l ps. unfold labels1. destruct (labels !! label) eqn:Hl; [by apply Hlabels|].
    destruct (decide (l = label)) as [->|Hne].
    - rewrite lookup_insert_eq. by intros [= <-].
    - rewrite lookup_insert_ne by done. apply Hlabels. }
  clearbody labels1. clear Hlabels.
  intros d ls l ps Hd Hl.
  destruct (decide (d = date)) as [->|Hne].
  - rewrite lookup_insert_eq in Hd. simplify_eq.
    destruct (decide (l = label)) as [->|Hne].
    + rewrite lookup_insert_eq in Hl. simplify_eq.
      apply Forall_app. split; [|by apply Forall_singleton].
      destruct (labels1 !! label) eqn:Hl1; simpl; [by apply Hlabels1|done].
    + rewrite lookup_insert_ne in Hl by done. by apply Hlabels1.
  - rewrite lookup_insert_ne in Hd by done. by eapply Hok1.
Qed.

Lemma foldl_add_entry_ok data (names : list str) :
  data_ok data → data_ok (foldl add_entry data names).
Proof.
  revert data. induction names as [|f names IH]; intros data Hok; [done|].
  simpl. by apply IH, add_entry_ok.
Qed.

Lemma keys_NoDup {V} (m : gmap str V) : NoDup (keys m).
Proof. apply NoDup_elements. Qed.

Lemma elem_of_keys {V} (m : gmap str V) k : k ∈ keys m → ∃ v, m !! k = Some v.
Proof. unfold keys. rewrite elem_of_elements, elem_of_dom. by intros [v ?]; eauto. Qed.

Lemma StronglySorted_fmap_Forall {A B} (R : relation A) (S : relation B)
    (P : A → Prop) (g : A → B) (l : list A) :
  (∀ a b, P a → P b → R a b → S (g a) (g b)) →
  Forall P l → StronglySorted R l → StronglySorted S (g <$> l).
Proof.
  intros HRS. induction l as [|x l IH]; intros HP Hl; [constructor|].
  apply Forall_cons in HP as [Hx HP].
  apply StronglySorted_cons in Hl as [Hxl Hl].
  rewrite fmap_cons. apply StronglySorted_cons. split; [|by apply IH].
  apply Forall_fmap, Forall_forall. intros y Hy. apply HRS; [done| |].
  - by eapply Forall_forall in HP.
  - by eapply Forall_forall in Hxl.
Qed.

Lemma fmap_fst_pair {A B} (f : A → A * B) (l : list A) :
  (∀ x, fst (f x) = x) → fst <$> (f <$> l) = l.
Proof.
  intros Hf. induction l as [|x l IH]; [done|].
  rewrite !fmap_cons, Hf. by f_equal.
Qed.

Lemma build_index_ordered (listing : list str) : index_ordered (build_index listing).
Proof.
  unfold build_index.
  set (data := foldl add_entry ∅ (List.filter is_slide_webp listing)).
  assert (data_ok data) as Hok.
  { apply foldl_add_entry_ok. intros d ls l ps Hd. by rewrite lookup_empty in Hd. }
  clearbody data. split.
  - rewrite fmap_fst_pair by done. apply sorted_reverse_strict, keys_NoDup.
  - apply Forall_fmap, Forall_forall. intros date Hdate. simpl.
    unfold sorted_reverse in Hdate. rewrite sorted_with_perm in Hdate.
    apply elem_of_keys in Hdate as [labels Hlabels]. rewrite Hlabels. simpl.
    split.
    + rewrite fmap_fst_pair by done. apply sorted_strict, keys_NoDup.
    + apply Forall_fmap, Forall_forall. intros label Hlabel. simpl.
      unfold sorted in Hlabel. rewrite sorted_with_perm in Hlabel.
      apply elem_of_keys in Hlabel as [pages Hpages]. rewrite Hpages. simpl.
      pose proof (Hok date labels label pages Hlabels Hpages) as Hparse.
      assert (Forall (fun e => parse_filename (snd e) = Ok (date, label, fst e))
                (sorted_by_page pages)) as Hparse'.
      { unfold sorted_by_page. by rewrite sorted_with_perm. }
      split.
      * eapply StronglySorted_fmap_Forall;
          [|exact Hparse'|apply sorted_by_page_sorted].
        intros a b Ha Hb Hab. by exists (fst a), (fst b).
      * apply Forall_fmap. eapply Forall_impl; [exact Hparse'|].
        intros e He. by exists (fst e).
Qed.

Example build_index_spec_example :
  build_index [lit "260207_WTI_02.webp"; lit "260206_SM_01.webp";
               lit "260206.webp"; lit "260207_WTI_01.webp";
               lit "260206_SM_01.png"]
  = [(lit "260207", [(lit "WTI", [lit "260207_WTI_01.webp"; lit "260207_WTI_02.webp"])]);
     (lit "260206", [(lit "SM", [lit "260206_SM_01.webp"])])].
Proof. vm_compute. reflexivity. Qed.

Example build_index_labels_example :
  build_index [lit "260206_WTI_10.webp"; lit "260206_SM_2.webp";
               lit "260206_WTI_9.webp"; lit "260206_SM_x.webp"]
  = [(lit "260206",
      [(lit "SM", [lit "260206_SM_x.webp"; lit "260206_SM_2.webp"]);
       (lit "WTI", [lit "260206_WTI_9.webp"; lit "260206_WTI_10.webp"])])].
Proof. vm_compute. reflexivity. Qed.

(** ** Paths *)

Lemma startswith_slash_free (n : str) : slash ∉ n → startswith n [slash] = false.
Proof.
  intros Hn. unfold startswith. apply bool_decide_eq_false. simpl.
  destruct n as [|c n]; simpl; [done|]. rewrite take_0.
  intros [= ->]. apply Hn. by left.
Qed.

Lemma path_join_SOURCE (n : str) :
  slash ∉ n → path_join SOURCE_DIR n = SOURCE_DIR ++ slash :: n.
Proof. intros Hn. unfold path_join. by rewrite startswith_slash_free. Qed.

Lemma path_join_ARCHIVE (n : str) :
  slash ∉ n → path_join ARCHIVE_DIR n = ARCHIVE_DIR ++ slash :: n.
Proof. intros Hn. unfold path_join. by rewrite startswith_slash_free. Qed.

Lemma splitext_app_eq (p : str) : fst (splitext p) ++ snd (splitext p) = p.
Proof.
  unfold splitext. destruct (rfind dot p); [|by rewrite app_nil_r].
  destruct (_ && _); simpl; [apply take_drop | by rewrite app_nil_r].
Qed.

Lemma splitext_no_slash (p : str) :
  slash ∉ p → (slash ∉ fst (splitext p)) ∧ (slash ∉ snd (splitext p)).
Proof.
  intros Hp. rewrite <- (splitext_app_eq p) in Hp.
  by apply not_elem_of_app in Hp.
Qed.

Lemma endswith_app (s suffix : str) :
  endswith s suffix = true → s = take (length s - length suffix) s ++ suffix.
Proof.
  unfold endswith. intros Hs%bool_decide_eq_true.
  set (k := (length s - length suffix)%nat) in *.
  transitivity (take k s ++ drop k s); [by rewrite take_drop | by rewrite Hs].
Qed.

(** On a visible name that ends in [.png], [splitext] removes exactly
    that extension. *)
Lemma splitext_png (n : str) :
  slash ∉ n → ishidden n = false → endswith n (lit ".png") = true →
  ∃ stem, n = stem ++ lit ".png" ∧ splitext n = (stem, lit ".png").
Proof.
  intros Hslash Hhid Hpng. apply endswith_app in Hpng.
  set (stem := take (length n - length (lit ".png")) n) in *.
  exists stem. split; [done|]. rewrite Hpng.
  rewrite Hpng in Hslash. apply not_elem_of_app in Hslash as [Hstem _].
  apply (splitext_app stem (lit "png")); [done|compute_done|compute_done|].
  destruct stem as [|c stem].
  - rewrite Hpng in Hhid. done.
  - exists c. split; [by left|]. rewrite Hpng in Hhid. simpl in Hhid.
    by apply N.eqb_neq.
Qed.

Lemma two_digits_ge (n : nat) : Forall (fun c => 48 ≤ c) (two_digits n).
Proof. unfold two_digits. repeat constructor; lia. Qed.

Lemma strftime_HMS_no_slash (t : nat) : slash ∉ strftime_HMS t.
Proof.
  unfold strftime_HMS. intros Hin.
  assert (Forall (fun c => 48 ≤ c) (strftime_HMS t)) as Hall.
  { unfold strftime_HMS. rewrite !Forall_app. auto using two_digits_ge. }
  eapply Forall_forall in Hall; [|exact Hin]. unfold slash in Hall. lia.
Qed.

Lemma strftime_HMS_length (t : nat) : length (strftime_HMS t) = 6%nat.
Proof. done. Qed.

Lemma child_name_Some (d p n : str) :
  child_name d p = Some n ↔ p = d ++ slash :: n ∧ n ≠ [] ∧ slash ∉ n.
Proof.
  unfold child_name, startswith. case_bool_decide as Hpre.
  - case_bool_decide as Hn.
    + split.
      * intros [= <-]. split; [|done].
        rewrite <- (take_drop (length (d ++ [slash])) p) at 1.
        rewrite Hpre. by rewrite <- app_assoc.
      * intros (-> & _ & _). f_equal.
        rewrite (cons_middle slash d n), app_assoc. by rewrite drop_app_length.
    + split; [done|]. intros (-> & Hne & Hs). destruct Hn.
      rewrite (cons_middle slash d n), app_assoc. by rewrite drop_app_length.
  - split; [done|]. intros (-> & _ & _). destruct Hpre.
    rewrite (cons_middle slash d n), app_assoc. by rewrite take_app_length.
Qed.

Section DirFacts.

Context {content : Type}.
Implicit Types (files : gmap str content) (d n p : str).

Lemma elem_of_dir_names files d n :
  n ∈ dir_names files d ↔
    n ≠ [] ∧ (slash ∉ n) ∧ is_Some (files !! (d ++ slash :: n)).
Proof.
  unfold dir_names. rewrite elem_of_set_omap. split.
  - intros (p & Hp & Hc). apply child_name_Some in Hc as (-> & ? & ?).
    by apply elem_of_dom in Hp.
  - intros (? & ? & Hp). exists (d ++ slash :: n). split.
    + by apply elem_of_dom.
    + by apply child_name_Some.
Qed.

(** The names listed in a directory depend only on the files under it. *)
Lemma dir_names_ext files files' d :
  (∀ n, slash ∉ n →
        is_Some (files !! (d ++ slash :: n)) ↔ is_Some (files' !! (d ++ slash :: n))) →
  dir_names files d = dir_names files' d.
Proof.
  intros Hext. apply set_eq. intros n. rewrite !elem_of_dir_names.
  split; intros (? & ? & ?); (split; [done|]); (split; [done|]); by apply Hext.
Qed.

End DirFacts.

(** ** The functions of the script *)

Section ProgramFacts.

Context {content : Type}.
Variable png_to_webp : N -> content -> option content.
Variable json_dump : index -> content.
Variable now : nat -> nat.
Variable enum : gset str -> list str.

Implicit Types (st : @state content) (p n : str).

(** *** Discovery *)

(** The test that [find_slide_pngs] applies to a name of the source
    directory. *)
Lemma find_slide_pngs_elem st n :
  (∀ X, enum X ≡ₚ elements X) →
  ∃ found,
    find_slide_pngs enum st = (Ok found, st)
    ∧ (∀ p, p ∈ found ↔
         ∃ n, p = SOURCE_DIR ++ slash :: n
              ∧ n ∈ dir_names (fs st) SOURCE_DIR
              ∧ ishidden n = false ∧ endswith n (lit ".png") = true
              ∧ (3 ≤ length (split underscore (fst (splitext n))))%nat).
Proof.
  intros Henum. eexists. split; [reflexivity|]. intros p.
  rewrite list_elem_of_In, filter_In, <- list_elem_of_In.
  rewrite list_elem_of_fmap. split.
  - intros [(n' & -> & Hn') Hseg].
    apply list_elem_of_In, filter_In in Hn' as [Hn' Hpat].
    apply list_elem_of_In in Hn'. rewrite Henum, elem_of_elements in Hn'.
    pose proof Hn' as (_ & Hslash & _)%elem_of_dir_names.
    apply andb_prop in Hpat as [Hhid Hpng]. apply negb_true_iff in Hhid.
    rewrite path_join_SOURCE in Hseg |- * by done.
    rewrite basename_app in Hseg by done. apply bool_decide_eq_true in Hseg.
    by exists n'.
  - intros (n' & -> & Hn' & Hhid & Hpng & Hseg).
    pose proof Hn' as (_ & Hslash & _)%elem_of_dir_names.
    split.
    + exists n'. split; [by rewrite path_join_SOURCE|].
      apply list_elem_of_In, filter_In. split.
      * apply list_elem_of_In. by rewrite Henum, elem_of_elements.
      * by rewrite Hhid, Hpng.
    + rewrite basename_app by done. by apply bool_decide_eq_true.
Qed.

(** C3 (as stated, refuted). Two files of the source directory whose
    stems have three segments are left out: one whose name does not end in
    [.png], and a PNG whose name starts with a dot, which the pattern
    [*.png] does not match. *)
Lemma find_slide_pngs_skips_unmatched_names :
  let files : gmap str unit :=
    {[ lit "images/260206_SM_01.jpg" := tt; lit "images/.260206_SM_01.png" := tt ]} in
  let n1 := lit "260206_SM_01.jpg" in
  let n2 := lit ".260206_SM_01.png" in
  n1 ∈ dir_names files SOURCE_DIR
  ∧ n2 ∈ dir_names files SOURCE_DIR
  ∧ (3 ≤ length (split underscore (fst (splitext n1))))%nat
  ∧ (3 ≤ length (split underscore (fst (splitext n2))))%nat
  ∧ fst (find_slide_pngs elements (State files [] 0)) = Ok [].
Proof.
  intros files n1 n2.
  split; [compute_done|]. split; [compute_done|].
  split; [vm_compute; lia|]. split; [vm_compute; lia|].
  vm_compute. reflexivity.
Qed.

(** C3 (amended). For every file of the source directory, discovery
    includes its path if and only if its name is not hidden, ends in [.png]
    (the files that the pattern [images/*.png] matches) and, with the
    extension stripped, splits into three or more segments on the
    delimiter. *)
Theorem find_slide_pngs_spec st n :
  (∀ X, enum X ≡ₚ elements X) →
  n ∈ dir_names (fs st) SOURCE_DIR →
  ∃ found,
    find_slide_pngs enum st = (Ok found, st)
    ∧ (path_join SOURCE_DIR n ∈ found ↔
         ishidden n = false ∧ endswith n (lit ".png") = true
         ∧ (3 ≤ length (split underscore (fst (splitext n))))%nat).
Proof.
  intros Henum Hn.
  destruct (find_slide_pngs_elem st n Henum) as (found & Hrun & Hfound).
  exists found. split; [done|].
  pose proof Hn as (_ & Hslash & _)%elem_of_dir_names.
  rewrite path_join_SOURCE by done.
  rewrite Hfound. split.
  - intros (n' & Heq & _ & Hhid & Hpng & Hseg).
    apply app_inv_head in Heq. by simplify_eq.
  - intros (Hhid & Hpng & Hseg). by exists n.
Qed.

(** *** Equations for the converter and the archiver *)

Lemma convert_to_webp_run st p :
  convert_to_webp png_to_webp p st =
    if bool_decide (is_Some (fs st !! webp_path_of p)) then
      (Ok (webp_name_of p),
       State (fs st) (out st ++ [Printed (MsgSkipped (webp_name_of p))]) (clock_reads st))
    else
      match fs st !! p ≫= png_to_webp WEBP_QUALITY with
      | Some w =>
          (Ok (webp_name_of p),
           State (<[webp_path_of p := w]> (fs st))
                 (out st ++ [Saved (webp_path_of p);
                             Printed (MsgConverted (basename p) (webp_name_of p))])
                 (clock_reads st))
      | None => (Raise OSError, st)
      end.
Proof.
  unfold convert_to_webp, bind, path_exists, image_convert, print, emit, ret.
  fold (webp_name_of p). fold (webp_path_of p). cbn beta iota.
  case_bool_decide; [done|].
  destruct (fs st !! p) as [c|]; simpl; [|done].
  destruct (png_to_webp WEBP_QUALITY c); simpl; [|done].
  by rewrite <- app_assoc.
Qed.

Lemma archive_original_run st p :
  archive_original now p st =
    if bool_decide (is_Some (fs st !! plain_dest p)) then
      let dest := suffixed_dest p (strftime_HMS (now (clock_reads st))) in
      match fs st !! p with
      | Some c =>
          (Ok tt,
           State (<[dest := c]> (delete p (fs st)))
                 (out st ++ [Moved p dest; Printed (MsgMoved (basename p))])
                 (S (clock_reads st)))
      | None => (Raise OSError, State (fs st) (out st) (S (clock_reads st)))
      end
    else
      match fs st !! p with
      | Some c =>
          (Ok tt,
           State (<[plain_dest p := c]> (delete p (fs st)))
                 (out st ++ [Moved p (plain_dest p); Printed (MsgMoved (basename p))])
                 (clock_reads st))
      | None => (Raise OSError, st)
      end.
Proof.
  unfold archive_original, bind, path_exists, shutil_move, datetime_now_HMS,
    print, emit, ret.
  fold (plain_dest p). unfold suffixed_dest. cbn beta iota.
  case_bool_decide.
  - destruct (splitext (basename p)) as [name ext]. cbn.
    destruct (fs st !! p) as [c|]; cbn; [|done]. by rewrite <- app_assoc.
  - cbn. destruct (fs st !! p) as [c|]; cbn; [|done]. by rewrite <- app_assoc.
Qed.

(** *** Paths in the archive *)

Lemma in_archive_webp_path p : in_archive (webp_path_of p).
Proof.
  pose proof (basename_no_slash p) as Hb.
  destruct (splitext_no_slash (basename p) Hb) as [Hname _].
  assert (slash ∉ webp_name_of p) as Hfree.
  { unfold webp_name_of. rewrite not_elem_of_app. split; [done|compute_done]. }
  exists (webp_name_of p). split; [done|]. by apply path_join_ARCHIVE.
Qed.

Lemma in_archive_plain_dest p : in_archive (plain_dest p).
Proof.
  pose proof (basename_no_slash p) as Hb.
  exists (basename p). split; [done|]. by apply path_join_ARCHIVE.
Qed.

Lemma in_archive_suffixed_dest p t : in_archive (suffixed_dest p (strftime_HMS t)).
Proof.
  pose proof (basename_no_slash p) as Hb.
  destruct (splitext_no_slash (basename p) Hb) as [Hname Hext].
  eexists. split; [|apply path_join_ARCHIVE];
    rewrite !not_elem_of_app; (split; [done|]); (split; [compute_done|]);
    (split; [apply strftime_HMS_no_slash|done]).
Qed.

Lemma in_archive_source n : slash ∉ n → ¬ in_archive (SOURCE_DIR ++ slash :: n).
Proof.
  intros Hn (m & Hm & Heq).
  change (ARCHIVE_DIR ++ slash :: m)
    with (SOURCE_DIR ++ slash :: lit "archive" ++ slash :: m) in Heq.
  apply app_inv_head in Heq.
  assert (n = lit "archive" ++ slash :: m) as -> by congruence.
  apply Hn. rewrite elem_of_app, elem_of_cons. right. by left.
Qed.

Lemma in_archive_LIST_JSON : ¬ in_archive LIST_JSON.
Proof.
  change LIST_JSON with (SOURCE_DIR ++ slash :: lit "list.json").
  apply in_archive_source. compute_done.
Qed.

(** *** The converter *)

(** C4 (amended). When the destination [images/archive/<stem>.webp]
    exists, [convert_to_webp] writes nothing, reports a skip and returns
    the destination file name; when it does not exist and the source file
    decodes and encodes, it returns the same file name after creating
    exactly one new file, at that destination, and leaves the source in
    place. *)
Theorem convert_to_webp_spec st p :
  let webp_name := fst (splitext (basename p)) ++ lit ".webp" in
  let webp_path := path_join ARCHIVE_DIR webp_name in
  (is_Some (fs st !! webp_path) →
   convert_to_webp png_to_webp p st =
     (Ok webp_name,
      State (fs st) (out st ++ [Printed (MsgSkipped webp_name)]) (clock_reads st)))
  ∧ (fs st !! webp_path = None →
     ∀ c w, fs st !! p = Some c → png_to_webp WEBP_QUALITY c = Some w →
       ∃ st', convert_to_webp png_to_webp p st = (Ok webp_name, st')
         ∧ fs st' = <[webp_path := w]> (fs st)
         ∧ dom (fs st') = {[webp_path]} ∪ dom (fs st)
         ∧ (webp_path ∉ dom (fs st))
         ∧ fs st' !! p = Some c).
Proof.
  intros webp_name webp_path. rewrite convert_to_webp_run.
  change (webp_name_of p) with webp_name. change (webp_path_of p) with webp_path.
  split.
  - intros Hex. by rewrite bool_decide_true.
  - intros Hnone c w Hc Hw.
    rewrite bool_decide_false by (rewrite Hnone; by intros [? ?]).
    rewrite Hc. simpl. rewrite Hw. eexists. split; [reflexivity|]. simpl.
    split; [done|]. split; [by rewrite dom_insert_L|].
    split; [by apply not_elem_of_dom|].
    rewrite lookup_insert_ne; [done|]. intros ->. congruence.
Qed.

(** *** The archiver *)

(** The name that [archive_original] gives to a colliding original differs
    from every path with the original base name, and determines the time
    in it. *)
Lemma suffixed_dest_fresh (p ts q : str) :
  slash ∉ ts → length ts = 6%nat → basename q = basename p → q ≠ suffixed_dest p ts.
Proof.
  intros Hts Hlen Hq ->. unfold suffixed_dest in Hq.
  pose proof (basename_no_slash p) as Hb.
  destruct (splitext_no_slash (basename p) Hb) as [Hname Hext].
  rewrite path_join_ARCHIVE in Hq
    by (rewrite !not_elem_of_app; (split; [done|]); (split; [compute_done|by split])).
  rewrite basename_app in Hq
    by (rewrite !not_elem_of_app; (split; [done|]); (split; [compute_done|by split])).
  apply (f_equal length) in Hq.
  rewrite <- (splitext_app_eq (basename p)) in Hq at 3.
  rewrite !length_app, Hlen in Hq. simpl in Hq. lia.
Qed.

Lemma suffixed_dest_inj (p ts1 ts2 : str) :
  slash ∉ ts1 → slash ∉ ts2 → suffixed_dest p ts1 = suffixed_dest p ts2 → ts1 = ts2.
Proof.
  intros H1 H2. unfold suffixed_dest.
  pose proof (basename_no_slash p) as Hb.
  destruct (splitext_no_slash (basename p) Hb) as [Hname Hext].
  rewrite !path_join_ARCHIVE;
    [|rewrite !not_elem_of_app; (split; [done|]); (split; [compute_done|by split])..].
  intros Heq. apply app_inv_head in Heq. injection Heq as Heq.
  apply app_inv_head in Heq. apply (app_inv_head [underscore]) in Heq.
  by apply app_inv_tail in Heq.
Qed.

Lemma basename_plain_dest (p : str) : basename (plain_dest p) = basename p.
Proof.
  unfold plain_dest. pose proof (basename_no_slash p).
  rewrite path_join_ARCHIVE by done. by apply basename_app.
Qed.

(** C5 (amended). Two distinct original files with the same base name,
    outside the archive, are archived one after the other; in between, the
    second may appear (a second upload under the same path, say) as long
    as the archive is left alone. The second is moved to
    [images/archive/<name>_<HHMMSS><ext>], with the time of its move. The
    two destinations differ and each holds the bytes of its original,
    provided the first went to the unsuffixed name (the archive did not
    hold that name yet) or the two moves read different times of day. *)
Theorem archive_original_pair st p1 p2 c1 c2 (st1' : state) :
  basename p1 = basename p2 → ¬ in_archive p1 → ¬ in_archive p2 →
  fs st !! p1 = Some c1 →
  let st1 := snd (archive_original now p1 st) in
  (∀ k, in_archive k → fs st1' !! k = fs st1 !! k) →
  fs st1' !! p2 = Some c2 →
  fs st !! plain_dest p1 = None
  ∨ strftime_HMS (now (clock_reads st)) ≠ strftime_HMS (now (clock_reads st1')) →
  ∃ st2 dest1,
    archive_original now p1 st = (Ok tt, st1)
    ∧ archive_original now p2 st1' = (Ok tt, st2)
    ∧ let dest2 := suffixed_dest p2 (strftime_HMS (now (clock_reads st1'))) in
      dest1 ≠ dest2
      ∧ fs st2 !! dest1 = Some c1 ∧ fs st2 !! dest2 = Some c2.
Proof.
  intros Hbase Ha1 Ha2 H1 st1 Hagree H2 Hprov.
  assert (plain_dest p1 = plain_dest p2) as Hplain
    by (unfold plain_dest; by rewrite Hbase).
  assert (∀ t q, basename q = basename p2 →
                 q ≠ suffixed_dest p2 (strftime_HMS t)) as Hfresh.
  { intros t q Hq. apply suffixed_dest_fresh;
      [apply strftime_HMS_no_slash|apply strftime_HMS_length|done]. }
  assert (∀ ts, suffixed_dest p1 ts = suffixed_dest p2 ts) as Hsuf
    by (intros ts; unfold suffixed_dest; by rewrite Hbase).
  assert (∀ k, in_archive k → k ≠ p1 ∧ k ≠ p2) as Hout
    by (intros k Hk; split; by intros ->).
  pose proof (in_archive_plain_dest p2) as Hplain_in.
  set (k := clock_reads st) in *. set (k' := clock_reads st1') in *.
  pose proof (in_archive_suffixed_dest p2 (now k)) as Hd1_in.
  pose proof (in_archive_suffixed_dest p2 (now k')) as Hd2_in.
  unfold st1 in *. clear st1. revert Hagree. rewrite Hplain in Hprov.
  rewrite !archive_original_run, Hplain, H1, H2. fold k k'.
  destruct (fs st !! plain_dest p2) as [c0|] eqn:Hfree.
  - destruct Hprov as [?|Hts]; [done|].
    rewrite bool_decide_true by done. cbn zeta. rewrite Hsuf. cbn [snd fs].
    intros Hagree.
    assert (suffixed_dest p2 (strftime_HMS (now k))
            ≠ suffixed_dest p2 (strftime_HMS (now k'))) as Hd12.
    { intros Heq. apply Hts. revert Heq.
      apply suffixed_dest_inj; apply strftime_HMS_no_slash. }
    rewrite (Hagree _ Hplain_in).
    rewrite lookup_insert_ne, lookup_delete_ne, Hfree
      by (by apply not_eq_sym, Hout || by apply not_eq_sym, Hfresh, basename_plain_dest).
    rewrite bool_decide_true by done.
    eexists _, (suffixed_dest p2 (strftime_HMS (now k))).
    split; [reflexivity|]. split; [reflexivity|]. cbn [fs]. split; [done|].
    rewrite lookup_insert_eq.
    rewrite lookup_insert_ne, lookup_delete_ne by (done || by apply not_eq_sym, Hout).
    by rewrite (Hagree _ Hd1_in), lookup_insert_eq.
  - rewrite bool_decide_false by by intros [? ?].
    cbn [snd fs]. intros Hagree.
    rewrite (Hagree _ Hplain_in), lookup_insert_eq.
    rewrite bool_decide_true by done.
    assert (plain_dest p2 ≠ suffixed_dest p2 (strftime_HMS (now k'))) as Hd12
      by apply Hfresh, basename_plain_dest.
    eexists _, (plain_dest p2).
    split; [reflexivity|]. split; [reflexivity|]. cbn [fs]. split; [done|].
    rewrite lookup_insert_eq.
    rewrite lookup_insert_ne, lookup_delete_ne by (done || by apply not_eq_sym, Hout).
    by rewrite (Hagree _ Hplain_in), lookup_insert_eq.
Qed.

(** *** One file of the batch *)

Abbreviation process_file :=
  (fun png_path => bind (convert_to_webp png_to_webp png_path)
                        (fun _ => archive_original now png_path)).

(** What processing one file does: it raises in the conversion and leaves
    the state as it is; or it skips the conversion and raises in the move,
    for want of the source; or it returns after a conversion or a skip
    followed by the move of the source into the archive. *)
Lemma process_file_cases st p r st' :
  process_file p st = (r, st') →
  (r = Raise OSError ∧ st' = st
   ∧ fs st !! webp_path_of p = None ∧ fs st !! p ≫= png_to_webp WEBP_QUALITY = None)
  ∨ (r = Raise OSError ∧ fs st' = fs st
     ∧ is_Some (fs st !! webp_path_of p) ∧ fs st !! p = None
     ∧ ∃ evs, out st' = out st ++ evs ∧ Forall (fun e => is_change e = false) evs)
  ∨ (r = Ok tt
     ∧ ∃ c files1 dest,
         fs st !! p = Some c
         ∧ (files1 = fs st ∨ ∃ w, files1 = <[webp_path_of p := w]> (fs st))
         ∧ (p ≠ webp_path_of p → is_Some (files1 !! webp_path_of p))
         ∧ in_archive dest
         ∧ fs st' = <[dest := c]> (delete p files1)
         ∧ ∃ pre, preceded (out st ++ pre) p
                  ∧ (∀ s d, Moved s d ∉ pre)
                  ∧ out st' = out st ++ pre ++ [Moved p dest; Printed (MsgMoved (basename p))]).
Proof.
  unfold bind. rewrite convert_to_webp_run.
  case_bool_decide as Hw.
  - (* skipped *)
    rewrite archive_original_run. cbn [fs out clock_reads].
    destruct (fs st !! p) as [c|] eqn:Hp.
    + intros Hrun. right. right.
      assert (r = Ok tt ∧ ∃ dest, in_archive dest
                ∧ fs st' = <[dest := c]> (delete p (fs st))
                ∧ out st' = out st ++ [Printed (MsgSkipped (webp_name_of p))]
                            ++ [Moved p dest; Printed (MsgMoved (basename p))])
        as (-> & dest & Hdest & Hfs & Hout).
      { case_bool_decide; injection Hrun as <- <-; (split; [done|]);
          eexists; (split; [|split; [reflexivity|by rewrite <- app_assoc]]);
          [apply in_archive_suffixed_dest | apply in_archive_plain_dest]. }
      split; [done|]. exists c, (fs st), dest.
      split; [done|]. split; [by left|]. split; [done|]. split; [done|].
      split; [done|]. eexists. split; [right; by eexists|]. split; [|exact Hout].
      intros s d [=]%list_elem_of_singleton.
    + intros Hrun. right. left.
      case_bool_decide; injection Hrun as <- <-; cbn [fs out];
        (split; [done|]); (split; [done|]); (split; [done|]); (split; [done|]);
        eexists; (split; [reflexivity|]); by repeat constructor.
  - assert (fs st !! webp_path_of p = None) as Hnone.
    { destruct (fs st !! webp_path_of p) eqn:Hw'; [|done]. destruct Hw. by eexists. }
    destruct (fs st !! p) as [c|] eqn:Hp; cbn [mbind option_bind].
    + destruct (png_to_webp WEBP_QUALITY c) as [w|] eqn:Hc.
      * (* converted *)
        rewrite archive_original_run. cbn [fs out clock_reads].
        intros Hrun. right. right.
        assert (p ≠ webp_path_of p → <[webp_path_of p := w]> (fs st) !! p = Some c)
          as Hp'.
        { intros Hne. by rewrite lookup_insert_ne. }
        destruct (decide (p = webp_path_of p)) as [Heq|Hne].
        { rewrite <- Heq in Hw. destruct Hw. by rewrite Hp. }
        rewrite (Hp' Hne) in Hrun.
        assert (r = Ok tt ∧ ∃ dest, in_archive dest
                  ∧ fs st' = <[dest := c]> (delete p (<[webp_path_of p := w]> (fs st)))
                  ∧ out st' = out st
                      ++ [Saved (webp_path_of p);
                          Printed (MsgConverted (basename p) (webp_name_of p))]
                      ++ [Moved p dest; Printed (MsgMoved (basename p))])
          as (-> & dest & Hdest & Hfs & Hout).
        { case_bool_decide; injection Hrun as <- <-; (split; [done|]);
            eexists; (split; [|split; [reflexivity|by rewrite <- app_assoc]]);
            [apply in_archive_suffixed_dest | apply in_archive_plain_dest]. }
        split; [done|]. exists c, (<[webp_path_of p := w]> (fs st)), dest.
        split; [done|]. split; [right; by eexists|].
        split; [by rewrite lookup_insert_eq|]. split; [done|].
        split; [done|]. eexists. split; [left; by eexists|]. split; [|exact Hout].
        intros s d [[=]|[=]%list_elem_of_singleton]%elem_of_cons.
      * intros [= <- <-]. by left.
    + intros [= <- <-]. by left.
Qed.

Lemma process_file_raises st p :
  (fs st !! webp_path_of p = None ∧ fs st !! p ≫= png_to_webp WEBP_QUALITY = None)
  ∨ (is_Some (fs st !! webp_path_of p) ∧ fs st !! p = None) →
  ∃ st', process_file p st = (Raise OSError, st') ∧ fs st' = fs st
    ∧ ∃ evs, out st' = out st ++ evs ∧ Forall (fun e => is_change e = false) evs.
Proof.
  unfold bind. rewrite convert_to_webp_run. intros [[Hw Hp]|[Hw Hp]].
  - rewrite bool_decide_false by (rewrite Hw; by intros [? ?]).
    rewrite Hp. eexists. split; [reflexivity|]. split; [done|].
    exists []. by rewrite app_nil_r.
  - rewrite bool_decide_true by done.
    rewrite archive_original_run. cbn [fs out clock_reads]. rewrite Hp.
    case_bool_decide; (eexists; split; [reflexivity|]; split; [done|]);
      eexists; (split; [reflexivity|]); by repeat constructor.
Qed.

(** *** The batch *)

Lemma for_each_app {A} (l1 l2 : list A) (body : A → M unit) st :
  for_each (l1 ++ l2) body st =
    match for_each l1 body st with
    | (Ok _, st1) => for_each l2 body st1
    | (Raise e, st1) => (Raise e, st1)
    end.
Proof.
  revert st. induction l1 as [|x l1 IH]; intros st; [done|].
  simpl. unfold bind. destruct (body x st) as [[[]|e] st1]; [apply IH|done].
Qed.

(** A batch either completes, or stops at the first file whose processing
    raises. *)
Lemma for_each_result {A} (l : list A) (body : A → M unit) st r st' :
  for_each l body st = (r, st') →
  r = Ok tt
  ∨ ∃ e pre x post st_mid,
      r = Raise e ∧ l = pre ++ x :: post
      ∧ for_each pre body st = (Ok tt, st_mid) ∧ body x st_mid = (Raise e, st').
Proof.
  revert st. induction l as [|x l IH]; intros st; simpl.
  - intros [= <- <-]. by left.
  - unfold bind. destruct (body x st) as [[[]|e] st1] eqn:Hx.
    + intros Hrun. destruct (IH st1 Hrun) as [?|(e & pre & y & post & st_mid & Hr)];
        [by left|right].
      destruct Hr as (-> & -> & Hpre & Hy).
      exists e, (x :: pre), y, post, st_mid. split; [done|]. split; [done|].
      split; [|done]. simpl. unfold bind. by rewrite Hx.
    + intros [= <- <-]. right. exists e, [], x, l, st. by repeat split.
Qed.

(** What a completed batch leaves: the processed files are gone from
    where they were, nothing else outside the archive has changed, and no
    file has left the archive. *)
Lemma for_each_Ok (l : list str) st st' :
  Forall (fun p => ¬ in_archive p) l → NoDup l →
  for_each l process_file st = (Ok tt, st') →
  (∀ k, k ∉ l → ¬ in_archive k → fs st' !! k = fs st !! k)
  ∧ (∀ p, p ∈ l → fs st' !! p = None ∧ is_Some (fs st !! p))
  ∧ (∀ k, in_archive k → is_Some (fs st !! k) → is_Some (fs st' !! k)).
Proof.
  revert st. induction l as [|p l IH]; intros st Harch Hnd; simpl.
  - intros [= <-]. split; [done|]. split; [|done]. by intros p ?%elem_of_nil.
  - apply Forall_cons in Harch as [Hp Harch]. apply NoDup_cons in Hnd as [Hpl Hnd].
    unfold bind at 1.
    destruct (process_file p st) as [[[]|e] st1] eqn:Hrun; [|done].
    intros Hrest. destruct (IH st1 Harch Hnd Hrest) as (IH1 & IH2 & IH3).
    destruct (process_file_cases st p _ st1 Hrun)
      as [(? & _)|[(? & _)|(_ & c & files1 & dest & Hc & Hf1 & _ & Hdest & Hfs & _)]];
      [done..|].
    assert (∀ k, k ≠ p → ¬ in_archive k → fs st1 !! k = fs st !! k) as Hout.
    { intros k Hk Hka. rewrite Hfs.
      rewrite lookup_insert_ne, lookup_delete_ne by (done || by intros ->).
      destruct Hf1 as [->|[w ->]]; [done|].
      rewrite lookup_insert_ne; [done|]. intros <-. apply Hka, in_archive_webp_path. }
    assert (fs st1 !! p = None) as Hgone.
    { rewrite Hfs. rewrite lookup_insert_ne by by intros ->.
      by rewrite lookup_delete_eq. }
    assert (∀ k, in_archive k → is_Some (fs st !! k) → is_Some (fs st1 !! k)) as Hin.
    { intros k Hka Hk. rewrite Hfs.
      destruct (decide (dest = k)) as [->|Hne]; [by rewrite lookup_insert_eq|].
      rewrite lookup_insert_ne, lookup_delete_ne by (done || by intros ->).
      destruct Hf1 as [->|[w ->]]; [done|].
      destruct (decide (webp_path_of p = k)) as [->|Hne'];
        [by rewrite lookup_insert_eq | by rewrite lookup_insert_ne]. }
    split; [|split].
    + intros k Hk Hka. apply not_elem_of_cons in Hk as [Hkp Hkl].
      rewrite IH1 by done. by apply Hout.
    + intros q [->|Hq]%elem_of_cons.
      * split; [|by rewrite Hc]. by rewrite IH1.
      * destruct (IH2 q Hq) as [Hq1 Hq2]. split; [done|].
        rewrite <- Hout; [done| |].
        -- by intros ->.
        -- by eapply Forall_forall in Harch.
    + intros k Hka Hk. by apply IH3, Hin.
Qed.

(** *** The whole run *)

Lemma NoDup_List_filter {A} (f : A → bool) (l : list A) :
  NoDup l → NoDup (List.filter f l).
Proof.
  induction 1 as [|x l Hx Hl IH]; simpl; [constructor|].
  destruct (f x); [|done]. constructor; [|done].
  intros [Hin _]%list_elem_of_In%filter_In. by apply Hx, list_elem_of_In.
Qed.

Lemma find_slide_pngs_NoDup st found st' :
  (∀ X, enum X ≡ₚ elements X) →
  find_slide_pngs enum st = (Ok found, st') →
  NoDup found ∧ Forall (fun p => ¬ in_archive p) found.
Proof.
  intros Henum Hrun.
  destruct (find_slide_pngs_elem st [] Henum) as (found' & Hrun' & Hfound).
  rewrite Hrun' in Hrun. injection Hrun as -> ->. split.
  - clear Hfound. unfold find_slide_pngs, bind, glob_png, listdir, ret in Hrun'.
    simpl in Hrun'. injection Hrun' as <-.
    apply NoDup_List_filter. apply NoDup_fmap_2_strong.
    + intros n1 n2 Hn1 Hn2.
      apply list_elem_of_In, filter_In in Hn1 as [Hn1%list_elem_of_In _].
      apply list_elem_of_In, filter_In in Hn2 as [Hn2%list_elem_of_In _].
      rewrite Henum, elem_of_elements in Hn1, Hn2.
      apply elem_of_dir_names in Hn1 as (_ & Hn1 & _).
      apply elem_of_dir_names in Hn2 as (_ & Hn2 & _).
      rewrite !path_join_SOURCE by done. intros Heq.
      apply app_inv_head in Heq. congruence.
    + apply NoDup_List_filter. rewrite Henum. apply NoDup_elements.
  - apply Forall_forall. intros p (n & -> & Hn & _)%Hfound.
    apply elem_of_dir_names in Hn as (_ & Hn & _). by apply in_archive_source.
Qed.

Lemma process_unfold st :
  let st0 := State (fs st) (out st ++ [Printed MsgBanner]) (clock_reads st) in
  ∃ found,
    find_slide_pngs enum st0 = (Ok found, st0)
    ∧ process png_to_webp json_dump now enum st =
        match found with
        | [] =>
            (Ok tt,
             after_index json_dump enum
               (State (fs st) (out st0 ++ [Printed MsgNoNew]) (clock_reads st)))
        | _ :: _ =>
            match for_each (sorted found) process_file
                    (State (fs st) (out st0 ++ [Printed (MsgFound (length found))])
                           (clock_reads st))
            with
            | (Ok _, st1) => (Ok tt, after_index json_dump enum st1)
            | (Raise e, st1) => (Raise e, st1)
            end
        end.
Proof.
  intros st0.
  assert (∃ found, find_slide_pngs enum st0 = (Ok found, st0)) as [found Hfound]
    by (eexists; reflexivity).
  exists found. split; [done|].
  unfold process. unfold bind at 1. unfold print at 1, emit at 1.
  unfold bind at 1. unfold ensure_dirs, ret at 1.
  unfold bind at 1. fold st0. rewrite Hfound. clear Hfound.
  unfold bind at 1.
  assert (∀ s, bind (build_list_json json_dump enum) (fun _ => print MsgDone) s
               = (Ok tt, after_index json_dump enum s)) as Hfinish.
  { intros s. unfold bind, build_list_json, listdir, write_json, print, emit, ret,
      after_index. cbn. by rewrite <- !app_assoc. }
  destruct found as [|p found'].
  - unfold print at 1, emit at 1. by rewrite Hfinish.
  - unfold bind at 1. unfold print at 1, emit at 1.
    cbn [fs out clock_reads st0].
    destruct (for_each _ _ _) as [[[]|e] st1]; [by rewrite Hfinish|done].
Qed.

(** *** The order of conversion and archival *)

Lemma app_eq_split {A} (l1 l2 pre post : list A) (x : A) :
  l1 ++ l2 = pre ++ x :: post →
  (∃ post1, l1 = pre ++ x :: post1 ∧ post = post1 ++ l2)
  ∨ (∃ pre2, pre = l1 ++ pre2 ∧ l2 = pre2 ++ x :: post).
Proof.
  intros [l [[-> Heq]|[-> Heq]]]%app_eq_app.
  - destruct l as [|y l]; simpl in Heq.
    + right. exists []. by rewrite !app_nil_r.
    + injection Heq as <- ->. left. by exists l.
  - right. by exists l.
Qed.

Lemma log_inv_extend st st' evs :
  log_inv st → out st' = out st ++ evs → (∀ s d, Moved s d ∉ evs) →
  (∀ k, in_archive k → is_Some (fs st !! k) → is_Some (fs st' !! k)) →
  log_inv st'.
Proof.
  intros Hinv Hout Hevs Hkeep pre src dst post Hsplit.
  rewrite Hout in Hsplit.
  apply app_eq_split in Hsplit as [(post1 & Hst & _)|(pre2 & _ & Hin)].
  - destruct (Hinv _ _ _ _ Hst) as [Hpre Hsome]. split; [done|].
    apply Hkeep; [apply in_archive_webp_path|done].
  - destruct (Hevs src dst). rewrite Hin, elem_of_app, elem_of_cons. right. by left.
Qed.

Lemma log_inv_process_file st p r st' :
  ¬ in_archive p → log_inv st → process_file p st = (r, st') → log_inv st'.
Proof.
  intros Hp Hinv Hrun.
  destruct (process_file_cases st p r st' Hrun)
    as [(_ & -> & _)|[(_ & Hfs & _ & _ & evs & Hout & Hevs)
       |(_ & c & files1 & dest & Hc & Hf1 & Hw & Hdest & Hfs & pre & Hpre & Hnm & Hout)]];
    [done| |].
  - apply (log_inv_extend st st' evs); [done|done| |by rewrite Hfs].
    intros s d Hin. eapply Forall_forall in Hevs; [|exact Hin]. done.
  - assert (∀ k, in_archive k → is_Some (files1 !! k) → is_Some (fs st' !! k)) as Hk1.
    { intros k Hka Hk. rewrite Hfs.
      destruct (decide (dest = k)) as [->|Hne]; [by rewrite lookup_insert_eq|].
      by rewrite lookup_insert_ne, lookup_delete_ne by (done || by intros ->). }
    assert (∀ k, in_archive k → is_Some (fs st !! k) → is_Some (fs st' !! k)) as Hkeep.
    { intros k Hka Hk. apply Hk1; [done|]. destruct Hf1 as [->|[w ->]]; [done|].
      destruct (decide (webp_path_of p = k)) as [->|Hne'];
        [by rewrite lookup_insert_eq | by rewrite lookup_insert_ne]. }
    assert (p ≠ webp_path_of p) as Hpw
      by (intros Heq; apply Hp; rewrite Heq; apply in_archive_webp_path).
    intros pre0 src dst post Hsplit. rewrite Hout, app_assoc in Hsplit.
    apply app_eq_split in Hsplit as [(post1 & Hsplit & _)|(pre2 & -> & Hin)].
    + apply app_eq_split in Hsplit as [(post2 & Hst & _)|(pre2 & _ & Hin)].
      * destruct (Hinv _ _ _ _ Hst) as [? ?]. split; [done|].
        apply Hkeep; [apply in_archive_webp_path|done].
      * destruct (Hnm src dst). rewrite Hin, elem_of_app, elem_of_cons.
        right. by left.
    + destruct pre2 as [|e1 [|e2 pre2]]; simpl in Hin.
      * injection Hin as <- <- <-. rewrite app_nil_r.
        split; [done|]. apply Hk1; [apply in_archive_webp_path|by apply Hw].
      * by injection Hin.
      * injection Hin as _ _ Hin. by destruct pre2.
Qed.

Lemma log_inv_for_each (l : list str) st r st' :
  Forall (fun p => ¬ in_archive p) l → log_inv st →
  for_each l process_file st = (r, st') → log_inv st'.
Proof.
  revert st. induction l as [|p l IH]; intros st Harch Hinv; simpl.
  - by intros [= <- <-].
  - apply Forall_cons in Harch as [Hp Harch]. unfold bind at 1.
    destruct (process_file p st) as [[[]|e] st1] eqn:Hrun.
    + apply IH; [done|]. by eapply log_inv_process_file.
    + intros [= <- <-]. by eapply log_inv_process_file.
Qed.

Lemma found_iff st found st' :
  (∀ X, enum X ≡ₚ elements X) →
  find_slide_pngs enum st = (Ok found, st') →
  ∀ q, q ∈ found ↔ is_Some (fs st !! q) ∧ slide_shape q.
Proof.
  intros Henum Hrun q.
  destruct (find_slide_pngs_elem st [] Henum) as (found' & Hrun' & Hfound).
  rewrite Hrun' in Hrun. injection Hrun as -> ->. rewrite Hfound. split.
  - intros (n & -> & (Hn1 & Hn2 & Hn3)%elem_of_dir_names & Hhid & Hpng & Hseg).
    split; [done|]. by exists n.
  - intros (Hq & n & -> & Hn1 & Hn2 & Hhid & Hpng & Hseg).
    exists n. split; [done|]. split; [by apply elem_of_dir_names|done].
Qed.

Lemma slide_shape_not_in_archive q : slide_shape q → ¬ in_archive q.
Proof. intros (n & -> & _ & Hn & _). by apply in_archive_source. Qed.

Lemma slide_shape_not_LIST_JSON q : slide_shape q → q ≠ LIST_JSON.
Proof.
  intros (n & -> & _ & _ & _ & Hpng & _).
  change LIST_JSON with (SOURCE_DIR ++ slash :: lit "list.json").
  intros Heq. apply app_inv_head in Heq.
  assert (n = lit "list.json") as -> by congruence. done.
Qed.

Lemma sorted_elem (l : list str) q : q ∈ sorted l ↔ q ∈ l.
Proof. unfold sorted. by rewrite sorted_with_perm. Qed.

Lemma sorted_NoDup (l : list str) : NoDup l → NoDup (sorted l).
Proof. unfold sorted. by rewrite sorted_with_perm. Qed.

(** The archive listing does not see [list.json]. *)
Lemma dir_names_after_index (files : gmap str content) (c : content) :
  dir_names (<[LIST_JSON := c]> files) ARCHIVE_DIR = dir_names files ARCHIVE_DIR.
Proof.
  apply dir_names_ext. intros n Hn. rewrite lookup_insert_ne; [done|].
  intros Heq. apply in_archive_LIST_JSON. rewrite Heq. by exists n.
Qed.

Lemma log_inv_after_index st : log_inv st → log_inv (after_index json_dump enum st).
Proof.
  intros Hinv. eapply (log_inv_extend st); [done|reflexivity| |].
  - intros s d Hin. repeat (apply elem_of_cons in Hin as [[=]|Hin]).
    by apply elem_of_nil in Hin.
  - intros q Hq Hsome. simpl.
    destruct (decide (LIST_JSON = q)) as [<-|Hne];
      [by rewrite lookup_insert_eq | by rewrite lookup_insert_ne].
Qed.

(** C6. In the output of every run, completed or not, each move of an
    original comes right after the report of the conversion of that same
    file (the WebP saved and reported, or the skip reported because it
    already existed), and the converted file of every moved original
    exists when the run ends: no file is archived before it is converted. *)
Theorem convert_before_archive (files : gmap str content) (k : nat) :
  (∀ X, enum X ≡ₚ elements X) →
  ∀ pre src dst post,
    out (snd (run png_to_webp json_dump now enum files k))
      = pre ++ Moved src dst :: post →
    preceded pre src
    ∧ is_Some (fs (snd (run png_to_webp json_dump now enum files k))
               !! webp_path_of src).
Proof.
  intros Henum. change (log_inv (snd (run png_to_webp json_dump now enum files k))).
  unfold run. destruct (process_unfold (State files [] k)) as (found & Hfound & ->).
  cbn [fs out clock_reads app].
  assert (∀ (m : message) (l : list event),
            (∀ s d, Moved s d ∉ l) → @log_inv content (State files l k)) as Hstart.
  { intros m l Hl pre src dst post Hout. simpl in Hout. destruct (Hl src dst).
    rewrite Hout, elem_of_app, elem_of_cons. right. by left. }
  destruct found as [|p found'].
  - simpl. apply log_inv_after_index, (Hstart MsgBanner).
    intros s d Hin. repeat (apply elem_of_cons in Hin as [[=]|Hin]).
    by apply elem_of_nil in Hin.
  - destruct (find_slide_pngs_NoDup _ _ _ Henum Hfound) as [_ Harch].
    rewrite Forall_forall in Harch.
    destruct (for_each _ _ _) as [[[]|e] st1] eqn:Hloop; simpl.
    + apply log_inv_after_index. eapply log_inv_for_each; [|  |exact Hloop].
      * apply Forall_forall. intros q Hq. apply Harch. by apply sorted_elem.
      * apply (Hstart MsgBanner). intros s d Hin.
        repeat (apply elem_of_cons in Hin as [[=]|Hin]). by apply elem_of_nil in Hin.
    + eapply log_inv_for_each; [|  |exact Hloop].
      * apply Forall_forall. intros q Hq. apply Harch. by apply sorted_elem.
      * apply (Hstart MsgBanner). intros s d Hin.
        repeat (apply elem_of_cons in Hin as [[=]|Hin]). by apply elem_of_nil in Hin.
Qed.

(** *** Failures *)

Lemma convert_to_webp_raises st p e st' :
  convert_to_webp png_to_webp p st = (Raise e, st') →
  e = OSError ∧ st' = st
  ∧ fs st !! webp_path_of p = None ∧ fs st !! p ≫= png_to_webp WEBP_QUALITY = None.
Proof.
  rewrite convert_to_webp_run. case_bool_decide as Hw; [done|].
  destruct (fs st !! p ≫= png_to_webp WEBP_QUALITY) eqn:Hp; [done|].
  intros [= <- <-]. split; [done|]. split; [done|]. split; [|done].
  destruct (fs st !! webp_path_of p) eqn:Hw'; [|done]. destruct Hw. by eexists.
Qed.

(** A batch that completes on a list of discovered files leaves the other
    discovered files and [list.json] as they were. *)
Lemma for_each_Ok_others (l : list str) st st' q :
  Forall (fun p => ¬ in_archive p) l → NoDup l →
  for_each l process_file st = (Ok tt, st') →
  q ∉ l → ¬ in_archive q → fs st' !! q = fs st !! q.
Proof.
  intros Harch Hnd Hrun Hq Hqa.
  destruct (for_each_Ok l st st' Harch Hnd Hrun) as (H1 & _). by apply H1.
Qed.

(** C7 (amended). When the conversion of a file of the batch raises, in
    the state reached after the files sorted before it were processed, the
    run ends there with that exception: the failing file and the files
    sorted after it are left in the source directory as they were, and
    [list.json] is not rewritten. *)
Theorem process_aborts_on_failure (files : gmap str content) (k : nat)
    (found pre post : list str) (p : str) (e : exn) (st_mid st_fail : state) :
  (∀ X, enum X ≡ₚ elements X) →
  find_slide_pngs enum (State files [Printed MsgBanner] k)
    = (Ok found, State files [Printed MsgBanner] k) →
  sorted found = pre ++ p :: post →
  for_each pre
    (fun png_path => bind (convert_to_webp png_to_webp png_path)
                          (fun _ => archive_original now png_path))
    (State files [Printed MsgBanner; Printed (MsgFound (length found))] k)
    = (Ok tt, st_mid) →
  convert_to_webp png_to_webp p st_mid = (Raise e, st_fail) →
  run png_to_webp json_dump now enum files k = (Raise e, st_fail)
  ∧ fs st_fail = fs st_mid ∧ out st_fail = out st_mid
  ∧ (∀ q, q ∈ p :: post → fs st_fail !! q = files !! q)
  ∧ fs st_fail !! LIST_JSON = files !! LIST_JSON.
Proof.
  intros Henum Hfound Hsorted Hpre Hconv.
  destruct (convert_to_webp_raises _ _ _ _ Hconv) as (-> & -> & _).
  destruct (find_slide_pngs_NoDup _ _ _ Henum Hfound) as [Hnd Harch].
  rewrite Forall_forall in Harch.
  assert (NoDup (pre ++ p :: post)) as Hnd'
    by (rewrite <- Hsorted; by apply sorted_NoDup).
  apply NoDup_app in Hnd' as (Hnd_pre & Hdisj & _).
  assert (∀ q, q ∈ pre ++ p :: post → q ∈ found) as Hsub
    by (intros q; rewrite <- Hsorted; apply sorted_elem).
  assert (Forall (fun q => ¬ in_archive q) pre) as Harch_pre.
  { apply Forall_forall. intros q Hq. apply Harch, Hsub, elem_of_app. by left. }
  split; [|split; [done|split; [done|split]]].
  - unfold run. destruct (process_unfold (State files [] k)) as (found' & Hfound' & ->).
    cbn [fs out clock_reads app] in *. rewrite Hfound in Hfound'.
    injection Hfound' as <-.
    destruct found as [|p0 found0]; [by destruct pre|].
    rewrite Hsorted, for_each_app, Hpre. simpl. unfold bind at 1. unfold bind at 1.
    by rewrite Hconv.
  - intros q Hq. rewrite (for_each_Ok_others pre _ st_mid q Harch_pre Hnd_pre Hpre).
    + done.
    + intros Hq'. by apply (Hdisj q).
    + apply Harch, Hsub, elem_of_app. by right.
  - rewrite (for_each_Ok_others pre _ st_mid LIST_JSON Harch_pre Hnd_pre Hpre).
    + done.
    + intros Hq. assert (LIST_JSON ∈ found) as Hin
        by (apply Hsub, elem_of_app; by left).
      apply (found_iff _ _ _ Henum Hfound) in Hin as [_ Hshape].
      by apply slide_shape_not_LIST_JSON in Hshape.
    + apply in_archive_LIST_JSON.
Qed.

(** *** The index is rebuilt *)

(** A batch completes when each of its files is there and either has its
    WebP in the archive already or decodes. *)
Lemma for_each_succeeds (l : list str) st :
  Forall (fun p => ¬ in_archive p) l → NoDup l →
  (∀ p, p ∈ l →
        is_Some (fs st !! p)
        ∧ (is_Some (fs st !! webp_path_of p)
           ∨ is_Some (fs st !! p ≫= png_to_webp WEBP_QUALITY))) →
  ∃ st', for_each l process_file st = (Ok tt, st').
Proof.
  revert st. induction l as [|p l IH]; intros st Harch Hnd Hall; simpl.
  - by eexists.
  - apply Forall_cons in Harch as [Hp Harch]. apply NoDup_cons in Hnd as [Hpl Hnd].
    unfold bind at 1.
    destruct (process_file p st) as [r st1] eqn:Hrun.
    destruct (Hall p) as [[c Hc] Hconv]; [by left|].
    destruct (process_file_cases st p r st1 Hrun)
      as [(_ & _ & Hw & Hd)|[(_ & _ & _ & Hnone & _)|(-> & _)]].
    + destruct Hconv as [[? Hw']|[? Hd']]; congruence.
    + congruence.
    + assert (for_each [p] process_file st = (Ok tt, st1)) as Hone.
      { simpl. unfold bind at 1. by rewrite Hrun. }
      destruct (for_each_Ok [p] st st1) as (Hout & _ & Hkeep);
        [by apply Forall_singleton|by apply NoDup_singleton|done|].
      apply IH; [done..|]. intros q Hq.
      assert (fs st1 !! q = fs st !! q) as Hsame.
      { apply Hout; [|by eapply Forall_forall in Harch].
        intros ->%list_elem_of_singleton. done. }
      destruct (Hall q) as [Hsome Hq']; [by right|].
      rewrite Hsame. split; [done|].
      destruct Hq' as [Hw|Hd]; [left|by right].
      by apply Hkeep; [apply in_archive_webp_path|].
Qed.

(** C8 (amended). On every run that no exception ends, whether discovery
    found slide files or not, [list.json] is rewritten, and what it then
    holds is the serialized index of the names listed in the archive
    directory, whatever it held before. A run in which discovery finds
    nothing is such a run, and changes nothing else; so is a run in which
    every discovered file has its WebP already or decodes. *)
Theorem process_rebuilds_index (files : gmap str content) (k : nat) :
  (∀ st', run png_to_webp json_dump now enum files k = (Ok tt, st') →
     fs st' !! LIST_JSON
     = Some (json_dump (build_index (enum (dir_names (fs st') ARCHIVE_DIR)))))
  ∧ (fst (find_slide_pngs enum (State files [Printed MsgBanner] k)) = Ok [] →
     ∃ st', run png_to_webp json_dump now enum files k = (Ok tt, st')
       ∧ fs st' = <[LIST_JSON :=
                     json_dump (build_index (enum (dir_names files ARCHIVE_DIR)))]> files)
  ∧ ((∀ X, enum X ≡ₚ elements X) →
     (∀ found p,
        fst (find_slide_pngs enum (State files [Printed MsgBanner] k)) = Ok found →
        p ∈ found →
        is_Some (files !! webp_path_of p)
        ∨ is_Some (files !! p ≫= png_to_webp WEBP_QUALITY)) →
     ∃ st', run png_to_webp json_dump now enum files k = (Ok tt, st')).
Proof.
  unfold run. destruct (process_unfold (State files [] k)) as (found & Hfound & ->).
  cbn [fs out clock_reads app] in *. rewrite Hfound. cbn [fst].
  split; [|split].
  - assert (∀ s, fs (after_index json_dump enum s) !! LIST_JSON
               = Some (json_dump (build_index
                   (enum (dir_names (fs (after_index json_dump enum s)) ARCHIVE_DIR)))))
      as Hafter.
    { intros s. unfold after_index. cbn [fs].
      by rewrite lookup_insert_eq, dir_names_after_index. }
    intros st'. destruct found as [|p found'].
    + intros [= <-]. apply Hafter.
    + destruct (for_each _ _ _) as [[[]|e] st1]; [|done].
      intros [= <-]. apply Hafter.
  - intros [= ->]. eexists. split; [reflexivity|]. done.
  - intros Henum Hall. destruct found as [|p0 found0]; [by eexists|].
    set (found := p0 :: found0) in *.
    destruct (find_slide_pngs_NoDup _ _ _ Henum Hfound) as [Hnd Harch].
    rewrite Forall_forall in Harch.
    destruct (for_each_succeeds (sorted found)
                (State files [Printed MsgBanner; Printed (MsgFound (length found))] k))
      as [st1 ->].
    + apply Forall_forall. intros q Hq. apply Harch. by apply sorted_elem.
    + by apply sorted_NoDup.
    + intros q Hq. apply (proj1 (sorted_elem _ _)) in Hq. cbn [fs].
      split; [|by apply (Hall found)].
      by apply (found_iff _ _ _ Henum Hfound) in Hq as [? _].
    + by eexists.
Qed.

(** *** Running twice *)

(** A run on a file system without slide files in the source directory,
    whose [list.json] is up to date, changes nothing. *)
Lemma run_nothing_to_do (files : gmap str content) (k : nat) :
  (∀ X, enum X ≡ₚ elements X) →
  (∀ q, slide_shape q → files !! q = None) →
  files !! LIST_JSON
    = Some (json_dump (build_index (enum (dir_names files ARCHIVE_DIR)))) →
  fs (snd (run png_to_webp json_dump now enum files k)) = files
  ∧ Forall (fun e => is_change e = false)
           (out (snd (run png_to_webp json_dump now enum files k))).
Proof.
  intros Henum Hnone Hjson. unfold run.
  destruct (process_unfold (State files [] k)) as (found & Hfound & ->).
  cbn [fs out clock_reads app] in *.
  destruct found as [|q found'].
  - cbn. split; [by apply insert_id|]. by repeat constructor.
  - assert (q ∈ q :: found') as Hq by by left.
    apply (found_iff _ _ _ Henum Hfound) in Hq as [[c Hc] Hshape].
    cbn [fs] in Hc. by rewrite (Hnone q Hshape) in Hc.
Qed.

(** A run on a file system whose slide files are [p :: post], in that
    order, and on which the processing of [p] raises, raises again and
    changes nothing. *)
Lemma run_fails_again (files : gmap str content) (k : nat) (p : str) (post : list str) :
  (∀ X, enum X ≡ₚ elements X) →
  (∀ q, q ∈ p :: post ↔ is_Some (files !! q) ∧ slide_shape q) →
  StronglySorted (fun a b => Str.ltb a b = true) (p :: post) →
  (files !! webp_path_of p = None ∧ files !! p ≫= png_to_webp WEBP_QUALITY = None)
  ∨ (is_Some (files !! webp_path_of p) ∧ files !! p = None) →
  fs (snd (run png_to_webp json_dump now enum files k)) = files
  ∧ Forall (fun e => is_change e = false)
           (out (snd (run png_to_webp json_dump now enum files k))).
Proof.
  intros Henum Hslides Hsorted Hfail. unfold run.
  destruct (process_unfold (State files [] k)) as (found & Hfound & ->).
  cbn [fs out clock_reads app] in *.
  destruct (find_slide_pngs_NoDup _ _ _ Henum Hfound) as [Hnd _].
  assert (sorted found = p :: post) as Hlist.
  { apply (StronglySorted_unique_strong (fun a b => Str.ltb a b = true)).
    - intros a b _ _ Hab Hba. by rewrite (ltb_asym a b Hab) in Hba.
    - by apply sorted_strict.
    - done.
    - apply NoDup_Permutation.
      + by apply sorted_NoDup.
      + apply (StronglySorted_NoDup (fun a b => Str.ltb a b = true)); [|done].
        intros a Ha. by rewrite ltb_irrefl in Ha.
      + intros q. rewrite sorted_elem, Hslides.
        apply (found_iff _ _ _ Henum Hfound). }
  destruct found as [|q found'].
  { assert (p ∈ sorted []) as Hp by (rewrite Hlist; by left).
    by apply elem_of_nil in Hp. }
  rewrite Hlist.
  set (st0 := State files [Printed MsgBanner; Printed (MsgFound (length (q :: found')))] k).
  assert (∃ st', for_each (p :: post) process_file st0 = (Raise OSError, st')
                 ∧ fs st' = files
                 ∧ ∃ evs, out st' = out st0 ++ evs
                          ∧ Forall (fun e => is_change e = false) evs)
    as (st' & -> & Hfs & evs & Hout & Hevs).
  { destruct (process_file_raises st0 p Hfail) as (st' & Hrun & Hrest).
    exists st'. split; [|done]. cbn [for_each]. unfold bind at 1. by rewrite Hrun. }
  cbn [snd]. split; [done|]. rewrite Hout. cbn [out st0].
  apply Forall_app. split; [by repeat constructor|done].
Qed.

(** C9. Running the script twice in succession: the second run leaves the
    whole file system, hence the archive directory and [list.json], as the
    first run left it, and neither converts nor moves any file. This holds
    whether the first run completed or was ended by an exception. *)
Theorem process_idempotent (files : gmap str content) (k k' : nat) :
  (∀ X, enum X ≡ₚ elements X) →
  let st1 := snd (run png_to_webp json_dump now enum files k) in
  let st2 := snd (run png_to_webp json_dump now enum (fs st1) k') in
  fs st2 = fs st1 ∧ Forall (fun e => is_change e = false) (out st2).
Proof.
  intros Henum st1 st2. unfold st2. clear st2.
  unfold run in st1.
  destruct (process_unfold (State files [] k)) as (found & Hfound & Hrun).
  cbn [fs out clock_reads app] in *.
  pose proof (found_iff _ _ _ Henum Hfound) as Hiff. cbn [fs] in Hiff.
  destruct (find_slide_pngs_NoDup _ _ _ Henum Hfound) as [Hnd Harch].
  rewrite Forall_forall in Harch.
  assert (∀ s : state,
            (∀ q, slide_shape q → fs s !! q = None) →
            st1 = after_index json_dump enum s →
            fs (snd (run png_to_webp json_dump now enum (fs st1) k')) = fs st1
            ∧ Forall (fun e => is_change e = false)
                (out (snd (run png_to_webp json_dump now enum (fs st1) k'))))
    as Hdone.
  { intros s Hs ->. apply run_nothing_to_do; [done| |].
    - intros q Hq. unfold after_index. cbn [fs].
      rewrite lookup_insert_ne by (apply not_eq_sym; by apply slide_shape_not_LIST_JSON).
      by apply Hs.
    - unfold after_index. cbn [fs].
      by rewrite lookup_insert_eq, dir_names_after_index. }
  destruct found as [|p0 found0].
  - apply (Hdone (State files [Printed MsgBanner; Printed MsgNoNew] k)).
    + intros q Hq. cbn [fs]. destruct (files !! q) eqn:Hfq; [|done].
      assert (q ∈ []) as Hin by (apply Hiff; by split).
      by apply elem_of_nil in Hin.
    + unfold st1. by rewrite Hrun.
  - set (found := p0 :: found0) in *.
    set (st0 := State files [Printed MsgBanner; Printed (MsgFound (length found))] k) in *.
    destruct (for_each (sorted found) process_file st0) as [r stL] eqn:Hloop.
    assert (Forall (fun q => ¬ in_archive q) (sorted found)) as Harch'.
    { apply Forall_forall. intros q Hq. apply Harch. by apply sorted_elem. }
    destruct (for_each_result _ _ _ _ _ Hloop)
      as [->|(e & pre & p & post & st_mid & -> & Hsplit & Hpre & Hp)].
    + (* the first run completed *)
      apply (Hdone stL); [|unfold st1; by rewrite Hrun].
      destruct (for_each_Ok _ _ _ Harch' (sorted_NoDup _ Hnd) Hloop) as (Hout & Hgone & _).
      intros q Hq. destruct (decide (q ∈ sorted found)) as [Hin|Hnin].
      * by apply Hgone.
      * rewrite Hout; [|done|by apply slide_shape_not_in_archive].
        cbn [fs st0]. destruct (files !! q) eqn:Hfq; [|done].
        destruct Hnin. apply sorted_elem, Hiff. by split.
    + (* the first run stopped at [p] *)
      assert (st1 = stL) as -> by (unfold st1; by rewrite Hrun).
      assert (NoDup (pre ++ p :: post)) as Hnd'
        by (rewrite <- Hsplit; by apply sorted_NoDup).
      apply NoDup_app in Hnd' as (Hnd_pre & Hdisj & _).
      rewrite Hsplit in Harch'. apply Forall_app in Harch' as [Harch_pre Harch_post].
      destruct (for_each_Ok _ _ _ Harch_pre Hnd_pre Hpre) as (Hout & Hgone & _).
      assert (fs stL = fs st_mid
              ∧ ((fs st_mid !! webp_path_of p = None
                  ∧ fs st_mid !! p ≫= png_to_webp WEBP_QUALITY = None)
                 ∨ (is_Some (fs st_mid !! webp_path_of p) ∧ fs st_mid !! p = None)))
        as [Hfs Hfail].
      { destruct (process_file_cases st_mid p _ stL Hp)
          as [(_ & -> & ? & ?)|[(_ & ? & ? & ? & _)|(? & _)]]; [by eauto|by eauto|done]. }
      rewrite Hfs. apply (run_fails_again _ _ p post); [done| | |done].
      * intros q. split.
        -- intros Hq.
           assert (q ∈ found) as Hin
             by (apply sorted_elem; rewrite Hsplit, elem_of_app; by right).
           apply Hiff in Hin as [Hsome Hshape]. split; [|done].
           rewrite Hout; [done| |by apply slide_shape_not_in_archive].
           intros Hq'. by apply (Hdisj q).
        -- intros [Hsome Hshape].
           assert (q ∉ pre) as Hq'.
           { intros Hq'. destruct (Hgone q Hq') as [Hnone _].
             rewrite Hnone in Hsome. by destruct Hsome. }
           rewrite Hout in Hsome by (done || by apply slide_shape_not_in_archive).
           assert (q ∈ sorted found) as Hin by (apply sorted_elem, Hiff; by split).
           rewrite Hsplit, elem_of_app in Hin. by destruct Hin.
      * pose proof (sorted_strict found Hnd) as Hs. rewrite Hsplit in Hs.
        by apply StronglySorted_app_1_r in Hs.
Qed.

End ProgramFacts.

(** * Further properties *)

(** ** More on strings *)

Section MoreStrFacts.

Implicit Types (s r p : str) (c : N).

Lemma join_split sep s : join [sep] (split sep s) = s.
Proof.
  induction s as [|c r IH]; simpl; [done|].
  destruct (N.eqb_spec c sep) as [->|Hne].
  - pose proof (split_nonempty sep r). rewrite join_cons by done.
    simpl. by rewrite IH.
  - destruct (split sep r) as [|w ws] eqn:Hs; [by apply split_nonempty in Hs|].
    destruct ws as [|w' ws]; simpl in *; by rewrite <- IH.
Qed.

Lemma split_segments_free sep s : Forall (fun w => sep ∉ w) (split sep s).
Proof.
  induction s as [|c r IH]; simpl.
  - repeat constructor. apply not_elem_of_nil.
  - destruct (N.eqb_spec c sep) as [->|Hne].
    + constructor; [apply not_elem_of_nil|done].
    + destruct (split sep r) as [|w ws]; [repeat constructor|].
      * by intros ->%list_elem_of_singleton.
      * apply Forall_cons in IH as [Hw Hws]. constructor; [|done].
        rewrite not_elem_of_cons. split; [by apply not_eq_sym|done].
Qed.

(** Appending a text without separator does not change the number of
    segments. *)
Lemma length_split_app_free sep s r :
  sep ∉ r → length (split sep (s ++ r)) = length (split sep s).
Proof.
  intros Hr. induction s as [|c s IH]; simpl.
  - by rewrite split_free.
  - destruct (N.eqb c sep); simpl; [by rewrite IH|].
    pose proof (split_nonempty sep (s ++ r)) as H1.
    pose proof (split_nonempty sep s) as H2.
    destruct (split sep (s ++ r)), (split sep s); simpl in *; done.
Qed.

(** Splitting around a separator: the segments before it, then the
    segments after it. *)
Lemma split_app_sep sep s r :
  split sep (s ++ sep :: r) = split sep s ++ split sep r.
Proof.
  induction s as [|c s IH]; simpl.
  - by rewrite N.eqb_refl.
  - destruct (N.eqb c sep); [by rewrite IH|].
    rewrite IH. pose proof (split_nonempty sep s) as Hne.
    by destruct (split sep s).
Qed.

(** A list of three or more items has a first item, a last item and a
    non-empty middle. *)
Lemma three_items {A} (l : list A) :
  (3 ≤ length l)%nat → ∃ x mid y, l = x :: mid ++ [y] ∧ mid ≠ [].
Proof.
  intros Hlen. destruct l as [|x l]; [simpl in Hlen; lia|].
  destruct (decide (l = [])) as [->|Hne]; [simpl in Hlen; lia|].
  apply exists_last in Hne as (mid & y & ->).
  exists x, mid, y. split; [done|]. intros ->. simpl in Hlen. lia.
Qed.

Lemma endswith_intro (s suffix : str) : endswith (s ++ suffix) suffix = true.
Proof.
  unfold endswith. apply bool_decide_eq_true. rewrite length_app.
  replace (length s + length suffix - length suffix)%nat with (length s) by lia.
  by rewrite drop_app_length.
Qed.

(** Two suffixes of the same length that a string ends with are equal. *)
Lemma endswith_same_length (s suf1 suf2 : str) :
  length suf1 = length suf2 →
  endswith s suf1 = true → endswith s suf2 = true → suf1 = suf2.
Proof.
  unfold endswith. intros Hlen H1%bool_decide_eq_true H2%bool_decide_eq_true.
  rewrite <- H1, <- H2. by rewrite Hlen.
Qed.

Lemma endswith_last (s suffix : str) c :
  endswith s suffix = true → last suffix = Some c → last s = Some c.
Proof.
  intros Hs%endswith_app Hc. rewrite Hs.
  apply last_Some in Hc as [l' ->]. by rewrite app_assoc, last_snoc.
Qed.

(** A name that ends in [.png] does not end in [.webp]. *)
Lemma endswith_png_not_webp (s : str) :
  endswith s (lit ".png") = true → endswith s (lit ".webp") = false.
Proof.
  intros Hpng. destruct (endswith s (lit ".webp")) eqn:Hwebp; [|done].
  pose proof (endswith_last s _ 103 Hpng eq_refl) as H1.
  pose proof (endswith_last s _ 112 Hwebp eq_refl) as H2.
  congruence.
Qed.

End MoreStrFacts.

(** ** More on [parse_filename] *)

Lemma parse_filename_three (webp_name : str) (x y : str) (mid : list str) :
  split underscore (fst (splitext webp_name)) = x :: mid ++ [y] →
  parse_filename webp_name =
    rbind (if isdigit y then int y else Ok 0%Z)
          (fun n => Ok (x, join [underscore] mid, n)).
Proof.
  intros Hsplit. unfold parse_filename. rewrite Hsplit. simpl.
  unfold last_item. rewrite last_cons, last_snoc. simpl.
  by rewrite slice_1_m1_middle.
Qed.

Lemma parse_filename_stem (webp_name date label : str) (n : Z) :
  (3 ≤ length (split underscore (fst (splitext webp_name))))%nat →
  parse_filename webp_name = Ok (date, label, n) →
  ∃ page,
    fst (splitext webp_name) = date ++ [underscore] ++ label ++ [underscore] ++ page
    ∧ (underscore ∉ date) ∧ (underscore ∉ page)
    ∧ (if isdigit page then int page = Ok n else n = 0%Z).
Proof.
  intros Hlen Hparse.
  destruct (three_items _ Hlen) as (x & mid & y & Hsplit & Hmid).
  pose proof (split_segments_free underscore (fst (splitext webp_name))) as Hfree.
  pose proof (join_split underscore (fst (splitext webp_name))) as Hjoin.
  rewrite Hsplit in Hfree, Hjoin.
  apply Forall_cons in Hfree as [Hx Hfree].
  apply Forall_app in Hfree as [_ Hy]. apply (proj1 (Forall_singleton _ _)) in Hy.
  rewrite (parse_filename_three _ _ _ _ Hsplit) in Hparse.
  exists y.
  assert (x = date ∧ join [underscore] mid = label
          ∧ (if isdigit y then int y = Ok n else n = 0%Z)) as (<- & <- & Hpage).
  { destruct (isdigit y).
    - destruct (int y) as [m|e]; simpl in Hparse; [|done]. by simplify_eq.
    - simpl in Hparse. by simplify_eq. }
  simpl in Hx, Hy. split; [|by repeat split]. rewrite <- Hjoin.
  rewrite (join_cons _ x (mid ++ [y])) by by destruct mid.
  by rewrite join_snoc.
Qed.

(** X1. What [parse_filename] returns on a name whose stem has three or
    more segments, the converse of the round trip included: it returns a
    date, a label and a page exactly when the stem is the date, the label
    and a page segment joined by the delimiter, where neither the date nor
    the page segment holds the delimiter, and the page is the value of the
    page segment when it passes [isdigit], 0 otherwise. *)
Theorem parse_filename_recovers_stem (webp_name date label : str) (n : Z) :
  (3 ≤ length (split underscore (fst (splitext webp_name))))%nat →
  parse_filename webp_name = Ok (date, label, n)
  ↔ ∃ page,
      fst (splitext webp_name) = date ++ [underscore] ++ label ++ [underscore] ++ page
      ∧ (underscore ∉ date) ∧ (underscore ∉ page)
      ∧ (if isdigit page then int page = Ok n else n = 0%Z).
Proof.
  intros Hlen. split; [by apply parse_filename_stem|].
  intros (page & Hstem & Hdate & Hpage & Hn).
  assert (split underscore (fst (splitext webp_name))
          = date :: split underscore label ++ [page]) as Hsplit.
  { rewrite Hstem. simpl. rewrite split_app by done.
    by rewrite split_app_sep, (split_free _ page). }
  rewrite (parse_filename_three _ _ _ _ Hsplit), join_split.
  destruct (isdigit page); [by rewrite Hn|by rewrite Hn].
Qed.

(** X2. A stem without delimiter has a single segment, which is both
    [parts[0]] and [parts[-1]]: [parse_filename] returns the whole stem as
    the date, the empty label, and the page read from that same stem. *)
Theorem parse_filename_single_segment (webp_name : str) :
  let stem := fst (splitext webp_name) in
  underscore ∉ stem →
  parse_filename webp_name =
    rbind (if isdigit stem then int stem else Ok 0%Z)
          (fun n => Ok (stem, [], n)).
Proof.
  intros stem Hfree. unfold parse_filename. fold stem.
  by rewrite split_free.
Qed.

(** ** The contents of the index *)

Lemma add_entry_pages data f date label :
  group_pages (add_entry data f) date label
  = group_pages data date label
    ++ match entry_of date label f with Some e => [e] | None => [] end.
Proof.
  unfold add_entry, entry_of, group_pages.
  destruct (parse_filename f) as [[[d l] n]|e]; [|by rewrite app_nil_r].
  set (data1 := match data !! d with
                | None => <[d := ∅]> data | Some _ => data end).
  assert (default ∅ (data1 !! d) = default ∅ (data !! d)) as Hd1.
  { unfold data1. destruct (data !! d) eqn:Hd; [by rewrite Hd|].
    by rewrite lookup_insert_eq. }
  assert (∀ date', date' ≠ d → data1 !! date' = data !! date') as Hd2.
  { intros date' Hne. unfold data1. destruct (data !! d); [done|].
    by rewrite lookup_insert_ne. }
  clearbody data1. rewrite Hd1.
  set (labels := default ∅ (data !! d)).
  assert (∀ label', group_pages data d label' = default [] (labels !! label')) as Hg.
  { intros label'. unfold group_pages, labels. destruct (data !! d); [done|].
    simpl. by rewrite lookup_empty. }
  unfold group_pages in Hg. clearbody labels.
  set (labels1 := match labels !! l with
                  | None => <[l := []]> labels | Some _ => labels end).
  assert (∀ label', default [] (labels1 !! label') = default [] (labels !! label'))
    as Hl1.
  { intros label'. unfold labels1. destruct (labels !! l) eqn:Hl; [done|].
    destruct (decide (l = label')) as [<-|Hne].
    - by rewrite lookup_insert_eq, Hl.
    - by rewrite lookup_insert_ne. }
  clearbody labels1.
  destruct (decide (d = date)) as [->|Hd].
  - rewrite lookup_insert_eq. simpl. rewrite Hg.
    destruct (decide (l = label)) as [->|Hl].
    + rewrite lookup_insert_eq, bool_decide_true by done. simpl.
      by rewrite Hl1.
    + rewrite lookup_insert_ne by done.
      rewrite bool_decide_false by (by intros [_ ?]).
      by rewrite app_nil_r, Hl1.
  - rewrite lookup_insert_ne by done.
    rewrite bool_decide_false by (by intros [? _]). rewrite app_nil_r.
    by rewrite Hd2 by done.
Qed.

Lemma foldl_add_entry_pages (names : list str) data date label :
  group_pages (foldl add_entry data names) date label
  = group_pages data date label ++ omap (entry_of date label) names.
Proof.
  revert data. induction names as [|f names IH]; intros data; simpl.
  - by rewrite app_nil_r.
  - rewrite IH, add_entry_pages, <- app_assoc. f_equal.
    by destruct (entry_of date label f).
Qed.

Lemma add_entry_full data f : data_full data → data_full (add_entry data f).
Proof.
  intros Hfull. unfold add_entry.
  destruct (parse_filename f) as [[[d l] n]|e]; [|done].
  set (data1 := match data !! d with
                | None => <[d := ∅]> data | Some _ => data end).
  assert (∀ date', date' ≠ d → data1 !! date' = data !! date') as Hd2.
  { intros date' Hne. unfold data1. destruct (data !! d); [done|].
    by rewrite lookup_insert_ne. }
  set (labels := default ∅ (data1 !! d)).
  assert (∀ label pages, labels !! label = Some pages → pages ≠ []) as Hlabels.
  { intros label pages. unfold labels, data1.
    destruct (data !! d) as [ls|] eqn:Hls.
    - rewrite Hls. simpl. by apply (Hfull d ls Hls).
    - rewrite lookup_insert_eq. simpl. by rewrite lookup_empty. }
  clearbody labels data1.
  set (labels1 := match labels !! l with
                  | None => <[l := []]> labels | Some _ => labels end).
  assert (∀ label pages, label ≠ l → labels1 !! label = Some pages → pages ≠ [])
    as Hlabels1.
  { intros label pages Hne. unfold labels1. destruct (labels !! l); [by apply Hlabels|].
    rewrite lookup_insert_ne by done. by apply Hlabels. }
  clearbody labels1.
  intros date ls Hdate.
  destruct (decide (d = date)) as [->|Hd].
  - rewrite lookup_insert_eq in Hdate. injection Hdate as <-. split.
    + exists l. by rewrite lookup_insert_eq.
    + intros label pages Hlabel.
      destruct (decide (l = label)) as [->|Hl].
      * rewrite lookup_insert_eq in Hlabel. injection Hlabel as <-.
        by intros [_ ?]%app_eq_nil.
      * rewrite lookup_insert_ne in Hlabel by done. by eapply Hlabels1.
  - rewrite lookup_insert_ne in Hdate by done.
    rewrite Hd2 in Hdate by done. by apply (Hfull date ls).
Qed.

Lemma foldl_add_entry_full (names : list str) data :
  data_full data → data_full (foldl add_entry data names).
Proof.
  revert data. induction names as [|f names IH]; intros data Hfull; [done|].
  simpl. by apply IH, add_entry_full.
Qed.

(** [sorted] is stable: the elements that a test selects, when any two of
    them compare as equal, keep their order. *)
Section Stability.

Context {A : Type} (le : A → A → bool) (P : A → bool).
Hypothesis P_tied : ∀ a b, P a = true → P b = true → le a b = true.

Lemma insert_sorted_filter x l :
  List.filter P (insert_sorted le x l) = List.filter P (x :: l).
Proof.
  induction l as [|y l IH]; [done|].
  simpl. destruct (le x y) eqn:Hle; [done|].
  simpl. simpl in IH. rewrite IH.
  destruct (P x) eqn:Hx, (P y) eqn:Hy; try done.
  by rewrite P_tied in Hle.
Qed.

Lemma sorted_with_filter l : List.filter P (sorted_with le l) = List.filter P l.
Proof.
  induction l as [|x l IH]; [done|].
  simpl. fold (sorted_with le l). rewrite insert_sorted_filter. simpl.
  by rewrite IH.
Qed.

End Stability.

Lemma List_filter_perm {A} (f : A → bool) (l1 l2 : list A) :
  l1 ≡ₚ l2 → List.filter f l1 ≡ₚ List.filter f l2.
Proof.
  induction 1 as [|x l1 l2 _ IH|x y l|l1 l2 l3 _ IH1 _ IH2]; simpl.
  - done.
  - destruct (f x); by rewrite IH.
  - destruct (f x), (f y); try done. apply Permutation_swap.
  - by rewrite IH1.
Qed.

Lemma elem_of_List_filter {A} (f : A → bool) (l : list A) x :
  x ∈ List.filter f l ↔ x ∈ l ∧ f x = true.
Proof. by rewrite !list_elem_of_In, filter_In. Qed.

Lemma elem_of_keys_iff {V} (m : gmap str V) k : k ∈ keys m ↔ is_Some (m !! k).
Proof. unfold keys. by rewrite elem_of_elements, elem_of_dom. Qed.

Lemma sorted_ext (l1 l2 : list str) :
  NoDup l1 → NoDup l2 → (∀ x, x ∈ l1 ↔ x ∈ l2) → sorted l1 = sorted l2.
Proof.
  intros H1 H2 Hiff.
  apply (StronglySorted_unique_strong (fun a b => Str.ltb a b = true)).
  - intros a b _ _ Hab Hba. by rewrite (ltb_asym a b Hab) in Hba.
  - by apply sorted_strict.
  - by apply sorted_strict.
  - unfold sorted. rewrite !sorted_with_perm. by apply NoDup_Permutation.
Qed.

Lemma sorted_reverse_ext (l1 l2 : list str) :
  NoDup l1 → NoDup l2 → (∀ x, x ∈ l1 ↔ x ∈ l2) →
  sorted_reverse l1 = sorted_reverse l2.
Proof.
  intros H1 H2 Hiff.
  apply (StronglySorted_unique_strong (fun a b => Str.ltb b a = true)).
  - intros a b _ _ Hab Hba. by rewrite (ltb_asym b a Hab) in Hba.
  - by apply sorted_reverse_strict.
  - by apply sorted_reverse_strict.
  - unfold sorted_reverse. rewrite !sorted_with_perm. by apply NoDup_Permutation.
Qed.

(** *** The groups of the index, from the listing *)

Lemma entry_of_Some date label f e :
  entry_of date label f = Some e ↔
    snd e = f ∧ parse_filename f = Ok (date, label, fst e).
Proof.
  unfold entry_of. destruct (parse_filename f) as [[[d l] n]|err].
  - case_bool_decide as Heq.
    + destruct Heq as [-> ->]. split.
      * by intros [= <-].
      * intros [<- [= ->]]. by destruct e.
    + split; [done|]. intros [_ [= -> -> _]]. by destruct Heq.
  - split; [done|]. by intros [_ ?].
Qed.

Lemma entries_parse date label (names : list str) :
  Forall (fun e => parse_filename (snd e) = Ok (date, label, fst e))
         (omap (entry_of date label) names).
Proof.
  apply Forall_forall. intros e (f & _ & He)%list_elem_of_omap.
  apply entry_of_Some in He as [<- ?]. done.
Qed.

(** The entries filed under a date and a label are the names of the
    filtered listing that parse to them, in the order of the listing. *)
Lemma build_index_pages (listing : list str) date label :
  group_pages (foldl add_entry ∅ (List.filter is_slide_webp listing)) date label
  = omap (entry_of date label) (List.filter is_slide_webp listing).
Proof.
  rewrite foldl_add_entry_pages. unfold group_pages at 1.
  by rewrite lookup_empty.
Qed.

Lemma build_index_full (listing : list str) :
  data_full (foldl add_entry ∅ (List.filter is_slide_webp listing)).
Proof.
  apply foldl_add_entry_full. intros date labels Hd. by rewrite lookup_empty in Hd.
Qed.

Lemma group_pages_lookup data date label :
  default [] (default ∅ (data !! date) !! label) = group_pages data date label.
Proof.
  unfold group_pages. destruct (data !! date); simpl; [done|].
  by rewrite lookup_empty.
Qed.

Lemma group_pages_nonempty data date label :
  data_full data →
  group_pages data date label ≠ [] ↔
    ∃ labels, data !! date = Some labels ∧ is_Some (labels !! label).
Proof.
  intros Hfull. unfold group_pages. split.
  - intros Hne. destruct (data !! date) as [labels|]; simpl in Hne; [|done].
    exists labels. split; [done|]. by destruct (labels !! label).
  - intros (labels & Hd & [pages Hpages]). rewrite Hd. simpl.
    rewrite Hpages. simpl. by apply (proj2 (Hfull date labels Hd) label).
Qed.

(** The list under a date and a label of the index: the entries of the
    group, sorted by page, when there is one. *)
Lemma listed_under_build_index (listing : list str) date label files :
  let pages := omap (entry_of date label) (List.filter is_slide_webp listing) in
  listed_under (build_index listing) date label files ↔
    pages ≠ [] ∧ files = snd <$> sorted_by_page pages.
Proof.
  intros pages. unfold pages. rewrite <- build_index_pages.
  pose proof (build_index_full listing) as Hfull.
  unfold listed_under, build_index.
  set (data := foldl add_entry ∅ (List.filter is_slide_webp listing)) in *.
  clearbody data. rewrite (group_pages_nonempty _ _ _ Hfull). split.
  - intros (groups & (d & [= <- ->] & Hd)%list_elem_of_fmap & Hgroup).
    apply list_elem_of_fmap in Hgroup as (l & [= <- ->] & Hl).
    unfold sorted_reverse in Hd. rewrite sorted_with_perm in Hd.
    apply elem_of_keys_iff in Hd as [labels Hlabels].
    rewrite Hlabels in Hl |- *. simpl in Hl |- *.
    unfold sorted in Hl. rewrite sorted_with_perm in Hl.
    apply elem_of_keys_iff in Hl. split; [by exists labels|].
    unfold group_pages. by rewrite Hlabels.
  - intros [(labels & Hlabels & Hlabel) ->].
    eexists. split.
    + apply list_elem_of_fmap. exists date. split; [reflexivity|].
      unfold sorted_reverse. rewrite sorted_with_perm.
      apply elem_of_keys_iff. by rewrite Hlabels.
    + rewrite Hlabels. simpl. apply list_elem_of_fmap. exists label. split.
      * unfold group_pages. by rewrite Hlabels.
      * unfold sorted. rewrite sorted_with_perm. by apply elem_of_keys_iff.
Qed.

Lemma fmap_ext_in {A B} (f g : A → B) (l : list A) :
  (∀ x, x ∈ l → f x = g x) → f <$> l = g <$> l.
Proof.
  induction l as [|x l IH]; intros Hfg; [done|].
  rewrite !fmap_cons. f_equal; [apply Hfg; by left|].
  apply IH. intros y Hy. apply Hfg. by right.
Qed.

Lemma filter_entries date label n (L : list (Z * str)) :
  Forall (fun e => parse_filename (snd e) = Ok (date, label, fst e)) L →
  List.filter (parses_to date label n) (snd <$> L)
  = snd <$> List.filter (fun e => Z.eqb (fst e) n) L.
Proof.
  induction 1 as [|e L He _ IH]; [done|].
  rewrite fmap_cons. simpl. unfold parses_to at 1. rewrite He.
  destruct (Z.eqb_spec (fst e) n) as [Heq|Hne].
  - rewrite bool_decide_true by congruence. rewrite fmap_cons. by f_equal.
  - rewrite bool_decide_false by congruence. done.
Qed.

Lemma filter_omap_entries date label n (names : list str) :
  snd <$> List.filter (fun e => Z.eqb (fst e) n) (omap (entry_of date label) names)
  = List.filter (parses_to date label n) names.
Proof.
  induction names as [|f names IH]; [done|]. simpl.
  destruct (entry_of date label f) as [e|] eqn:He.
  - apply entry_of_Some in He as [Hsnd Hparse]. simpl.
    unfold parses_to at 1. rewrite Hparse.
    destruct (Z.eqb_spec (fst e) n) as [Heq|Hne].
    + rewrite bool_decide_true by congruence. rewrite fmap_cons, Hsnd. by f_equal.
    + rewrite bool_decide_false by congruence. done.
  - unfold parses_to at 1. rewrite bool_decide_false; [done|].
    intros Hparse.
    assert (entry_of date label f = Some (n, f)) as He'
      by by apply entry_of_Some.
    congruence.
Qed.

Lemma snd_entries date label (names : list str) :
  snd <$> omap (entry_of date label) names
  = List.filter (fun f => bool_decide (is_Some (entry_of date label f))) names.
Proof.
  induction names as [|f names IH]; [done|]. simpl.
  destruct (entry_of date label f) as [e|] eqn:He.
  - rewrite bool_decide_true by done. rewrite fmap_cons.
    apply entry_of_Some in He as [-> _]. by f_equal.
  - rewrite bool_decide_false by by intros [? ?]. done.
Qed.

(** A name listed under a date and a label comes from the listing, passes
    the filter and parses to that date and label. *)
Lemma listed_elem (listing : list str) date label files f :
  listed_under (build_index listing) date label files → f ∈ files →
  f ∈ listing ∧ is_slide_webp f = true
  ∧ ∃ n, parse_filename f = Ok (date, label, n).
Proof.
  intros [_ ->]%listed_under_build_index Hf.
  apply list_elem_of_fmap in Hf as (e & -> & He).
  unfold sorted_by_page in He. rewrite sorted_with_perm in He.
  apply list_elem_of_omap in He as (x & Hx & He).
  apply entry_of_Some in He as [-> Hparse].
  apply elem_of_List_filter in Hx as [Hx Hslide].
  split; [done|]. split; [done|]. by exists (fst e).
Qed.

(** A name of the listing that passes the filter and parses is listed
    under its date and label. *)
Lemma listed_intro (listing : list str) date label (n : Z) f :
  f ∈ listing → is_slide_webp f = true → parse_filename f = Ok (date, label, n) →
  ∃ files, listed_under (build_index listing) date label files ∧ f ∈ files.
Proof.
  intros Hf Hslide Hparse.
  assert ((n, f) ∈ omap (entry_of date label) (List.filter is_slide_webp listing))
    as Hin.
  { apply list_elem_of_omap. exists f. split.
    - by apply elem_of_List_filter.
    - by apply entry_of_Some. }
  eexists. split.
  - apply listed_under_build_index. split; [|reflexivity].
    intros Hnil. rewrite Hnil in Hin. by apply elem_of_nil in Hin.
  - apply list_elem_of_fmap. exists (n, f). split; [done|].
    unfold sorted_by_page. by rewrite sorted_with_perm.
Qed.

(** X3. The list that the index holds under a date and a label keeps, for
    every page number, the names of the filtered listing that parse to that
    date, label and page, as many times and in the same order as the
    listing has them: sorting by page is stable and loses nothing. *)
Theorem build_index_group_order (listing : list str) date label files (n : Z) :
  listed_under (build_index listing) date label files →
  List.filter (parses_to date label n) files
  = List.filter (parses_to date label n) (List.filter is_slide_webp listing).
Proof.
  intros [_ ->]%listed_under_build_index.
  rewrite filter_entries.
  - unfold sorted_by_page. rewrite sorted_with_filter.
    + apply filter_omap_entries.
    + intros a b Ha%Z.eqb_eq Hb%Z.eqb_eq. apply Z.leb_le. lia.
  - unfold sorted_by_page. rewrite sorted_with_perm. apply entries_parse.
Qed.

(** X4. A name is listed in the index under a date and a label exactly
    when it is a name of the listing that ends in [.webp], has three or
    more segments and parses to that date and label. *)
Theorem build_index_lists_exactly (listing : list str) date label f :
  (∃ files, listed_under (build_index listing) date label files ∧ f ∈ files)
  ↔ f ∈ listing ∧ is_slide_webp f = true
    ∧ ∃ n, parse_filename f = Ok (date, label, n).
Proof.
  split.
  - intros (files & Hfiles & Hf). by eapply listed_elem.
  - intros (Hf & Hslide & n & Hparse). by eapply listed_intro.
Qed.

(** X5. The index has no empty group: every date has a label, every
    label has a file; and a listing without repetition gives lists without
    repetition. *)
Theorem build_index_no_empty_group (listing : list str) date groups :
  (date, groups) ∈ build_index listing →
  groups ≠ []
  ∧ ∀ label files, (label, files) ∈ groups →
      files ≠ [] ∧ (NoDup listing → NoDup files).
Proof.
  intros Hdate. split.
  - pose proof (build_index_full listing) as Hfull.
    unfold build_index in Hdate.
    set (data := foldl add_entry ∅ (List.filter is_slide_webp listing)) in *.
    apply list_elem_of_fmap in Hdate as (d & [= <- ->] & Hd).
    unfold sorted_reverse in Hd. rewrite sorted_with_perm in Hd.
    apply elem_of_keys_iff in Hd as [labels Hlabels].
    rewrite Hlabels. simpl.
    destruct (Hfull date labels Hlabels) as [[label Hlabel] _].
    apply elem_of_keys_iff in Hlabel.
    intros Hnil%fmap_nil_inv. unfold sorted in Hnil.
    rewrite <- (sorted_with_perm Str.leb), Hnil in Hlabel.
    by apply elem_of_nil in Hlabel.
  - intros label files Hgroup.
    assert (listed_under (build_index listing) date label files) as Hlisted
      by by exists groups.
    apply listed_under_build_index in Hlisted as [Hne ->]. split.
    + intros Hnil%fmap_nil_inv. apply Hne.
      apply Permutation_nil. rewrite <- Hnil. unfold sorted_by_page.
      by rewrite sorted_with_perm.
    + intros Hnd. unfold sorted_by_page. rewrite sorted_with_perm.
      rewrite snd_entries. by do 2 apply NoDup_List_filter.
Qed.

(** A name that passes the filter of [build_list_json] and holds no slash
    is a stem of three or more segments followed by [.webp], and
    [splitext] separates the two. *)
Lemma is_slide_webp_stem (f : str) :
  slash ∉ f → is_slide_webp f = true →
  ∃ stem, f = stem ++ lit ".webp" ∧ splitext f = (stem, lit ".webp")
          ∧ (3 ≤ length (split underscore stem))%nat.
Proof.
  intros Hslash [Hwebp Hlen%bool_decide_eq_true]%andb_prop.
  apply endswith_app in Hwebp.
  set (stem := take (length f - length (lit ".webp")) f) in *.
  rewrite Hwebp in Hlen, Hslash.
  rewrite length_split_app_free in Hlen by compute_done.
  apply not_elem_of_app in Hslash as [Hstem _].
  exists stem. split; [done|]. split; [|done]. rewrite Hwebp.
  apply (splitext_app stem (lit "webp")); [done|compute_done|compute_done|].
  exists underscore. split; [|done].
  destruct (decide (underscore ∈ stem)) as [Hin|Hnin]; [done|].
  rewrite (split_free _ _ Hnin) in Hlen. simpl in Hlen. lia.
Qed.

(** X6. Every name listed under a date and a label, when it holds no
    slash (as the names that [os.listdir] returns), is
    [<date>_<label>_<page>.webp] for a page segment without delimiter. *)
Theorem build_index_names (listing : list str) date label files f :
  listed_under (build_index listing) date label files → f ∈ files → slash ∉ f →
  ∃ page,
    f = date ++ [underscore] ++ label ++ [underscore] ++ page ++ lit ".webp"
    ∧ (underscore ∉ date) ∧ (underscore ∉ page).
Proof.
  intros Hlisted Hf Hslash.
  destruct (listed_elem _ _ _ _ _ Hlisted Hf) as (_ & Hslide & n & Hparse).
  destruct (is_slide_webp_stem f Hslash Hslide) as (stem & Heq & Hext & Hlen).
  destruct (parse_filename_stem f date label n) as (page & Hstem & Hd & Hp & _).
  - by rewrite Hext.
  - done.
  - exists page. split; [|done]. rewrite Hext in Hstem. simpl in Hstem.
    rewrite Heq, Hstem. by repeat (rewrite <- app_assoc; simpl).
Qed.

(** *** The index and the order of the listing *)

Section Enumeration.

Variables l1 l2 : list str.
Hypothesis Hperm : l1 ≡ₚ l2.

Lemma entries_perm date label :
  omap (entry_of date label) (List.filter is_slide_webp l1)
  ≡ₚ omap (entry_of date label) (List.filter is_slide_webp l2).
Proof. apply omap_Permutation, List_filter_perm, Hperm. Qed.

Lemma entries_nonempty date label :
  omap (entry_of date label) (List.filter is_slide_webp l1) ≠ []
  ↔ omap (entry_of date label) (List.filter is_slide_webp l2) ≠ [].
Proof.
  pose proof (entries_perm date label) as Hp.
  split; intros Hne Hnil; apply Hne; apply Permutation_nil;
    [rewrite <- Hnil | rewrite <- Hnil]; done.
Qed.

Lemma labels_same date x :
  x ∈ keys (default ∅ (foldl add_entry ∅ (List.filter is_slide_webp l1) !! date))
  ↔ x ∈ keys (default ∅ (foldl add_entry ∅ (List.filter is_slide_webp l2) !! date)).
Proof.
  assert (∀ l, x ∈ keys (default ∅ (foldl add_entry ∅ (List.filter is_slide_webp l)
                                     !! date))
            ↔ omap (entry_of date x) (List.filter is_slide_webp l) ≠ []) as Hkeys.
  { intros l. rewrite <- build_index_pages.
    rewrite (group_pages_nonempty _ _ _ (build_index_full l)).
    rewrite elem_of_keys_iff.
    destruct (foldl add_entry ∅ (List.filter is_slide_webp l) !! date)
      as [labels|]; simpl.
    - split; [by eauto|]. by intros (? & [= <-] & ?).
    - rewrite lookup_empty. split; [by intros [? ?]|]. by intros (? & ? & ?). }
  rewrite !Hkeys. apply entries_nonempty.
Qed.

Lemma dates_same x :
  x ∈ keys (foldl add_entry ∅ (List.filter is_slide_webp l1))
  ↔ x ∈ keys (foldl add_entry ∅ (List.filter is_slide_webp l2)).
Proof.
  assert (∀ l, x ∈ keys (foldl add_entry ∅ (List.filter is_slide_webp l))
            ↔ ∃ label, omap (entry_of x label) (List.filter is_slide_webp l) ≠ [])
    as Hkeys.
  { intros l. rewrite elem_of_keys_iff. split.
    - intros [labels Hlabels].
      destruct (build_index_full l x labels Hlabels) as [[label Hlabel] _].
      exists label. rewrite <- build_index_pages.
      apply (group_pages_nonempty _ _ _ (build_index_full l)). by exists labels.
    - intros [label Hne]. rewrite <- build_index_pages in Hne.
      apply (group_pages_nonempty _ _ _ (build_index_full l)) in Hne
        as (labels & Hlabels & _).
      by exists labels. }
  rewrite !Hkeys.
  split; intros [label Hne]; exists label; by apply entries_nonempty.
Qed.

Lemma build_index_dates :
  sorted_reverse (keys (foldl add_entry ∅ (List.filter is_slide_webp l1)))
  = sorted_reverse (keys (foldl add_entry ∅ (List.filter is_slide_webp l2))).
Proof. apply sorted_reverse_ext; [apply keys_NoDup..|apply dates_same]. Qed.

Lemma build_index_labels date :
  sorted (keys (default ∅ (foldl add_entry ∅ (List.filter is_slide_webp l1) !! date)))
  = sorted (keys (default ∅ (foldl add_entry ∅ (List.filter is_slide_webp l2) !! date))).
Proof. apply sorted_ext; [apply keys_NoDup..|]. intros x. apply labels_same. Qed.

End Enumeration.

(** The index, with the entries of each group read off the listing. *)
Lemma build_index_alt (listing : list str) :
  let names := List.filter is_slide_webp listing in
  let data := foldl add_entry ∅ names in
  build_index listing =
    (fun date =>
       (date,
        (fun label =>
           (label, snd <$> sorted_by_page (omap (entry_of date label) names)))
          <$> sorted (keys (default ∅ (data !! date)))))
      <$> sorted_reverse (keys data).
Proof.
  intros names data. unfold build_index, data, names. cbv zeta.
  apply fmap_ext_in. intros date _. f_equal.
  apply fmap_ext_in. intros label _. f_equal.
  by rewrite group_pages_lookup, build_index_pages.
Qed.

(** X7. Two enumerations of the same directory give indexes with the
    same dates in the same order, under each date the same labels in the
    same order, and under each label the same names up to their order. *)
Theorem build_index_permutation (l1 l2 : list str) :
  l1 ≡ₚ l2 → same_up_to_ties (build_index l1) (build_index l2).
Proof.
  intros Hperm. rewrite !build_index_alt. cbv zeta.
  rewrite (build_index_dates l1 l2 Hperm). unfold same_up_to_ties.
  apply Forall2_fmap, Forall_Forall2_diag, Forall_forall. intros date _.
  split; [done|]. simpl. rewrite (build_index_labels l1 l2 Hperm).
  apply Forall2_fmap, Forall_Forall2_diag, Forall_forall. intros label _.
  split; [done|]. simpl. apply fmap_Permutation.
  unfold sorted_by_page. rewrite !sorted_with_perm. by apply entries_perm.
Qed.

(** X8. When no two names of the listing parse to the same date, label
    and page, the index does not depend on the order of the listing. *)
Theorem build_index_enumeration_independent (l1 l2 : list str) :
  l1 ≡ₚ l2 →
  (∀ f g t, f ∈ l1 → g ∈ l1 →
            parse_filename f = Ok t → parse_filename g = Ok t → f = g) →
  build_index l1 = build_index l2.
Proof.
  intros Hperm Hties. rewrite !build_index_alt. cbv zeta.
  rewrite (build_index_dates l1 l2 Hperm).
  apply fmap_ext_in. intros date _. f_equal.
  rewrite (build_index_labels l1 l2 Hperm).
  apply fmap_ext_in. intros label _. f_equal. f_equal.
  apply (StronglySorted_unique_strong (fun a b => (fst a ≤ fst b)%Z)).
  - unfold sorted_by_page. intros a b. rewrite !sorted_with_perm.
    intros (f & Hf & Ha)%list_elem_of_omap (g & Hg & Hb)%list_elem_of_omap Hab Hba.
    apply entry_of_Some in Ha as [<- Ha]. apply entry_of_Some in Hb as [<- Hb].
    apply elem_of_List_filter in Hf as [Hf _].
    apply elem_of_List_filter in Hg as [Hg _]. rewrite <- Hperm in Hg.
    assert (fst a = fst b) as Heq by lia. rewrite Heq in Ha.
    pose proof (Hties _ _ _ Hf Hg Ha Hb) as Hsnd.
    destruct a, b; simpl in *; congruence.
  - apply sorted_by_page_sorted.
  - apply sorted_by_page_sorted.
  - unfold sorted_by_page. rewrite !sorted_with_perm. by apply entries_perm.
Qed.


(** ** The paths of a slide file *)

Lemma ltb_app_head (a b c : str) : Str.ltb (a ++ b) (a ++ c) = Str.ltb b c.
Proof.
  induction a as [|x a IH]; [done|]. simpl.
  by rewrite N.ltb_irrefl, N.eqb_refl, IH.
Qed.

(** The paths that the program computes from a path of the shape that
    discovery returns, [images/<stem>.png]. *)
Lemma slide_shape_paths (p : str) :
  slide_shape p →
  ∃ stem,
    (slash ∉ stem) ∧ (3 ≤ length (split underscore stem))%nat
    ∧ p = SOURCE_DIR ++ slash :: stem ++ lit ".png"
    ∧ basename p = stem ++ lit ".png"
    ∧ splitext (basename p) = (stem, lit ".png")
    ∧ webp_name_of p = stem ++ lit ".webp"
    ∧ webp_path_of p = ARCHIVE_DIR ++ slash :: stem ++ lit ".webp"
    ∧ plain_dest p = ARCHIVE_DIR ++ slash :: stem ++ lit ".png"
    ∧ ∀ ts, slash ∉ ts →
        suffixed_dest p ts
        = ARCHIVE_DIR ++ slash :: stem ++ [underscore] ++ ts ++ lit ".png".
Proof.
  intros (n & -> & _ & Hslash & Hhid & Hpng & Hlen).
  destruct (splitext_png n Hslash Hhid Hpng) as (stem & -> & Hext).
  rewrite Hext in Hlen. simpl in Hlen.
  pose proof Hslash as [Hstem _]%not_elem_of_app.
  exists stem. split; [done|]. split; [done|]. split; [done|].
  assert (basename (SOURCE_DIR ++ slash :: stem ++ lit ".png") = stem ++ lit ".png")
    as Hbase by by apply basename_app.
  split; [done|]. split; [by rewrite Hbase|].
  unfold webp_path_of, webp_name_of, plain_dest, suffixed_dest.
  rewrite Hbase, Hext. simpl fst. simpl snd.
  split; [done|].
  split; [apply path_join_ARCHIVE; rewrite not_elem_of_app; split; [done|compute_done]|].
  split; [by apply path_join_ARCHIVE|].
  intros ts Hts. apply path_join_ARCHIVE.
  rewrite !not_elem_of_app. split; [done|]. split; [compute_done|].
  split; [done|compute_done].
Qed.

Lemma slide_shape_endswith (p : str) :
  slide_shape p →
  endswith p (lit ".png") = true
  ∧ endswith (webp_path_of p) (lit ".webp") = true
  ∧ endswith (plain_dest p) (lit ".png") = true
  ∧ ∀ t, endswith (suffixed_dest p (strftime_HMS t)) (lit ".png") = true.
Proof.
  intros (stem & _ & _ & Hp & _ & _ & _ & Hw & Hd & Hs)%slide_shape_paths.
  split; [|split; [|split]].
  - rewrite Hp, (cons_middle slash), !app_assoc. apply endswith_intro.
  - rewrite Hw, (cons_middle slash), !app_assoc. apply endswith_intro.
  - rewrite Hd, (cons_middle slash), !app_assoc. apply endswith_intro.
  - intros t. rewrite (Hs _ (strftime_HMS_no_slash t)).
    rewrite (cons_middle slash), !app_assoc. apply endswith_intro.
Qed.

Lemma webp_path_of_inj (p q : str) :
  slide_shape p → slide_shape q → webp_path_of p = webp_path_of q → p = q.
Proof.
  intros (s1 & _ & _ & -> & _ & _ & _ & -> & _)%slide_shape_paths
         (s2 & _ & _ & -> & _ & _ & _ & -> & _)%slide_shape_paths Heq.
  apply app_inv_head in Heq. injection Heq as Heq.
  apply app_inv_tail in Heq. by rewrite Heq.
Qed.

(** A slide file whose name is the suffixed name of another one is sorted
    after that one. *)
Lemma suffixed_name_sorted_after (p q ts : str) :
  slide_shape p → slide_shape q → slash ∉ ts →
  plain_dest p = suffixed_dest q ts → Str.ltb q p = true.
Proof.
  intros (s1 & _ & _ & -> & _ & _ & _ & _ & -> & _)%slide_shape_paths
         (s2 & _ & _ & -> & _ & _ & _ & _ & _ & Hs)%slide_shape_paths Hts Heq.
  rewrite (Hs ts Hts) in Heq.
  apply app_inv_head in Heq. injection Heq as Heq.
  assert (s1 = s2 ++ [underscore] ++ ts) as ->.
  { apply (app_inv_tail (lit ".png")). rewrite Heq. by rewrite <- !app_assoc. }
  replace (SOURCE_DIR ++ slash :: s2 ++ lit ".png")
    with ((SOURCE_DIR ++ slash :: s2) ++ lit ".png")
    by by rewrite <- app_assoc.
  replace (SOURCE_DIR ++ slash :: (s2 ++ [underscore] ++ ts) ++ lit ".png")
    with ((SOURCE_DIR ++ slash :: s2) ++ underscore :: ts ++ lit ".png")
    by (rewrite <- ?app_assoc; simpl; by rewrite <- ?app_assoc).
  by rewrite ltb_app_head.
Qed.

Lemma suffixed_dest_same_length (p q ts1 ts2 : str) :
  slide_shape p → slide_shape q → slash ∉ ts1 → slash ∉ ts2 →
  length ts1 = length ts2 →
  suffixed_dest p ts1 = suffixed_dest q ts2 → p = q.
Proof.
  intros (s1 & _ & _ & -> & _ & _ & _ & _ & _ & Hs1)%slide_shape_paths
         (s2 & _ & _ & -> & _ & _ & _ & _ & _ & Hs2)%slide_shape_paths
         Ht1 Ht2 Hlen Heq.
  rewrite (Hs1 _ Ht1), (Hs2 _ Ht2) in Heq.
  apply app_inv_head in Heq. injection Heq as Heq.
  apply app_inj_2 in Heq as [-> _]; [done|].
  simpl. by rewrite !length_app, Hlen.
Qed.

(** The WebP name of a slide file passes the filter of
    [build_list_json], and its stem is the stem of the slide file. *)
Lemma webp_name_is_slide_webp (p : str) :
  slide_shape p →
  is_slide_webp (webp_name_of p) = true
  ∧ fst (splitext (webp_name_of p)) = fst (splitext (basename p)).
Proof.
  intros (stem & Hslash & Hlen & _ & _ & Hext & Hname & _)%slide_shape_paths.
  assert (is_slide_webp (webp_name_of p) = true) as Hslide.
  { rewrite Hname. unfold is_slide_webp. rewrite endswith_intro. simpl.
    apply bool_decide_eq_true. by rewrite length_split_app_free by compute_done. }
  split; [done|].
  destruct (is_slide_webp_stem (webp_name_of p)) as (stem' & Heq & Hext' & _).
  - rewrite Hname, not_elem_of_app. split; [done|compute_done].
  - done.
  - rewrite Hext, Hext'. simpl. rewrite Hname in Heq. by apply app_inv_tail in Heq.
Qed.

(** The WebP path of a slide file is neither a slide file nor a
    destination of the move of one. *)
Lemma webp_path_fresh (p q : str) :
  slide_shape p → slide_shape q →
  webp_path_of p ≠ q
  ∧ webp_path_of p ≠ plain_dest q
  ∧ (∀ t, webp_path_of p ≠ suffixed_dest q (strftime_HMS t)).
Proof.
  intros Hp Hq.
  destruct (slide_shape_endswith p Hp) as (_ & Hw & _).
  destruct (slide_shape_endswith q Hq) as (Hq1 & _ & Hq2 & Hq3).
  split; [|split; [|intros t]]; intros Heq; rewrite Heq in Hw;
    [apply endswith_png_not_webp in Hq1 | apply endswith_png_not_webp in Hq2
     | pose proof (endswith_png_not_webp _ (Hq3 t))]; congruence.
Qed.

(** X9. The test of discovery and the filter of the index agree: the
    name that [convert_to_webp] gives to the WebP of a discovered slide file
    passes the filter of [build_list_json], and [parse_filename] splits
    the stem that discovery split, so that it reads the WebP name as it
    reads the name of the original. *)
Theorem slide_webp_passes_filter (p : str) :
  slide_shape p →
  is_slide_webp (webp_name_of p) = true
  ∧ fst (splitext (webp_name_of p)) = fst (splitext (basename p))
  ∧ parse_filename (webp_name_of p) = parse_filename (basename p).
Proof.
  intros Hp. destruct (webp_name_is_slide_webp p Hp) as [Hslide Hstem].
  split; [done|]. split; [done|].
  unfold parse_filename. by rewrite Hstem.
Qed.

(** X10. Distinct slide files have distinct WebP paths, and the WebP path
    of a slide file is never a slide file nor the destination, suffixed or
    not, of the move of one: conversions and moves do not collide. *)
Theorem slide_paths_distinct (p q : str) :
  slide_shape p → slide_shape q →
  (webp_path_of p = webp_path_of q → p = q)
  ∧ webp_path_of p ≠ q
  ∧ webp_path_of p ≠ plain_dest q
  ∧ (∀ t, webp_path_of p ≠ suffixed_dest q (strftime_HMS t)).
Proof.
  intros Hp Hq. split; [by apply webp_path_of_inj|by apply webp_path_fresh].
Qed.

(** The moves in an output. *)
Lemma moved_sources_app (a b : list event) :
  moved_sources (a ++ b) = moved_sources a ++ moved_sources b.
Proof. apply omap_app. Qed.

Lemma moved_sources_no_move (evs : list event) :
  (∀ s d, Moved s d ∉ evs) → moved_sources evs = [].
Proof.
  induction evs as [|e evs IH]; intros Hevs; [done|].
  unfold moved_sources. simpl. destruct e as [| s d | |].
  2: { destruct (Hevs s d). by left. }
  all: apply IH; intros s d Hin; apply (Hevs s d); by right.
Qed.

Lemma moved_sources_no_change (evs : list event) :
  Forall (fun e => is_change e = false) evs → moved_sources evs = [].
Proof.
  intros Hevs. apply moved_sources_no_move. intros s d Hin.
  eapply Forall_forall in Hevs; [|exact Hin]. done.
Qed.

(** ** More on the functions of the script *)

Section MoreProgramFacts.

Context {content : Type}.
Variable png_to_webp : N -> content -> option content.
Variable json_dump : index -> content.
Variable now : nat -> nat.
Variable enum : gset str -> list str.

Implicit Types (st : @state content) (p n : str).

(** *** The index that [build_list_json] writes *)

(** C2. Whatever the archive directory holds and whatever the order in
    which it is enumerated, [build_list_json] returns, and writes to
    [list.json], the index of the listing: dates in descending order,
    under each date labels in ascending order, under each label file names
    by ascending parsed page number; and the index lists a name under a
    date and a label exactly when the name is listed in the archive
    directory, ends in [.webp], has three or more segments and parses to
    that date and label, so that every date and every label of the
    archive is there. *)
Theorem build_list_json_ordered st :
  ∃ idx st',
    build_list_json json_dump enum st = (Ok idx, st')
    ∧ fs st' !! LIST_JSON = Some (json_dump idx)
    ∧ idx = build_index (enum (dir_names (fs st) ARCHIVE_DIR))
    ∧ index_ordered idx
    ∧ ∀ date label f,
        (∃ files, listed_under idx date label files ∧ f ∈ files)
        ↔ f ∈ enum (dir_names (fs st) ARCHIVE_DIR)
          ∧ is_slide_webp f = true
          ∧ ∃ n : Z, parse_filename f = Ok (date, label, n).
Proof.
  unfold build_list_json, bind, listdir, write_json, print, emit, ret. simpl.
  eexists _, _. split; [reflexivity|]. simpl.
  split; [by rewrite lookup_insert_eq|].
  split; [done|]. split; [apply build_index_ordered|].
  intros date label f. split.
  - intros (files & Hfiles & Hf). by eapply listed_elem.
  - intros (Hf & Hslide & m & Hparse). by eapply listed_intro.
Qed.

(** X11. Converting twice is converting once: after a call of
    [convert_to_webp] that returns, a second call on the same path returns
    the same name, reports a skip and leaves the file system alone. *)
Theorem convert_to_webp_twice st p name st1 :
  convert_to_webp png_to_webp p st = (Ok name, st1) →
  convert_to_webp png_to_webp p st1
  = (Ok name,
     State (fs st1) (out st1 ++ [Printed (MsgSkipped name)]) (clock_reads st1)).
Proof.
  rewrite !convert_to_webp_run. case_bool_decide as Hw.
  - intros [= <- <-]. cbn [fs out clock_reads]. by rewrite bool_decide_true.
  - destruct (fs st !! p ≫= png_to_webp WEBP_QUALITY) as [w|]; [|done].
    intros [= <- <-]. cbn [fs out clock_reads].
    by rewrite bool_decide_true by (rewrite lookup_insert_eq; by eexists).
Qed.

(** X12. [archive_original] on a path outside the archive. When the
    source is missing it raises and leaves files and output as they were.
    Otherwise it returns: the source is gone, its bytes are at the
    destination (the unsuffixed name when free, the name suffixed with the
    time otherwise), every other path is as it was, and the move is
    reported. *)
Theorem archive_original_moves st p :
  ¬ in_archive p →
  let dest := if bool_decide (is_Some (fs st !! plain_dest p))
              then suffixed_dest p (strftime_HMS (now (clock_reads st)))
              else plain_dest p in
  (fs st !! p = None →
   ∃ st', archive_original now p st = (Raise OSError, st')
     ∧ fs st' = fs st ∧ out st' = out st)
  ∧ (∀ c, fs st !! p = Some c →
     ∃ st', archive_original now p st = (Ok tt, st')
       ∧ fs st' !! p = None ∧ fs st' !! dest = Some c
       ∧ (∀ k, k ≠ p → k ≠ dest → fs st' !! k = fs st !! k)
       ∧ out st' = out st ++ [Moved p dest; Printed (MsgMoved (basename p))]).
Proof.
  intros Hp dest.
  assert (plain_dest p ≠ p) as Hne1
    by (intros Heq; apply Hp; rewrite <- Heq; apply in_archive_plain_dest).
  assert (∀ t, suffixed_dest p (strftime_HMS t) ≠ p) as Hne2
    by (intros t Heq; apply Hp; rewrite <- Heq; apply in_archive_suffixed_dest).
  rewrite archive_original_run. unfold dest. clear dest. split.
  - intros ->. case_bool_decide; by eexists.
  - intros c ->. case_bool_decide; cbn zeta;
      (eexists; split; [reflexivity|]); cbn [fs out clock_reads].
    + split; [by rewrite lookup_insert_ne, lookup_delete_eq|].
      split; [by rewrite lookup_insert_eq|]. split; [|done].
      intros k Hk1 Hk2. by rewrite lookup_insert_ne, lookup_delete_ne.
    + split; [by rewrite lookup_insert_ne, lookup_delete_eq|].
      split; [by rewrite lookup_insert_eq|]. split; [|done].
      intros k Hk1 Hk2. by rewrite lookup_insert_ne, lookup_delete_ne.
Qed.

(** X13. [build_list_json] changes [list.json] only, and rebuilding the
    index right after gives the same index and the same file system: the
    listing of the archive does not see [list.json]. *)
Theorem build_list_json_twice st idx st1 :
  build_list_json json_dump enum st = (Ok idx, st1) →
  fs st1 = <[LIST_JSON := json_dump idx]> (fs st)
  ∧ ∃ st2, build_list_json json_dump enum st1 = (Ok idx, st2) ∧ fs st2 = fs st1.
Proof.
  unfold build_list_json, bind, listdir, write_json, print, emit, ret. simpl.
  intros [= <- <-]. simpl. split; [done|].
  rewrite dir_names_after_index. eexists. split; [reflexivity|]. simpl.
  apply insert_insert_eq.
Qed.

Abbreviation process_one :=
  (fun png_path => bind (convert_to_webp png_to_webp png_path)
                        (fun _ => archive_original now png_path)).

(** What processing a slide file does to the file system when it returns:
    the WebP is there already or is written, and the source goes to the
    unsuffixed name when it is free, to a suffixed name otherwise. *)
Lemma process_file_Ok st p st' :
  slide_shape p → process_one p st = (Ok tt, st') →
  ∃ c files1 dest,
    fs st !! p = Some c
    ∧ ((is_Some (fs st !! webp_path_of p) ∧ files1 = fs st)
       ∨ (fs st !! webp_path_of p = None
          ∧ ∃ w, png_to_webp WEBP_QUALITY c = Some w
                 ∧ files1 = <[webp_path_of p := w]> (fs st)))
    ∧ ((dest = plain_dest p ∧ files1 !! plain_dest p = None)
       ∨ ((∃ t, dest = suffixed_dest p (strftime_HMS t))
          ∧ is_Some (files1 !! plain_dest p)))
    ∧ fs st' = <[dest := c]> (delete p files1).
Proof.
  intros Hp.
  assert (p ≠ webp_path_of p) as Hpw.
  { intros Heq. apply (slide_shape_not_in_archive p Hp).
    rewrite Heq. apply in_archive_webp_path. }
  assert (∀ files1 c r,
            files1 !! p = Some c →
            archive_original now p (State files1 r (clock_reads st)) = (Ok tt, st') →
            ∃ dest,
              ((dest = plain_dest p ∧ files1 !! plain_dest p = None)
               ∨ ((∃ t, dest = suffixed_dest p (strftime_HMS t))
                  ∧ is_Some (files1 !! plain_dest p)))
              ∧ fs st' = <[dest := c]> (delete p files1)) as Harch.
  { intros files1 c r Hc. rewrite archive_original_run. cbn [fs out clock_reads].
    rewrite Hc. case_bool_decide as Hplain; intros [= <-]; eexists; (split; [|done]).
    - right. split; [by eexists|done].
    - left. split; [done|]. destruct (files1 !! plain_dest p) eqn:Hd; [|done].
      destruct Hplain. by eexists. }
  unfold bind. rewrite convert_to_webp_run. case_bool_decide as Hw.
  - destruct (fs st !! p) as [c|] eqn:Hc.
    + intros (dest & Hdest & Hfs)%(Harch (fs st) c); [|done].
      exists c, (fs st), dest. split; [done|]. split; [by left|]. by split.
    + rewrite archive_original_run. cbn [fs out clock_reads]. rewrite Hc.
      by case_bool_decide.
  - destruct (fs st !! p) as [c|] eqn:Hc; cbn [mbind option_bind]; [|done].
    destruct (png_to_webp WEBP_QUALITY c) as [w|] eqn:Hcodec; [|done].
    intros (dest & Hdest & Hfs)%(Harch (<[webp_path_of p := w]> (fs st)) c);
      [|by rewrite lookup_insert_ne].
    exists c, (<[webp_path_of p := w]> (fs st)), dest. split; [done|].
    split; [|by split]. right. split; [|by eexists].
    destruct (fs st !! webp_path_of p) eqn:Hw'; [|done]. destruct Hw. by eexists.
Qed.

Lemma process_file_dest_in_archive p (files1 : gmap str content) dest :
  (dest = plain_dest p ∧ files1 !! plain_dest p = None)
  ∨ ((∃ t, dest = suffixed_dest p (strftime_HMS t))
     ∧ is_Some (files1 !! plain_dest p)) →
  in_archive dest.
Proof.
  intros [[-> _]|[[t ->] _]];
    [apply in_archive_plain_dest | apply in_archive_suffixed_dest].
Qed.

(** Processing a slide file leaves every other path in place, and leaves
    it as it was unless it is the destination of the move or the WebP. *)
Lemma process_file_other st p st' k :
  slide_shape p → process_one p st = (Ok tt, st') → k ≠ p →
  (is_Some (fs st !! k) → is_Some (fs st' !! k))
  ∧ (¬ in_archive k → fs st' !! k = fs st !! k)
  ∧ (endswith k (lit ".webp") = true → is_Some (fs st !! k) →
     fs st' !! k = fs st !! k).
Proof.
  intros Hp Hrun Hk.
  destruct (process_file_Ok st p st' Hp Hrun) as (c & files1 & dest & Hc & Hf1 & Hdest & Hfs).
  pose proof (process_file_dest_in_archive _ _ _ Hdest) as Harch.
  rewrite Hfs. split; [|split].
  - intros Hsome. destruct (decide (dest = k)) as [->|Hne];
      [by rewrite lookup_insert_eq|].
    rewrite lookup_insert_ne, lookup_delete_ne by done.
    destruct Hf1 as [[_ ->]|[_ (w & _ & ->)]]; [done|].
    destruct (decide (webp_path_of p = k)) as [->|Hne'];
      [by rewrite lookup_insert_eq | by rewrite lookup_insert_ne].
  - intros Hka. rewrite lookup_insert_ne, lookup_delete_ne by (done || by intros ->).
    destruct Hf1 as [[_ ->]|[_ (w & _ & ->)]]; [done|].
    rewrite lookup_insert_ne; [done|]. intros <-. apply Hka, in_archive_webp_path.
  - intros Hwebp Hsome.
    assert (files1 !! k = fs st !! k) as Hsame.
    { destruct Hf1 as [[_ ->]|[Hnone (w & _ & ->)]]; [done|].
      rewrite lookup_insert_ne; [done|]. intros <-.
      rewrite Hnone in Hsome. by destruct Hsome. }
    rewrite lookup_insert_ne, lookup_delete_ne, Hsame; [done..|].
    intros <-. destruct (slide_shape_endswith p Hp) as (_ & _ & Hd1 & Hd2).
    destruct Hdest as [[-> _]|[[t ->] _]].
    + apply endswith_png_not_webp in Hd1. congruence.
    + pose proof (endswith_png_not_webp _ (Hd2 t)). congruence.
Qed.

Lemma process_file_Raise st p e st' :
  process_one p st = (Raise e, st') → fs st' = fs st.
Proof.
  intros Hrun.
  destruct (process_file_cases _ _ st p _ st' Hrun)
    as [(_ & -> & _)|[(_ & Hfs & _)|(? & _)]]; done.
Qed.

(** A property of the file system that the processing of each file
    preserves holds after the batch, however the batch ends. *)
Lemma for_each_fs_invariant (I : gmap str content → Prop) (l : list str) st r st' :
  (∀ p st1 st2, p ∈ l → I (fs st1) → process_one p st1 = (Ok tt, st2) → I (fs st2)) →
  I (fs st) → for_each l process_one st = (r, st') → I (fs st').
Proof.
  revert st. induction l as [|a l IH]; intros st Hstep HI; simpl.
  - by intros [= <- <-].
  - unfold bind at 1. destruct (process_one a st) as [[[]|e] st1] eqn:Hrun.
    + apply IH.
      * intros p st2 st3 Hp. apply Hstep. by right.
      * eapply Hstep; [by left|done|done].
    + intros [= <- <-]. by rewrite (process_file_Raise _ _ _ _ Hrun).
Qed.

(** The same for a whole run, whose last step rewrites [list.json]. *)
Lemma run_fs_invariant (I : gmap str content → Prop) (files : gmap str content)
    (k : nat) :
  (∀ X, enum X ≡ₚ elements X) →
  (∀ p st1 st2, slide_shape p → is_Some (files !! p) →
                I (fs st1) → process_one p st1 = (Ok tt, st2) → I (fs st2)) →
  (∀ m c, I m → I (<[LIST_JSON := c]> m)) →
  I files → I (fs (snd (run png_to_webp json_dump now enum files k))).
Proof.
  intros Henum Hstep Hjson HI. unfold run.
  destruct (process_unfold png_to_webp json_dump now enum (State files [] k))
    as (found & Hfound & ->).
  cbn [fs out clock_reads app] in *.
  destruct found as [|p0 found0]; [by apply Hjson|].
  destruct (for_each _ _ _) as [r st1] eqn:Hloop.
  assert (I (fs st1)) as H1.
  { eapply for_each_fs_invariant; [| |exact Hloop]; [|exact HI].
    intros p st2 st3 Hp. apply (proj1 (sorted_elem _ _)) in Hp.
    apply (found_iff _ _ _ _ Henum Hfound) in Hp as [Hsome Hshape].
    by apply Hstep. }
  destruct r as [[]|e]; [by apply Hjson|done].
Qed.

(** X14. A run, completed or not, leaves every path outside the archive
    that is neither a slide file nor [list.json] as it was: single images
    such as [images/260206.png] are never touched. *)
Theorem run_leaves_other_files (files : gmap str content) (k : nat) (q : str) :
  (∀ X, enum X ≡ₚ elements X) →
  ¬ slide_shape q → ¬ in_archive q → q ≠ LIST_JSON →
  fs (snd (run png_to_webp json_dump now enum files k)) !! q = files !! q.
Proof.
  intros Henum Hshape Harch Hjson.
  apply (run_fs_invariant (fun m => m !! q = files !! q)); [done| | |done].
  - intros p st1 st2 Hp _ <- Hrun.
    destruct (process_file_other st1 p st2 q Hp Hrun) as (_ & Hsame & _);
      [by intros ->|by apply Hsame].
  - intros m c <-. by rewrite lookup_insert_ne.
Qed.

(** X15. A run, completed or not, leaves every existing file whose name
    ends in [.webp] with the contents it had: a WebP of the archive is
    never rewritten, replaced or removed. *)
Theorem run_keeps_webps (files : gmap str content) (k : nat) (q : str) (c : content) :
  (∀ X, enum X ≡ₚ elements X) →
  endswith q (lit ".webp") = true → files !! q = Some c →
  fs (snd (run png_to_webp json_dump now enum files k)) !! q = Some c.
Proof.
  intros Henum Hwebp Hc.
  apply (run_fs_invariant (fun m => m !! q = Some c)); [done| | |done].
  - intros p st1 st2 Hp _ Hq Hrun. rewrite <- Hq.
    destruct (process_file_other st1 p st2 q Hp Hrun) as (_ & _ & Hsame);
      [|apply Hsame; [done|by rewrite Hq]].
    intros ->. destruct (slide_shape_endswith p Hp) as (Hpng & _).
    apply endswith_png_not_webp in Hpng. congruence.
  - intros m c' Hq. rewrite lookup_insert_ne; [done|]. by intros <-.
Qed.

(** X16. A run, completed or not, removes no file but slide files of the
    source directory: every other file that existed still exists. *)
Theorem run_removes_only_slides (files : gmap str content) (k : nat) (q : str) :
  (∀ X, enum X ≡ₚ elements X) →
  is_Some (files !! q) → ¬ slide_shape q →
  is_Some (fs (snd (run png_to_webp json_dump now enum files k)) !! q).
Proof.
  intros Henum Hsome Hshape.
  apply (run_fs_invariant (fun m => is_Some (m !! q))); [done| | |done].
  - intros p st1 st2 Hp _ Hq Hrun.
    destruct (process_file_other st1 p st2 q Hp Hrun) as (Hkeep & _);
      [by intros ->|by apply Hkeep].
  - intros m c Hq. destruct (decide (LIST_JSON = q)) as [<-|Hne];
      [by rewrite lookup_insert_eq | by rewrite lookup_insert_ne].
Qed.


(** *** No original is lost *)

(** A file of the archive survives a batch with its contents when no file
    of the batch can be given its name as a suffixed name. *)
Lemma for_each_keeps (l : list str) st r st' (d : str) (c : content) :
  Forall slide_shape l → in_archive d → fs st !! d = Some c →
  (∀ q t, q ∈ l → d ≠ suffixed_dest q (strftime_HMS t)) →
  for_each l process_one st = (r, st') → fs st' !! d = Some c.
Proof.
  intros Hl Hd Hc Hfresh.
  apply (for_each_fs_invariant (fun m => m !! d = Some c)); [|done].
  intros q st1 st2 Hq H1 Hrun.
  assert (slide_shape q) as Hshape by by eapply Forall_forall in Hl.
  destruct (process_file_Ok st1 q st2 Hshape Hrun)
    as (cq & files1 & dest & Hcq & Hf1 & Hdest & Hfs).
  assert (files1 !! d = Some c) as H1'.
  { destruct Hf1 as [[_ ->]|[Hnone (w & _ & ->)]]; [done|].
    rewrite lookup_insert_ne; [done|]. intros <-. congruence. }
  rewrite Hfs, lookup_insert_ne, lookup_delete_ne; [done| |].
  - intros <-. by apply (slide_shape_not_in_archive q).
  - intros <-. destruct Hdest as [[-> Hnone]|[[t ->] _]]; [congruence|].
    by apply (Hfresh q t).
Qed.

Lemma for_each_conserves (l : list str) st r st' :
  StronglySorted (fun a b => Str.ltb a b = true) l → Forall slide_shape l →
  for_each l process_one st = (r, st') →
  ∀ p c, p ∈ l → fs st !! p = Some c →
    fs st' !! p = Some c
    ∨ (fs st' !! p = None
       ∧ ∃ dest, (dest = plain_dest p ∨ ∃ t, dest = suffixed_dest p (strftime_HMS t))
                 ∧ fs st' !! dest = Some c).
Proof.
  revert st. induction l as [|a l IH]; intros st Hsorted Hl; simpl.
  - intros _ p c Hp. by apply elem_of_nil in Hp.
  - apply StronglySorted_cons in Hsorted as [Ha Hsorted].
    apply Forall_cons in Hl as [Hshape Hl].
    rewrite Forall_forall in Ha.
    assert (a ∉ l) as Hal.
    { intros Hin. apply Ha in Hin. by rewrite ltb_irrefl in Hin. }
    unfold bind at 1. destruct (process_one a st) as [[[]|e] st1] eqn:Hrun.
    + intros Hrest p c Hp Hc. apply elem_of_cons in Hp as [->|Hp].
      * right.
        destruct (process_file_Ok st a st1 Hshape Hrun)
          as (c' & files1 & dest & Hc' & Hf1 & Hdest & Hfs).
        assert (c' = c) as -> by congruence.
        pose proof (process_file_dest_in_archive _ _ _ Hdest) as Harch.
        split.
        -- apply (for_each_fs_invariant (fun m => m !! a = None) l st1 r st');
             [| |done].
           ++ intros q st2 st3 Hq Hnone Hrun'.
              assert (slide_shape q) as Hq' by by eapply Forall_forall in Hl.
              destruct (process_file_other st2 q st3 a Hq' Hrun') as (_ & Hsame & _);
                [by intros ->|].
              rewrite Hsame; [done|]. by apply slide_shape_not_in_archive.
           ++ rewrite Hfs, lookup_insert_ne, lookup_delete_eq; [done|].
              intros ->. by apply (slide_shape_not_in_archive a).
        -- exists dest. split; [destruct Hdest as [[-> _]|[? _]]; by eauto|].
           apply (for_each_keeps l st1 r st' dest c); [done|done| | |done].
           ++ by rewrite Hfs, lookup_insert_eq.
           ++ intros q t Hq Heq.
              assert (slide_shape q) as Hq' by by eapply Forall_forall in Hl.
              pose proof (Ha q Hq) as Hlt.
              destruct Hdest as [[-> _]|[[t' ->] _]].
              ** apply suffixed_name_sorted_after in Heq;
                   [|done|done|apply strftime_HMS_no_slash].
                 by rewrite (ltb_asym a q Hlt) in Heq.
              ** apply suffixed_dest_same_length in Heq;
                   [|done|done|apply strftime_HMS_no_slash..|done].
                 rewrite Heq in Hlt. by rewrite ltb_irrefl in Hlt.
      * apply (IH st1 Hsorted Hl Hrest p c Hp).
        destruct (process_file_other st a st1 p Hshape Hrun) as (_ & Hsame & _);
          [by intros ->|].
        rewrite Hsame; [done|].
        apply slide_shape_not_in_archive. by eapply Forall_forall in Hl.
    + intros [= <- <-] p c Hp Hc. left.
      by rewrite (process_file_Raise _ _ _ _ Hrun).
Qed.

(** X17. No run loses an original: when a run ends, completed or not, the
    bytes of every slide file of the source directory are still at its
    path, or at a destination of its move in the archive (its unsuffixed
    or a suffixed name) while its path is free. Within a run a move never
    replaces the file of an earlier move, even when the clock stands
    still. *)
Theorem run_conserves_originals (files : gmap str content) (k : nat)
    (p : str) (c : content) :
  (∀ X, enum X ≡ₚ elements X) →
  slide_shape p → files !! p = Some c →
  let st' := snd (run png_to_webp json_dump now enum files k) in
  fs st' !! p = Some c
  ∨ (fs st' !! p = None
     ∧ ∃ dest, (dest = plain_dest p ∨ ∃ t, dest = suffixed_dest p (strftime_HMS t))
               ∧ fs st' !! dest = Some c).
Proof.
  intros Henum Hshape Hc st'. unfold st', run. clear st'.
  destruct (process_unfold png_to_webp json_dump now enum (State files [] k))
    as (found & Hfound & ->).
  cbn [fs out clock_reads app] in *.
  pose proof (found_iff _ _ _ _ Henum Hfound) as Hiff. cbn [fs] in Hiff.
  destruct (find_slide_pngs_NoDup _ _ _ _ Henum Hfound) as [Hnd _].
  assert (p ∈ found) as Hp by (apply Hiff; split; [by eexists|done]).
  destruct found as [|p0 found0]; [by apply elem_of_nil in Hp|].
  set (found := p0 :: found0) in *.
  destruct (for_each _ _ _) as [r st1] eqn:Hloop.
  assert (fs st1 !! p = Some c
          ∨ (fs st1 !! p = None
             ∧ ∃ dest, (dest = plain_dest p
                        ∨ ∃ t, dest = suffixed_dest p (strftime_HMS t))
                       ∧ fs st1 !! dest = Some c)) as Hst1.
  { eapply (for_each_conserves (sorted found)); [| |exact Hloop| |exact Hc].
    - by apply sorted_strict.
    - apply Forall_forall. intros q Hq. apply (proj1 (sorted_elem _ _)) in Hq. by apply Hiff in Hq as [_ ?].
    - by apply sorted_elem. }
  destruct r as [[]|e]; [|done]. cbn [snd after_index fs].
  rewrite lookup_insert_ne by (apply not_eq_sym; by apply slide_shape_not_LIST_JSON).
  destruct Hst1 as [?|(Hnone & dest & Hdest & Hd)]; [by left|right].
  split; [done|]. exists dest. split; [done|].
  rewrite lookup_insert_ne; [done|]. intros <-. apply in_archive_LIST_JSON.
  destruct Hdest as [->|[t ->]];
    [apply in_archive_plain_dest | apply in_archive_suffixed_dest].
Qed.

(** *** A completed run *)

Lemma for_each_Ok_webps (l : list str) st st' :
  Forall slide_shape l → for_each l process_one st = (Ok tt, st') →
  ∀ p, p ∈ l → is_Some (fs st' !! webp_path_of p).
Proof.
  revert st. induction l as [|a l IH]; intros st Hl; simpl.
  - intros _ p Hp. by apply elem_of_nil in Hp.
  - apply Forall_cons in Hl as [Hshape Hl].
    unfold bind at 1. destruct (process_one a st) as [[[]|e] st1] eqn:Hrun; [|done].
    intros Hrest p [->|Hp]%elem_of_cons; [|by eapply IH].
    apply (for_each_fs_invariant (fun m => is_Some (m !! webp_path_of a))
             l st1 (Ok tt) st'); [| |done].
    + intros q st2 st3 Hq Hsome Hrun'.
      assert (slide_shape q) as Hq' by by eapply Forall_forall in Hl.
      destruct (process_file_other st2 q st3 (webp_path_of a) Hq' Hrun') as (Hkeep & _);
        [by apply webp_path_fresh|by apply Hkeep].
    + destruct (process_file_Ok st a st1 Hshape Hrun)
        as (c & files1 & dest & Hc & Hf1 & Hdest & Hfs).
      rewrite Hfs. destruct (decide (dest = webp_path_of a)) as [->|Hne];
        [by rewrite lookup_insert_eq|].
      rewrite lookup_insert_ne, lookup_delete_ne by
        (done || by apply not_eq_sym, webp_path_fresh).
      destruct Hf1 as [[? ->]|[_ (w & _ & ->)]]; [done|].
      by rewrite lookup_insert_eq.
Qed.

(** The WebP of a slide file, once in the archive, is listed in the index
    under the date and the label of its name. *)
Lemma webp_listed (m : gmap str content) (p date label : str) (n : Z) :
  (∀ X, enum X ≡ₚ elements X) →
  slide_shape p → is_Some (m !! webp_path_of p) →
  parse_filename (webp_name_of p) = Ok (date, label, n) →
  ∃ names, listed_under (build_index (enum (dir_names m ARCHIVE_DIR))) date label names
           ∧ webp_name_of p ∈ names.
Proof.
  intros Henum Hshape Hsome Hparse.
  apply (listed_intro _ date label n); [|by apply webp_name_is_slide_webp|done].
  rewrite Henum, elem_of_elements, elem_of_dir_names.
  destruct (slide_shape_paths p Hshape)
    as (stem & Hslash & _ & _ & _ & _ & Hname & Hpath & _).
  rewrite Hname in *. rewrite Hpath in Hsome.
  split; [by destruct stem|]. split; [|done].
  rewrite not_elem_of_app. split; [done|compute_done].
Qed.

(** X18. After a run that completes, no slide file is left in the source
    directory, the WebP of every slide file that was there is in the
    archive, and the index built from the archive lists that WebP under
    the date and the label that its name parses to. *)
Theorem run_completed_consumes_slides (files : gmap str content) (k : nat)
    (st' : state) :
  (∀ X, enum X ≡ₚ elements X) →
  run png_to_webp json_dump now enum files k = (Ok tt, st') →
  (∀ q, slide_shape q → fs st' !! q = None)
  ∧ (∀ p, slide_shape p → is_Some (files !! p) →
       is_Some (fs st' !! webp_path_of p)
       ∧ ∀ date label (n : Z),
           parse_filename (webp_name_of p) = Ok (date, label, n) →
           ∃ names,
             listed_under (build_index (enum (dir_names (fs st') ARCHIVE_DIR)))
                          date label names
             ∧ webp_name_of p ∈ names).
Proof.
  intros Henum. unfold run.
  destruct (process_unfold png_to_webp json_dump now enum (State files [] k))
    as (found & Hfound & ->).
  cbn [fs out clock_reads app] in *.
  pose proof (found_iff _ _ _ _ Henum Hfound) as Hiff. cbn [fs] in Hiff.
  destruct (find_slide_pngs_NoDup _ _ _ _ Henum Hfound) as [Hnd Harch].
  assert (∀ s : state,
            (∀ q, slide_shape q → fs s !! q = None) →
            (∀ p, slide_shape p → is_Some (files !! p) →
                  is_Some (fs s !! webp_path_of p)) →
            st' = after_index json_dump enum s →
            (∀ q, slide_shape q → fs st' !! q = None)
            ∧ (∀ p, slide_shape p → is_Some (files !! p) →
                 is_Some (fs st' !! webp_path_of p)
                 ∧ ∀ date label (n : Z),
                     parse_filename (webp_name_of p) = Ok (date, label, n) →
                     ∃ names,
                       listed_under
                         (build_index (enum (dir_names (fs st') ARCHIVE_DIR)))
                         date label names
                       ∧ webp_name_of p ∈ names)) as Hdone.
  { intros s Hgone Hwebps ->. unfold after_index. cbn [fs]. split.
    - intros q Hq.
      rewrite lookup_insert_ne by (apply not_eq_sym; by apply slide_shape_not_LIST_JSON).
      by apply Hgone.
    - intros p Hp Hsome.
      assert (is_Some (<[LIST_JSON := json_dump
                           (build_index (enum (dir_names (fs s) ARCHIVE_DIR)))]>
                         (fs s) !! webp_path_of p)) as Hw.
      { rewrite lookup_insert_ne; [by apply Hwebps|].
        intros Heq. apply in_archive_LIST_JSON. rewrite Heq.
        apply in_archive_webp_path. }
      split; [done|]. intros date label m Hparse. by eapply webp_listed. }
  destruct found as [|p0 found0].
  - intros [= <-]. eapply Hdone; [| |reflexivity]; cbn [fs].
    + intros q Hq. destruct (files !! q) eqn:Hfq; [|done].
      assert (q ∈ []) as Hin by (apply Hiff; by split).
      by apply elem_of_nil in Hin.
    + intros p Hp Hsome. assert (p ∈ []) as Hin by (apply Hiff; by split).
      by apply elem_of_nil in Hin.
  - set (found := p0 :: found0) in *.
    destruct (for_each _ _ _) as [[[]|e] st1] eqn:Hloop; [|done].
    intros [= <-]. rewrite Forall_forall in Harch.
    assert (Forall (fun q => ¬ in_archive q) (sorted found)) as Harch'.
    { apply Forall_forall. intros q Hq. apply (proj1 (sorted_elem _ _)) in Hq. by apply Harch. }
    destruct (for_each_Ok _ _ _ _ _ Harch' (sorted_NoDup _ Hnd) Hloop)
      as (Hout & Hgone & _).
    apply (Hdone st1); [| |done].
    + intros q Hq. destruct (decide (q ∈ sorted found)) as [Hin|Hnin].
      * by apply Hgone.
      * rewrite Hout; [|done|by apply slide_shape_not_in_archive].
        cbn [fs]. destruct (files !! q) eqn:Hfq; [|done].
        destruct Hnin. apply sorted_elem, Hiff. by split.
    + assert (Forall slide_shape (sorted found)) as Hshapes.
      { apply Forall_forall. intros q Hq. apply (proj1 (sorted_elem _ _)) in Hq.
        by apply Hiff in Hq as [_ ?]. }
      intros p Hp Hsome. apply (for_each_Ok_webps _ _ _ Hshapes Hloop).
      apply sorted_elem, Hiff. by split.
Qed.

(** *** The order of the moves *)

Lemma for_each_moved (l : list str) st r st' :
  for_each l process_one st = (r, st') →
  ∃ moved rest,
    l = moved ++ rest
    ∧ moved_sources (out st') = moved_sources (out st) ++ moved
    ∧ (rest = [] ↔ r = Ok tt).
Proof.
  revert st. induction l as [|a l IH]; intros st; simpl.
  - intros [= <- <-]. exists [], []. split; [done|].
    split; [by rewrite app_nil_r|done].
  - unfold bind at 1. destruct (process_one a st) as [r1 st1] eqn:Hrun.
    destruct (process_file_cases _ _ st a r1 st1 Hrun)
      as [(-> & -> & _)|[(-> & _ & _ & _ & evs & Hout & Hevs)
         |(-> & c & files1 & dest & _ & _ & _ & _ & _ & pre & _ & Hpre & Hout)]].
    + intros [= <- <-]. exists [], (a :: l). split; [done|].
      split; [by rewrite app_nil_r|done].
    + intros [= <- <-]. exists [], (a :: l). split; [done|]. split; [|done].
      by rewrite Hout, moved_sources_app, (moved_sources_no_change evs).
    + intros Hrest. destruct (IH st1 Hrest) as (moved & rest & -> & Hmoved & Hiff).
      exists (a :: moved), rest. split; [done|]. split; [|done].
      rewrite Hmoved, Hout, !moved_sources_app, (moved_sources_no_move pre) by done.
      by rewrite <- !app_assoc.
Qed.

(** X19. The originals are moved in ascending order of their paths,
    whatever the order of discovery: the sources of the moves of a run are
    a prefix of the sorted list of discovered files, and the whole list
    exactly when the run completes. *)
Theorem run_moves_in_order (files : gmap str content) (k : nat) (found : list str) :
  fst (find_slide_pngs enum (State files [Printed MsgBanner] k)) = Ok found →
  ∃ rest,
    sorted found
    = moved_sources (out (snd (run png_to_webp json_dump now enum files k))) ++ rest
    ∧ (rest = [] ↔ fst (run png_to_webp json_dump now enum files k) = Ok tt).
Proof.
  unfold run.
  destruct (process_unfold png_to_webp json_dump now enum (State files [] k))
    as (found' & Hfound & ->).
  cbn [fs out clock_reads app] in *. rewrite Hfound. intros [= ->].
  destruct found as [|p0 found0]; [by exists []|].
  destruct (for_each _ _ _) as [r st1] eqn:Hloop.
  destruct (for_each_moved _ _ _ _ Hloop) as (moved & rest & Hsplit & Hmoved & Hiff).
  cbn [out] in Hmoved. exists rest. destruct r as [[]|e]; cbn [fst snd].
  - split; [|done]. unfold after_index. cbn [out].
    by rewrite moved_sources_app, Hmoved, app_nil_r.
  - split; [by rewrite Hmoved|]. rewrite Hiff. done.
Qed.

(** *** When a run completes *)

Lemma for_each_Ok_needs (l : list str) st st' :
  Forall slide_shape l → NoDup l →
  for_each l process_one st = (Ok tt, st') →
  ∀ p, p ∈ l →
    is_Some (fs st !! webp_path_of p)
    ∨ is_Some (fs st !! p ≫= png_to_webp WEBP_QUALITY).
Proof.
  revert st. induction l as [|a l IH]; intros st Hl Hnd; simpl.
  - intros _ p Hp. by apply elem_of_nil in Hp.
  - apply Forall_cons in Hl as [Hshape Hl]. apply NoDup_cons in Hnd as [Hal Hnd].
    unfold bind at 1. destruct (process_one a st) as [[[]|e] st1] eqn:Hrun; [|done].
    intros Hrest p Hp.
    destruct (process_file_Ok st a st1 Hshape Hrun)
      as (c & files1 & dest & Hc & Hf1 & Hdest & Hfs).
    apply elem_of_cons in Hp as [->|Hp].
    + destruct Hf1 as [[? _]|[_ (w & Hw & _)]]; [by left|right].
      rewrite Hc. simpl. by rewrite Hw.
    + assert (slide_shape p) as Hp' by by eapply Forall_forall in Hl.
      assert (p ≠ a) as Hpa by by intros ->.
      destruct (process_file_other st a st1 p Hshape Hrun) as (_ & Hsame & _);
        [done|].
      destruct (IH st1 Hl Hnd Hrest p Hp) as [Hw|Hd].
      * left. rewrite Hfs in Hw.
        destruct (webp_path_fresh p a Hp' Hshape) as (Hn1 & Hn2 & Hn3).
        rewrite lookup_insert_ne, lookup_delete_ne in Hw; [|done|].
        -- destruct Hf1 as [[_ ->]|[_ (w & _ & ->)]]; [done|].
           rewrite lookup_insert_ne in Hw; [done|].
           intros Heq. apply Hpa. symmetry. by apply webp_path_of_inj.
        -- intros ->. destruct Hdest as [[Heq _]|[[t Heq] _]]; [done|].
           by apply (Hn3 t).
      * right. rewrite <- Hsame; [done|]. by apply slide_shape_not_in_archive.
Qed.

(** X20. A run completes only if every discovered file has its WebP in
    the archive already or decodes: a slide file of the source directory
    that has no WebP and does not decode ends every run with an
    exception. *)
Theorem run_completes_only_if (files : gmap str content) (k : nat)
    (found : list str) (st' : state) :
  (∀ X, enum X ≡ₚ elements X) →
  fst (find_slide_pngs enum (State files [Printed MsgBanner] k)) = Ok found →
  run png_to_webp json_dump now enum files k = (Ok tt, st') →
  ∀ p, p ∈ found →
    is_Some (files !! webp_path_of p)
    ∨ is_Some (files !! p ≫= png_to_webp WEBP_QUALITY).
Proof.
  intros Henum. unfold run.
  destruct (process_unfold png_to_webp json_dump now enum (State files [] k))
    as (found' & Hfound & ->).
  cbn [fs out clock_reads app] in *. rewrite Hfound. intros [= ->].
  pose proof (found_iff _ _ _ _ Henum Hfound) as Hiff. cbn [fs] in Hiff.
  destruct (find_slide_pngs_NoDup _ _ _ _ Henum Hfound) as [Hnd Harch].
  destruct found as [|p0 found0].
  { intros _ p Hp. by apply elem_of_nil in Hp. }
  set (found := p0 :: found0) in *.
  assert (Forall slide_shape (sorted found)) as Hshapes.
  { apply Forall_forall. intros q Hq. apply (proj1 (sorted_elem _ _)) in Hq.
    by apply Hiff in Hq as [_ ?]. }
  destruct (for_each _ _ _) as [[[]|e] st1] eqn:Hloop; [|done].
  intros _ p Hp.
  apply (for_each_Ok_needs _ _ _ Hshapes (sorted_NoDup _ Hnd) Hloop).
  by apply sorted_elem.
Qed.

End MoreProgramFacts.

(** ** Concrete runs *)

Example run_spec_example :
  let files : gmap str nat :=
    {[ lit "images/260207_WTI_02.png" := 2%nat;
       lit "images/260207_WTI_01.png" := 1%nat;
       lit "images/260206_SM_01.png" := 3%nat;
       lit "images/260206.png" := 4%nat ]} in
  let st := snd (run demo_codec demo_json noon elements files 0) in
  fst (run demo_codec demo_json noon elements files 0) = Ok tt
  ∧ size (fs st) = 8%nat
  ∧ Forall (fun kv => fs st !! fst kv = Some (snd kv))
      [ (lit "images/260206.png", 4%nat);
        (lit "images/list.json", 1002%nat);
        (lit "images/archive/260207_WTI_02.png", 2%nat);
        (lit "images/archive/260207_WTI_01.png", 1%nat);
        (lit "images/archive/260206_SM_01.png", 3%nat);
        (lit "images/archive/260207_WTI_02.webp", 102%nat);
        (lit "images/archive/260207_WTI_01.webp", 101%nat);
        (lit "images/archive/260206_SM_01.webp", 103%nat) ]
  ∧ build_index (elements (dir_names (fs st) ARCHIVE_DIR))
    = [(lit "260207", [(lit "WTI", [lit "260207_WTI_01.webp"; lit "260207_WTI_02.webp"])]);
       (lit "260206", [(lit "SM", [lit "260206_SM_01.webp"])])].
Proof.
  intros files st. split; [vm_compute; reflexivity|].
  split; [vm_compute; reflexivity|].
  split; [|vm_compute; reflexivity].
  repeat (constructor; [vm_compute; reflexivity|]). constructor.
Qed.

Lemma find_slide_pngs_spec_witness :
  let st : @state nat :=
    State {[ lit "images/260206_SM_01.png" := 1%nat;
             lit "images/260206.png" := 2%nat ]} [] 0 in
  let n := lit "260206_SM_01.png" in
  ∃ found,
    find_slide_pngs elements st = (Ok found, st)
    ∧ (path_join SOURCE_DIR n ∈ found ↔
         ishidden n = false ∧ endswith n (lit ".png") = true
         ∧ (3 ≤ length (split underscore (fst (splitext n))))%nat).
Proof.
  intros st n. apply (find_slide_pngs_spec elements st n).
  - intros X. reflexivity.
  - compute_done.
Defined.

(** C4 (as stated, refuted). The destination does not exist and the
    source file does not decode: [convert_to_webp] raises and no file is
    created. *)
Lemma convert_to_webp_creates_nothing_on_failure :
  let p := lit "images/260206_SM_01.png" in
  let st : @state nat := State {[ p := 0%nat ]} [] 0 in
  fs st !! path_join ARCHIVE_DIR (fst (splitext (basename p)) ++ lit ".webp") = None
  ∧ convert_to_webp demo_codec p st = (Raise OSError, st).
Proof. intros p st. split; vm_compute; reflexivity. Qed.

Lemma convert_to_webp_spec_witness :
  let p := lit "images/260206_SM_01.png" in
  let webp_name := lit "260206_SM_01.webp" in
  let webp_path := lit "images/archive/260206_SM_01.webp" in
  let st_old : @state nat := State {[ p := 5%nat; webp_path := 105%nat ]} [] 0 in
  let st_new : @state nat := State {[ p := 5%nat ]} [] 0 in
  convert_to_webp demo_codec p st_old =
    (Ok webp_name, State (fs st_old) [Printed (MsgSkipped webp_name)] 0)
  ∧ ∃ st', convert_to_webp demo_codec p st_new = (Ok webp_name, st')
      ∧ fs st' = <[webp_path := 105%nat]> (fs st_new)
      ∧ dom (fs st') = {[webp_path]} ∪ dom (fs st_new)
      ∧ (webp_path ∉ dom (fs st_new))
      ∧ fs st' !! p = Some 5%nat.
Proof.
  intros p webp_name webp_path st_old st_new. split.
  - apply (convert_to_webp_spec demo_codec st_old p). compute_done.
  - apply (convert_to_webp_spec demo_codec st_new p);
      vm_compute; reflexivity.
Defined.

(** C5 (as stated, refuted). The archive already holds the base name. An
    original with that name is archived at noon and goes to the suffixed
    name; the file is uploaded again, with other bytes, and archived at
    noon: it goes to the same suffixed name and replaces the first, whose
    bytes are then nowhere on disk. *)
Lemma archive_original_same_second_overwrites :
  let p := lit "images/260206_SM_01.png" in
  let suffixed := lit "images/archive/260206_SM_01_120000.png" in
  let st : @state nat :=
    State {[ lit "images/archive/260206_SM_01.png" := 1%nat; p := 2%nat ]} [] 0 in
  let st1 := snd (archive_original noon p st) in
  let st1' := State (<[p := 3%nat]> (fs st1)) (out st1) (clock_reads st1) in
  let st2 := snd (archive_original noon p st1') in
  fst (archive_original noon p st) = Ok tt
  ∧ fs st1 !! suffixed = Some 2%nat
  ∧ fst (archive_original noon p st1') = Ok tt
  ∧ fs st2 !! suffixed = Some 3%nat
  ∧ ¬ ∃ q, fs st2 !! q = Some 2%nat.
Proof.
  intros p suffixed st st1 st1' st2.
  repeat (split; [vm_compute; reflexivity|]).
  intros [q Hq]. apply elem_of_map_to_list in Hq.
  assert (Forall (fun kv => snd kv ≠ 2%nat) (map_to_list (fs st2))) as Hall
    by compute_done.
  eapply Forall_forall in Hall; [|exact Hq]. done.
Qed.

Lemma archive_original_pair_witness :
  let p := lit "images/260206_SM_01.png" in
  let st : @state nat := State {[ p := 2%nat ]} [] 0 in
  let st1 := snd (archive_original noon p st) in
  let st1' := State (<[p := 3%nat]> (fs st1)) (out st1) (clock_reads st1) in
  ∃ st2 dest1,
    archive_original noon p st = (Ok tt, st1)
    ∧ archive_original noon p st1' = (Ok tt, st2)
    ∧ let dest2 := suffixed_dest p (strftime_HMS (noon (clock_reads st1'))) in
      dest1 ≠ dest2
      ∧ fs st2 !! dest1 = Some 2%nat ∧ fs st2 !! dest2 = Some 3%nat.
Proof.
  intros p st st1 st1'.
  assert (¬ in_archive p) as Hp
    by (apply (in_archive_source (lit "260206_SM_01.png")); compute_done).
  apply (archive_original_pair noon st p p 2%nat 3%nat st1').
  - reflexivity.
  - exact Hp.
  - exact Hp.
  - vm_compute. reflexivity.
  - intros k Hk. unfold st1'. cbn [fs].
    rewrite lookup_insert_ne; [reflexivity|]. intros <-. exact (Hp Hk).
  - vm_compute. reflexivity.
  - left. vm_compute. reflexivity.
Defined.

Lemma convert_before_archive_witness :
  let p := lit "images/260206_SM_01.png" in
  let files : gmap str nat := {[ p := 3%nat ]} in
  let pre := [Printed MsgBanner; Printed (MsgFound 1);
              Saved (lit "images/archive/260206_SM_01.webp");
              Printed (MsgConverted (lit "260206_SM_01.png") (lit "260206_SM_01.webp"))] in
  preceded pre p
  ∧ is_Some (fs (snd (run demo_codec demo_json noon elements files 0))
             !! webp_path_of p).
Proof.
  intros p files pre.
  apply (convert_before_archive demo_codec demo_json noon elements files 0
           (fun X => reflexivity (elements X))
           pre p (lit "images/archive/260206_SM_01.png")
           [Printed (MsgMoved (lit "260206_SM_01.png")); Dumped LIST_JSON;
            Printed (MsgListJson 1); Printed MsgDone]).
  vm_compute. reflexivity.
Defined.

(** C7 (as stated, refuted). The first file of the batch does not decode:
    the run ends with the exception, and the second file, which would
    convert, is neither converted nor moved. *)
Lemma process_stops_at_malformed_image :
  let bad := lit "images/260206_SM_01.png" in
  let good := lit "images/260207_WTI_01.png" in
  let files : gmap str nat := {[ bad := 0%nat; good := 5%nat ]} in
  let st := snd (run demo_codec demo_json noon elements files 0) in
  fst (run demo_codec demo_json noon elements files 0) = Raise OSError
  ∧ out st = [Printed MsgBanner; Printed (MsgFound 2)]
  ∧ fs st !! good = Some 5%nat
  ∧ fs st !! webp_path_of good = None
  ∧ fs st !! plain_dest good = None.
Proof. intros bad good files st. repeat split; vm_compute; reflexivity. Qed.

Lemma process_aborts_on_failure_witness :
  let first := lit "images/260206_SM_01.png" in
  let bad := lit "images/260207_WTI_01.png" in
  let last := lit "images/260208_X_01.png" in
  let files : gmap str nat := {[ first := 5%nat; bad := 0%nat; last := 6%nat ]} in
  let st_mid :=
    snd (for_each [first]
           (fun png_path => bind (convert_to_webp demo_codec png_path)
                                 (fun _ => archive_original noon png_path))
           (State files [Printed MsgBanner; Printed (MsgFound 3)] 0)) in
  let st_fail := snd (convert_to_webp demo_codec bad st_mid) in
  run demo_codec demo_json noon elements files 0 = (Raise OSError, st_fail)
  ∧ fs st_fail = fs st_mid ∧ out st_fail = out st_mid
  ∧ (∀ q, q ∈ bad :: [last] → fs st_fail !! q = files !! q)
  ∧ fs st_fail !! LIST_JSON = files !! LIST_JSON.
Proof.
  intros first bad last files st_mid st_fail.
  apply (process_aborts_on_failure demo_codec demo_json noon elements files 0
           (match fst (find_slide_pngs elements (State files [Printed MsgBanner] 0)) with
            | Ok l => l
            | Raise _ => []
            end)
           [first] [last] bad OSError st_mid st_fail).
  - intros X. reflexivity.
  - vm_compute. reflexivity.
  - vm_compute. reflexivity.
  - vm_compute. reflexivity.
  - vm_compute. reflexivity.
Defined.

(** C8 (as stated, refuted). A file of the batch does not decode: the run
    ends before the index is rebuilt, and [list.json] keeps what it held,
    which is not the index of the archive directory. *)
Lemma process_leaves_stale_index :
  let files : gmap str nat :=
    {[ lit "images/260206_SM_01.png" := 0%nat;
       lit "images/archive/260101_A_1.webp" := 9%nat;
       lit "images/list.json" := 7%nat ]} in
  let st := snd (run demo_codec demo_json noon elements files 0) in
  fst (run demo_codec demo_json noon elements files 0) = Raise OSError
  ∧ fs st !! LIST_JSON = Some 7%nat
  ∧ demo_json (build_index (elements (dir_names (fs st) ARCHIVE_DIR))) = 1001%nat
  ∧ out st = [Printed MsgBanner; Printed (MsgFound 1)].
Proof. intros files st. repeat split; vm_compute; reflexivity. Qed.

Lemma process_rebuilds_index_witness :
  let files : gmap str nat :=
    {[ lit "images/260206.png" := 4%nat;
       lit "images/archive/260101_A_1.webp" := 9%nat;
       lit "images/list.json" := 7%nat ]} in
  ∃ st', run demo_codec demo_json noon elements files 0 = (Ok tt, st')
    ∧ fs st' = <[LIST_JSON :=
                  demo_json (build_index (elements (dir_names files ARCHIVE_DIR)))]> files
    ∧ fs st' !! LIST_JSON
      = Some (demo_json (build_index (elements (dir_names (fs st') ARCHIVE_DIR)))).
Proof.
  intros files.
  destruct (process_rebuilds_index demo_codec demo_json noon elements files 0)
    as (Hany & Hnone & _).
  destruct Hnone as (st' & Hrun & Hfs); [vm_compute; reflexivity|].
  exists st'. split; [exact Hrun|]. split; [exact Hfs|]. apply Hany, Hrun.
Defined.

Lemma process_idempotent_witness :
  let files : gmap str nat :=
    {[ lit "images/260207_WTI_02.png" := 2%nat;
       lit "images/260207_WTI_01.png" := 0%nat;
       lit "images/260206_SM_01.png" := 3%nat ]} in
  let st1 := snd (run demo_codec demo_json noon elements files 0) in
  let st2 := snd (run demo_codec demo_json noon elements (fs st1) 7) in
  fs st2 = fs st1 ∧ Forall (fun e => is_change e = false) (out st2).
Proof.
  intros files.
  apply (process_idempotent demo_codec demo_json noon elements files 0 7).
  intros X. reflexivity.
Defined.

(** ** Concrete instances of the further properties *)

Lemma parse_filename_recovers_stem_witness :
  ∃ page,
    fst (splitext (lit "260207_WTI_x_02.webp"))
    = lit "260207" ++ [underscore] ++ lit "WTI_x" ++ [underscore] ++ page
    ∧ (underscore ∉ lit "260207") ∧ (underscore ∉ page)
    ∧ (if isdigit page then int page = Ok 2%Z else 2%Z = 0%Z).
Proof.
  apply (parse_filename_recovers_stem (lit "260207_WTI_x_02.webp")
           (lit "260207") (lit "WTI_x") 2).
  - vm_compute. lia.
  - vm_compute. reflexivity.
Defined.

Lemma parse_filename_single_segment_witness :
  let stem := fst (splitext (lit "260206.webp")) in
  parse_filename (lit "260206.webp") =
    rbind (if isdigit stem then int stem else Ok 0%Z)
          (fun n => Ok (stem, [], n)).
Proof.
  apply (parse_filename_single_segment (lit "260206.webp")). compute_done.
Defined.

Lemma build_index_group_order_witness :
  let listing := [lit "260206_SM_1.webp"; lit "260206_SM_02.webp";
                  lit "260206_SM_01.webp"; lit "260206_SM_01.png"] in
  let files := [lit "260206_SM_1.webp"; lit "260206_SM_01.webp";
                lit "260206_SM_02.webp"] in
  List.filter (parses_to (lit "260206") (lit "SM") 1) files
  = List.filter (parses_to (lit "260206") (lit "SM") 1)
      (List.filter is_slide_webp listing).
Proof.
  intros listing files.
  apply (build_index_group_order listing (lit "260206") (lit "SM") files 1).
  exists [(lit "SM", files)].
  assert (build_index listing = [(lit "260206", [(lit "SM", files)])]) as ->
    by (vm_compute; reflexivity).
  split; by left.
Defined.

Lemma build_index_no_empty_group_witness :
  let listing := [lit "260206_SM_02.webp"; lit "260206_SM_01.webp"] in
  let groups := [(lit "SM", [lit "260206_SM_01.webp"; lit "260206_SM_02.webp"])] in
  groups ≠ []
  ∧ ∀ label files, (label, files) ∈ groups →
      files ≠ [] ∧ (NoDup listing → NoDup files).
Proof.
  intros listing groups.
  apply (build_index_no_empty_group listing (lit "260206") groups).
  assert (build_index listing = [(lit "260206", groups)]) as ->
    by (vm_compute; reflexivity).
  by left.
Defined.

Lemma build_index_names_witness :
  ∃ page,
    lit "260206_SM_x_01.webp"
    = lit "260206" ++ [underscore] ++ lit "SM_x" ++ [underscore] ++ page
      ++ lit ".webp"
    ∧ (underscore ∉ lit "260206") ∧ (underscore ∉ page).
Proof.
  apply (build_index_names [lit "260206_SM_x_01.webp"] (lit "260206") (lit "SM_x")
           [lit "260206_SM_x_01.webp"] (lit "260206_SM_x_01.webp")).
  - exists [(lit "SM_x", [lit "260206_SM_x_01.webp"])].
    assert (build_index [lit "260206_SM_x_01.webp"]
            = [(lit "260206", [(lit "SM_x", [lit "260206_SM_x_01.webp"])])]) as ->
      by (vm_compute; reflexivity).
    split; by left.
  - by left.
  - compute_done.
Defined.

Lemma build_index_permutation_witness :
  same_up_to_ties
    (build_index [lit "260206_SM_1.webp"; lit "260206_SM_01.webp"])
    (build_index [lit "260206_SM_01.webp"; lit "260206_SM_1.webp"]).
Proof.
  apply (build_index_permutation
           [lit "260206_SM_1.webp"; lit "260206_SM_01.webp"]
           [lit "260206_SM_01.webp"; lit "260206_SM_1.webp"]).
  apply Permutation_swap.
Defined.

Lemma build_index_enumeration_independent_witness :
  build_index [lit "260206_SM_2.webp"; lit "260206_SM_1.webp"]
  = build_index [lit "260206_SM_1.webp"; lit "260206_SM_2.webp"].
Proof.
  apply (build_index_enumeration_independent
           [lit "260206_SM_2.webp"; lit "260206_SM_1.webp"]
           [lit "260206_SM_1.webp"; lit "260206_SM_2.webp"]).
  - apply Permutation_swap.
  - intros f g t Hf Hg Hpf Hpg.
    repeat match goal with
           | H : _ ∈ _ :: _ |- _ => apply elem_of_cons in H as [->|H]
           | H : _ ∈ [] |- _ => by apply elem_of_nil in H
           end; try done; vm_compute in Hpf, Hpg; congruence.
Defined.

Lemma slide_webp_passes_filter_witness :
  let p := lit "images/260206_SM_01.png" in
  is_slide_webp (webp_name_of p) = true
  ∧ fst (splitext (webp_name_of p)) = fst (splitext (basename p))
  ∧ parse_filename (webp_name_of p) = parse_filename (basename p).
Proof.
  intros p. apply (slide_webp_passes_filter p).
  slide_shape_of (lit "260206_SM_01.png").
Defined.

Lemma slide_paths_distinct_witness :
  let p := lit "images/260206_SM_01.png" in
  let q := lit "images/260206_SM_01_120000.png" in
  (webp_path_of p = webp_path_of q → p = q)
  ∧ webp_path_of p ≠ q
  ∧ webp_path_of p ≠ plain_dest q
  ∧ (∀ t, webp_path_of p ≠ suffixed_dest q (strftime_HMS t)).
Proof.
  intros p q. apply (slide_paths_distinct p q).
  - slide_shape_of (lit "260206_SM_01.png").
  - slide_shape_of (lit "260206_SM_01_120000.png").
Defined.

Lemma convert_to_webp_twice_witness :
  let p := lit "images/260206_SM_01.png" in
  let name := lit "260206_SM_01.webp" in
  let st : @state nat := State {[ p := 5%nat ]} [] 0 in
  let st1 := snd (convert_to_webp demo_codec p st) in
  convert_to_webp demo_codec p st1
  = (Ok name, State (fs st1) (out st1 ++ [Printed (MsgSkipped name)]) (clock_reads st1)).
Proof.
  intros p name st st1.
  apply (convert_to_webp_twice demo_codec st p name st1).
  vm_compute. reflexivity.
Defined.

Lemma archive_original_moves_witness :
  let p := lit "images/260206_SM_01.png" in
  let st : @state nat :=
    State {[ p := 5%nat; lit "images/archive/260206_SM_01.png" := 4%nat ]} [] 0 in
  let dest := if bool_decide (is_Some (fs st !! plain_dest p))
              then suffixed_dest p (strftime_HMS (noon (clock_reads st)))
              else plain_dest p in
  dest = lit "images/archive/260206_SM_01_120000.png"
  ∧ ∃ st', archive_original noon p st = (Ok tt, st')
      ∧ fs st' !! p = None ∧ fs st' !! dest = Some 5%nat
      ∧ (∀ k, k ≠ p → k ≠ dest → fs st' !! k = fs st !! k)
      ∧ out st' = out st ++ [Moved p dest; Printed (MsgMoved (basename p))].
Proof.
  intros p st dest. split; [vm_compute; reflexivity|].
  apply (archive_original_moves noon st p).
  - apply (in_archive_source (lit "260206_SM_01.png")). compute_done.
  - vm_compute. reflexivity.
Defined.

Lemma build_list_json_twice_witness :
  let st : @state nat :=
    State {[ lit "images/archive/260206_SM_01.webp" := 105%nat;
             lit "images/list.json" := 7%nat ]} [] 0 in
  let idx := [(lit "260206", [(lit "SM", [lit "260206_SM_01.webp"])])] in
  let st1 := snd (build_list_json demo_json elements st) in
  fs st1 = <[LIST_JSON := demo_json idx]> (fs st)
  ∧ ∃ st2, build_list_json demo_json elements st1 = (Ok idx, st2) ∧ fs st2 = fs st1.
Proof.
  intros st idx st1.
  apply (build_list_json_twice demo_json elements st idx st1).
  vm_compute. reflexivity.
Defined.

Lemma run_leaves_other_files_witness :
  let q := lit "images/260206.png" in
  let files : gmap str nat :=
    {[ q := 4%nat; lit "images/260206_SM_01.png" := 3%nat ]} in
  fs (snd (run demo_codec demo_json noon elements files 0)) !! q = files !! q.
Proof.
  intros q files.
  apply (run_leaves_other_files demo_codec demo_json noon elements files 0 q).
  - intros X. reflexivity.
  - not_slide_shape_of (lit "260206.png").
  - apply (in_archive_source (lit "260206.png")). compute_done.
  - done.
Defined.

Lemma run_keeps_webps_witness :
  let q := lit "images/archive/260206_SM_01.webp" in
  let files : gmap str nat :=
    {[ q := 9%nat; lit "images/260206_SM_01.png" := 3%nat ]} in
  fs (snd (run demo_codec demo_json noon elements files 0)) !! q = Some 9%nat.
Proof.
  intros q files.
  apply (run_keeps_webps demo_codec demo_json noon elements files 0 q 9%nat).
  - intros X. reflexivity.
  - vm_compute. reflexivity.
  - vm_compute. reflexivity.
Defined.

Lemma run_removes_only_slides_witness :
  let q := lit "images/260206.png" in
  let files : gmap str nat :=
    {[ q := 4%nat; lit "images/260206_SM_01.png" := 0%nat ]} in
  is_Some (fs (snd (run demo_codec demo_json noon elements files 0)) !! q).
Proof.
  intros q files.
  apply (run_removes_only_slides demo_codec demo_json noon elements files 0 q).
  - intros X. reflexivity.
  - vm_compute. by eexists.
  - not_slide_shape_of (lit "260206.png").
Defined.

Lemma run_conserves_originals_witness :
  let p := lit "images/260206_SM_01.png" in
  let files : gmap str nat :=
    {[ p := 3%nat; lit "images/archive/260206_SM_01.png" := 8%nat ]} in
  let st' := snd (run demo_codec demo_json noon elements files 0) in
  fs st' !! p = Some 3%nat
  ∨ (fs st' !! p = None
     ∧ ∃ dest, (dest = plain_dest p ∨ ∃ t, dest = suffixed_dest p (strftime_HMS t))
               ∧ fs st' !! dest = Some 3%nat).
Proof.
  intros p files.
  apply (run_conserves_originals demo_codec demo_json noon elements files 0 p 3%nat).
  - intros X. reflexivity.
  - slide_shape_of (lit "260206_SM_01.png").
  - vm_compute. reflexivity.
Defined.

Lemma run_completed_consumes_slides_witness :
  let p := lit "images/260206_SM_01.png" in
  let files : gmap str nat := {[ p := 3%nat; lit "images/260206.png" := 4%nat ]} in
  let st' := snd (run demo_codec demo_json noon elements files 0) in
  (∀ q, slide_shape q → fs st' !! q = None)
  ∧ (∀ p, slide_shape p → is_Some (files !! p) →
       is_Some (fs st' !! webp_path_of p)
       ∧ ∀ date label (n : Z),
           parse_filename (webp_name_of p) = Ok (date, label, n) →
           ∃ names,
             listed_under (build_index (elements (dir_names (fs st') ARCHIVE_DIR)))
                          date label names
             ∧ webp_name_of p ∈ names).
Proof.
  intros p files st'.
  apply (run_completed_consumes_slides demo_codec demo_json noon elements files 0 st').
  - intros X. reflexivity.
  - vm_compute. reflexivity.
Defined.

Lemma run_moves_in_order_witness :
  let files : gmap str nat :=
    {[ lit "images/260207_WTI_02.png" := 2%nat;
       lit "images/260207_WTI_01.png" := 0%nat;
       lit "images/260206_SM_01.png" := 3%nat ]} in
  let found := [lit "images/260207_WTI_02.png"; lit "images/260206_SM_01.png";
                lit "images/260207_WTI_01.png"] in
  ∃ rest,
    sorted found
    = moved_sources (out (snd (run demo_codec demo_json noon elements files 0))) ++ rest
    ∧ (rest = [] ↔ fst (run demo_codec demo_json noon elements files 0) = Ok tt).
Proof.
  intros files found.
  apply (run_moves_in_order demo_codec demo_json noon elements files 0 found).
  vm_compute. reflexivity.
Defined.

Lemma run_completes_only_if_witness :
  let files : gmap str nat :=
    {[ lit "images/260207_WTI_01.png" := 0%nat;
       lit "images/260206_SM_01.png" := 3%nat;
       lit "images/archive/260207_WTI_01.webp" := 100%nat ]} in
  let found := [lit "images/260206_SM_01.png"; lit "images/260207_WTI_01.png"] in
  Forall (fun p => is_Some (files !! webp_path_of p)
                   ∨ is_Some (files !! p ≫= demo_codec WEBP_QUALITY))
         found.
Proof.
  intros files found. apply Forall_forall.
  apply (run_completes_only_if demo_codec demo_json noon elements files 0 found
           (snd (run demo_codec demo_json noon elements files 0))).
  - intros X. reflexivity.
  - vm_compute. reflexivity.
  - vm_compute. reflexivity.
Defined.
